(** * CVScanPro: the scoring pipeline of the resume ranker

    A shallow embedding of [src/ranker.py], [src/embeddings.py] and
    [src/text_processor.py], and the properties of the ranking pipeline
    proved about it.

    Modelling conventions.
    - A Python [str] is a [string]; the character classes of the regular
      expressions ([\w], [\s], [\d]) and [str.lower] are the ASCII ones.
    - A Python or numpy float is a [pyfloat]: a rational, an infinity or
      NaN.  A rational [q] stands for the binary64 number nearest to it,
      [double q] (53 significant bits, ties to even).  A quotient of two
      counts is held as it is, and so stands for the double that the
      division of the code returns; an addition, a multiplication and
      numpy's division take the doubles that their operands stand for and
      round their result, to an infinity beyond the range of binary64.
      Division by zero, comparisons with NaN and the infinities follow
      IEEE 754 as numpy and Python implement them.  The zero is unsigned
      and there is no underflow: the exponent is not bounded below.
    - [int] of a string of digits is its value.  CPython 3.11 refuses a
      string of more than 4300 digits with a ValueError; such numbers are
      outside the model, and the theorems that say which exceptions are
      raised assume that the phrases hold none.
    - A Python exception is an [Err] of the error monad [result]; a
      [try]/[except Exception] is [try_except].
    - The third-party libraries the code calls (numpy's norm, scikit-learn's
      TfidfVectorizer, NLTK's tokenizer, stop words and lemmatizer) are
      interfaces (type classes); the theorems hold for every implementation
      and sample implementations are given for closed examples. *)

From Stdlib Require Import Bool Arith ZArith QArith Qminmax Qround Qabs Qpower Lia Lqa.
From Stdlib Require Import List String Ascii.
From Stdlib Require Import Sorting.Sorted Sorting.Permutation.
Import ListNotations.

Local Open Scope string_scope.
Local Open Scope Q_scope.

(** ** Exceptions *)

Inductive exn : Type :=
| ValueError
| ZeroDivisionError
| LookupError
| TypeError.

Inductive result (A : Type) : Type :=
| Ok (a : A)
| Err (e : exn).

Arguments Ok {A} a.
Arguments Err {A} e.

Definition bind {A B : Type} (m : result A) (f : A -> result B) : result B :=
  match m with
  | Ok a => f a
  | Err e => Err e
  end.

Notation "x <- m ;; k" := (bind m (fun x => k))
  (at level 61, m at next level, right associativity).

(** [try: m except Exception: h] *)
Definition try_except {A : Type} (m : result A) (h : exn -> result A) : result A :=
  match m with
  | Ok a => Ok a
  | Err e => h e
  end.

Definition is_ok {A : Type} (m : result A) : bool :=
  match m with Ok _ => true | Err _ => false end.

(** ** Floats *)

Inductive pyfloat : Type :=
| PFin (q : Q)
| PInf (negative : bool)
| PNaN.

Definition pf_zero : pyfloat := PFin 0.
Definition pf_one : pyfloat := PFin 1.

Definition Qltb (x y : Q) : bool := negb (Qle_bool y x).

Definition Qsign_neg (q : Q) : bool := Qltb q 0.

(** [x < y] *)
Definition pf_ltb (x y : pyfloat) : bool :=
  match x, y with
  | PNaN, _ | _, PNaN => false
  | PFin a, PFin b => Qltb a b
  | PFin _, PInf neg => negb neg
  | PInf neg, PFin _ => neg
  | PInf n1, PInf n2 => n1 && negb n2
  end.

(** [x == y] *)
Definition pf_eqb (x y : pyfloat) : bool :=
  match x, y with
  | PFin a, PFin b => Qeq_bool a b
  | PInf n1, PInf n2 => Bool.eqb n1 n2
  | _, _ => false
  end.

(** [x >= y] *)
Definition pf_geb (x y : pyfloat) : bool :=
  pf_ltb y x || pf_eqb x y.

(** *** Rounding to binary64 *)

(** [2 ^ e] *)
Definition pow2 (e : Z) : Q := (2 # 1) ^ e.

(** The exponent of the binade of a positive rational:
    [2^e <= q < 2^(e+1)]. *)
Definition binade (q : Q) : Z :=
  let e0 := (Z.log2 (Qnum q) - Z.log2 (Zpos (Qden q)))%Z in
  if Qle_bool (pow2 e0) q then e0 else (e0 - 1)%Z.

(** The integer nearest to [m], the even one of two that are equally
    near. *)
Definition round_half_even (m : Q) : Z :=
  let n := Qfloor m in
  match Qcompare (m - inject_Z n) (1 # 2) with
  | Lt => n
  | Gt => (n + 1)%Z
  | Eq => if Z.even n then n else (n + 1)%Z
  end.

(** The number with 53 significant bits nearest to a positive [q]. *)
Definition round_pos (q : Q) : Q :=
  let e := binade q in
  inject_Z (round_half_even (q * pow2 (52 - e))) * pow2 (e - 52).

(** The double nearest to [q], as a fraction in lowest terms. *)
Definition double (q : Q) : Q :=
  let q := Qred q in
  match Qnum q with
  | Z0 => 0
  | Zpos _ => Qred (round_pos q)
  | Zneg _ => Qred (- round_pos (- q))
  end.

(** The result of an operation whose exact value is [q]: the nearest
    double, or an infinity when that lies beyond the largest double. *)
Definition round64 (q : Q) : pyfloat :=
  let r := double q in
  if Qle_bool (pow2 1024) (Qabs r) then PInf (Qsign_neg r) else PFin r.

Definition pf_add (x y : pyfloat) : pyfloat :=
  match x, y with
  | PNaN, _ | _, PNaN => PNaN
  | PFin a, PFin b => round64 (double a + double b)
  | PFin _, PInf n => PInf n
  | PInf n, PFin _ => PInf n
  | PInf n1, PInf n2 => if Bool.eqb n1 n2 then PInf n1 else PNaN
  end.

Definition pf_mul (x y : pyfloat) : pyfloat :=
  match x, y with
  | PNaN, _ | _, PNaN => PNaN
  | PFin a, PFin b => round64 (double a * double b)
  | PFin a, PInf n | PInf n, PFin a =>
      if Qeq_bool a 0 then PNaN else PInf (xorb n (Qsign_neg a))
  | PInf n1, PInf n2 => PInf (xorb n1 n2)
  end.

(** numpy's [float64 / float64]: a zero divisor gives an infinity or NaN
    (with a warning), never an exception. *)
Definition np_div (x y : pyfloat) : pyfloat :=
  match x, y with
  | PNaN, _ | _, PNaN => PNaN
  | PInf _, PInf _ => PNaN
  | PInf n, PFin b => PInf (xorb n (Qsign_neg b))
  | PFin _, PInf _ => PFin 0
  | PFin a, PFin b =>
      if Qeq_bool b 0
      then (if Qeq_bool a 0 then PNaN else PInf (Qsign_neg a))
      else round64 (double a / double b)
  end.

(** Python's [a / b] on an int or float [a] and an int [b]: a zero divisor
    raises.  The quotient is held as it is and stands for the double nearest
    to it, which is what the division returns. *)
Definition py_truediv (a : Q) (b : Z) : result pyfloat :=
  if (b =? 0)%Z then Err ZeroDivisionError else Ok (PFin (a / inject_Z b)).

(** The builtins [min(a, b)] and [max(a, b)]: the first argument is kept
    unless the second compares strictly below (above) it. *)
Definition py_min (a b : pyfloat) : pyfloat := if pf_ltb b a then b else a.
Definition py_max (a b : pyfloat) : pyfloat := if pf_ltb a b then b else a.

(** [lo <= x <= hi] for a finite [x]. *)
Definition pf_between (lo hi : Q) (x : pyfloat) : Prop :=
  match x with
  | PFin q => lo <= q /\ q <= hi
  | _ => False
  end.

(** Equality of floats as values. *)
Definition pf_eq (x y : pyfloat) : Prop :=
  match x, y with
  | PFin a, PFin b => a == b
  | PInf n1, PInf n2 => n1 = n2
  | PNaN, PNaN => True
  | _, _ => False
  end.

(** ** Strings *)

Definition is_upper (c : ascii) : bool :=
  let n := nat_of_ascii c in (65 <=? n)%nat && (n <=? 90)%nat.

Definition lower_char (c : ascii) : ascii :=
  if is_upper c then ascii_of_nat (nat_of_ascii c + 32) else c.

(** [s.lower()] *)
Fixpoint lower (s : string) : string :=
  match s with
  | EmptyString => EmptyString
  | String c s' => String (lower_char c) (lower s')
  end.

(** [a in b] on strings: [a] occurs in [b] as a contiguous substring. *)
Fixpoint str_in (a b : string) : bool :=
  if prefix a b then true
  else match b with
       | EmptyString => false
       | String _ b' => str_in a b'
       end.

(** The bidirectional substring match of the scorers. *)
Definition either_in (a b : string) : bool := str_in a b || str_in b a.

(** ** [ranker.py]: the entity scorers *)

Definition count_Q (n : nat) : Q := inject_Z (Z.of_nat n).

(** [len(l)] *)
Definition len {A : Type} (l : list A) : Z := Z.of_nat (List.length l).

(** The counting loop of [calculate_skills_match]. *)
Fixpoint count_skills (job_skills_lower resume_skills_lower : list string)
    (matching_skills : nat) : nat :=
  match job_skills_lower with
  | [] => matching_skills
  | job_skill :: rest =>
      count_skills rest resume_skills_lower
        (if existsb (fun resume_skill =>
                       str_in job_skill resume_skill || str_in resume_skill job_skill)
                    resume_skills_lower
         then S matching_skills else matching_skills)
  end.

Definition calculate_skills_match (job_skills resume_skills : list string)
  : result pyfloat :=
  match job_skills with
  | [] => Ok (PFin 0)
  | _ =>
      match resume_skills with
      | [] => Ok (PFin 0)
      | _ =>
          let job_skills_lower := map lower job_skills in
          let resume_skills_lower := map lower resume_skills in
          let matching_skills := count_skills job_skills_lower resume_skills_lower 0 in
          py_truediv (count_Q matching_skills) (len job_skills)
      end
  end.

Definition education_keywords : list string :=
  ["bachelor"; "master"; "phd"; "degree"; "diploma"; "certificate"].

(** The innermost loop of [calculate_education_match]: half a point for the
    first keyword that both phrases contain, then [break]. *)
Fixpoint keyword_scan (keywords : list string) (job_edu resume_edu : string)
    (matches : Q) : Q :=
  match keywords with
  | [] => matches
  | keyword :: rest =>
      if str_in keyword job_edu && str_in keyword resume_edu
      then matches + (1 # 2)
      else keyword_scan rest job_edu resume_edu matches
  end.

(** The loop over the resume phrases for one job phrase: a substring match
    adds a point and leaves the loop; otherwise the keywords are checked and
    the loop goes on with the next resume phrase. *)
Fixpoint education_scan (job_edu : string) (resume_edu_lower : list string)
    (matches : Q) : Q :=
  match resume_edu_lower with
  | [] => matches
  | resume_edu :: rest =>
      if str_in job_edu resume_edu || str_in resume_edu job_edu
      then matches + 1
      else education_scan job_edu rest
             (keyword_scan education_keywords job_edu resume_edu matches)
  end.

Fixpoint education_loop (job_edu_lower resume_edu_lower : list string)
    (matches : Q) : Q :=
  match job_edu_lower with
  | [] => matches
  | job_edu :: rest =>
      education_loop rest resume_edu_lower
        (education_scan job_edu resume_edu_lower matches)
  end.

Definition calculate_education_match (job_education resume_education : list string)
  : result pyfloat :=
  match job_education with
  | [] => Ok (PFin 1)
  | _ =>
      match resume_education with
      | [] => Ok (PFin 0)
      | _ =>
          let job_edu_lower := map lower job_education in
          let resume_edu_lower := map lower resume_education in
          let matches := education_loop job_edu_lower resume_edu_lower 0 in
          q <- py_truediv matches (len job_education) ;;
          Ok (py_min (PFin 1) q)
      end
  end.

(** *** The years pattern [(\d+)[\+]?\s*(year|yr|years|yrs)] *)

Definition is_digit (c : ascii) : bool :=
  let n := nat_of_ascii c in (48 <=? n)%nat && (n <=? 57)%nat.

(** [\s]: space, tab, newline, vertical tab, form feed, carriage return and
    the four separators 0x1c to 0x1f. *)
Definition is_space (c : ascii) : bool :=
  let n := nat_of_ascii c in
  (n =? 32)%nat || ((9 <=? n)%nat && (n <=? 13)%nat)
  || ((28 <=? n)%nat && (n <=? 31)%nat).

(** The longest prefix of characters satisfying [p], and what follows it. *)
Fixpoint span (p : ascii -> bool) (s : string) : string * string :=
  match s with
  | EmptyString => (EmptyString, EmptyString)
  | String c s' =>
      if p c then let (a, b) := span p s' in (String c a, b)
      else (EmptyString, s)
  end.

Fixpoint drop (n : nat) (s : string) : string :=
  match n, s with
  | O, _ => s
  | S n', String _ s' => drop n' s'
  | S _, EmptyString => EmptyString
  end.

(** The alternation [(year|yr|years|yrs)], tried from left to right. *)
Fixpoint match_alternatives (alts : list string) (s : string) : option string :=
  match alts with
  | [] => None
  | alt :: rest => if prefix alt s then Some alt else match_alternatives rest s
  end.

Definition year_units : list string := ["year"; "yr"; "years"; "yrs"].

(** A match of the years pattern at the start of [s]: the digits, the unit
    and the number of characters matched.  Each greedy part is followed by
    something that none of its own characters can start, so giving
    characters back never turns a failure into a match and the greedy
    choice is the match the regular-expression engine finds. *)
Definition match_years (s : string) : option (string * string * nat) :=
  let (digits, r1) := span is_digit s in
  match digits with
  | EmptyString => None
  | _ =>
      let (plus, r2) :=
        match r1 with
        | String "+"%char r => (1%nat, r)
        | _ => (0%nat, r1)
        end in
      let (spaces, r3) := span is_space r2 in
      match match_alternatives year_units r3 with
      | Some unit =>
          Some (digits, unit,
                (String.length digits + plus + String.length spaces
                 + String.length unit)%nat)
      | None => None
      end
  end.

(** [re.findall(years_pattern, s)]: the matches from left to right, the
    search going on where the previous match ended.  [skip] counts the
    characters of the current match still to be passed over. *)
Fixpoint findall_years_from (s : string) (skip : nat) : list (string * string) :=
  match s with
  | EmptyString => []
  | String _ s' =>
      match skip with
      | S k => findall_years_from s' k
      | O =>
          match match_years s with
          | Some (digits, unit, n) => (digits, unit) :: findall_years_from s' (pred n)
          | None => findall_years_from s' 0
          end
      end
  end.

Definition findall_years (s : string) : list (string * string) :=
  findall_years_from s 0.

(** [int(digits)] for a string of decimal digits. *)
Fixpoint int_of_digits_from (s : string) (acc : Z) : Z :=
  match s with
  | EmptyString => acc
  | String c s' => int_of_digits_from s' (10 * acc + Z.of_nat (nat_of_ascii c - 48))%Z
  end.

Definition int_of_digits (s : string) : Z := int_of_digits_from s 0.

(** The loop collecting [job_years] (and [resume_years]). *)
Fixpoint collect_years (exps : list string) : list Z :=
  match exps with
  | [] => []
  | exp :: rest =>
      (map (fun m => int_of_digits (fst m)) (findall_years exp) ++ collect_years rest)%list
  end.

(** [max(l)] of a list of ints. *)
Definition py_max_ints (l : list Z) : result Z :=
  match l with
  | [] => Err ValueError
  | x :: l' => Ok (fold_left Z.max l' x)
  end.

(** The inner loop of the fallback: one point at the first resume phrase
    matching, then [break]. *)
Fixpoint experience_scan (job_exp : string) (resume_exp_lower : list string)
    (matches : nat) : nat :=
  match resume_exp_lower with
  | [] => matches
  | resume_exp :: rest =>
      if str_in job_exp resume_exp || str_in resume_exp job_exp
      then S matches
      else experience_scan job_exp rest matches
  end.

Fixpoint experience_loop (job_exp_lower resume_exp_lower : list string)
    (matches : nat) : nat :=
  match job_exp_lower with
  | [] => matches
  | job_exp :: rest =>
      experience_loop rest resume_exp_lower
        (experience_scan job_exp resume_exp_lower matches)
  end.

Definition calculate_experience_match (job_experience resume_experience : list string)
  : result pyfloat :=
  match job_experience with
  | [] => Ok (PFin 1)
  | _ =>
      match resume_experience with
      | [] => Ok (PFin 0)
      | _ =>
          let job_exp_lower := map lower job_experience in
          let resume_exp_lower := map lower resume_experience in
          let job_years := collect_years job_exp_lower in
          let resume_years := collect_years resume_exp_lower in
          match job_years, resume_years with
          | _ :: _, _ :: _ =>
              max_job_years <- py_max_ints job_years ;;
              max_resume_years <- py_max_ints resume_years ;;
              if (max_resume_years >=? max_job_years)%Z
              then Ok (PFin 1)
              else py_truediv (inject_Z max_resume_years) max_job_years
          | _, _ =>
              let matches := experience_loop job_exp_lower resume_exp_lower 0 in
              q <- py_truediv (count_Q matches) (len job_experience) ;;
              Ok (py_min (PFin 1) q)
          end
      end
  end.

(** ** [embeddings.py]: similarity *)

(** numpy's Euclidean norm.  It involves a square root, which has no exact
    value among the rationals: the norm is an interface, and nothing is
    assumed about the float it returns. *)
Class Numpy : Type := {
  np_linalg_norm : list pyfloat -> pyfloat
}.

(** [np.all(embedding == 0)] *)
Definition np_all_zero (embedding : list pyfloat) : bool :=
  forallb (fun x => pf_eqb x (PFin 0)) embedding.

Fixpoint dot_from (a b : list pyfloat) (acc : pyfloat) : pyfloat :=
  match a, b with
  | x :: a', y :: b' => dot_from a' b' (pf_add acc (pf_mul x y))
  | _, _ => acc
  end.

(** [np.dot(a, b)] on one-dimensional arrays: the shapes must agree. *)
Definition np_dot (a b : list pyfloat) : result pyfloat :=
  if (List.length a =? List.length b)%nat
  then Ok (dot_from a b (PFin 0))
  else Err ValueError.

Definition calculate_similarity `{Numpy} (embedding1 embedding2 : list pyfloat)
  : result pyfloat :=
  if np_all_zero embedding1 || np_all_zero embedding2 then Ok (PFin 0)
  else
    d <- np_dot embedding1 embedding2 ;;
    let similarity :=
      np_div d (pf_mul (np_linalg_norm embedding1) (np_linalg_norm embedding2)) in
    Ok (py_max (PFin 0) (py_min (PFin 1) similarity)).

(** ** [ranker.py]: ranking *)

Record Entities : Type := {
  skills : list string;
  education : list string;
  experience : list string
}.

(** The dictionary built by [process_job_description]. *)
Record JobDescription : Type := {
  jd_text : string;
  jd_processed_text : string;
  jd_entities : Entities;
  jd_embedding : list pyfloat
}.

(** The dictionary built for each file by [process_resumes]. *)
Record Resume : Type := {
  filename : string;
  text : string;
  processed_text : string;
  entities : Entities;
  embedding : list pyfloat
}.

(** An entry of [ranked_resumes]. *)
Record RankedResume : Type := {
  ranked_filename : string;
  ranked_text : string;
  ranked_processed_text : string;
  ranked_entities : Entities;
  ranked_embedding : list pyfloat;
  match_score : pyfloat;
  skills_score : pyfloat;
  education_score : pyfloat;
  experience_score : pyfloat;
  matching_skills : list string;
  missing_skills : list string
}.

(** The weighted sum of the four scores, as a percentage. *)
Definition overall (similarity_score skills_score education_score experience_score : pyfloat)
  : pyfloat :=
  pf_mul
    (pf_add
       (pf_add
          (pf_add (pf_mul similarity_score (PFin (2 # 5)))
                  (pf_mul skills_score (PFin (3 # 10))))
          (pf_mul education_score (PFin (3 # 20))))
       (pf_mul experience_score (PFin (3 # 20))))
    (PFin 100).

(** The body of the loop of [rank_resumes]. *)
Definition rank_one `{Numpy} (job_description : JobDescription) (resume : Resume)
  : result RankedResume :=
  similarity_score <-
    calculate_similarity (jd_embedding job_description) (embedding resume) ;;
  skills_score <-
    calculate_skills_match (skills (jd_entities job_description))
                           (skills (entities resume)) ;;
  education_score <-
    calculate_education_match (education (jd_entities job_description))
                              (education (entities resume)) ;;
  experience_score <-
    calculate_experience_match (experience (jd_entities job_description))
                               (experience (entities resume)) ;;
  let overall_score :=
    overall similarity_score skills_score education_score experience_score in
  let matching_skills :=
    filter (fun skill =>
              existsb (fun job_skill =>
                         str_in (lower job_skill) (lower skill)
                         || str_in (lower skill) (lower job_skill))
                      (skills (jd_entities job_description)))
           (skills (entities resume)) in
  let missing_skills :=
    filter (fun skill =>
              negb (existsb (fun resume_skill =>
                               str_in (lower skill) (lower resume_skill)
                               || str_in (lower resume_skill) (lower skill))
                            (skills (entities resume))))
           (skills (jd_entities job_description)) in
  Ok {| ranked_filename := filename resume;
        ranked_text := text resume;
        ranked_processed_text := processed_text resume;
        ranked_entities := entities resume;
        ranked_embedding := embedding resume;
        match_score := overall_score;
        skills_score := pf_mul skills_score (PFin 100);
        education_score := pf_mul education_score (PFin 100);
        experience_score := pf_mul experience_score (PFin 100);
        matching_skills := matching_skills;
        missing_skills := missing_skills |}.

(** The loop of [rank_resumes]: one entry appended per resume, in order; an
    exception leaves the loop. *)
Fixpoint rank_loop `{Numpy} (job_description : JobDescription)
    (parsed_resumes : list Resume) : result (list RankedResume) :=
  match parsed_resumes with
  | [] => Ok []
  | resume :: rest =>
      entry <- rank_one job_description resume ;;
      entries <- rank_loop job_description rest ;;
      Ok (entry :: entries)
  end.

(** *** [list.sort(key=..., reverse=True)]

    Python's sort is stable and compares keys with [<] only.  With
    [reverse=True] the list is reversed, sorted in ascending order and
    reversed again, which keeps the original order of equal keys.  The
    ascending sort is modelled by a stable insertion sort. *)

Fixpoint insert_by {A : Type} (key : A -> pyfloat) (x : A) (l : list A) : list A :=
  match l with
  | [] => [x]
  | y :: l' =>
      if pf_ltb (key y) (key x) then y :: insert_by key x l' else x :: l
  end.

Definition stable_sort {A : Type} (key : A -> pyfloat) (l : list A) : list A :=
  fold_right (insert_by key) [] l.

Definition list_sort {A : Type} (key : A -> pyfloat) (reverse : bool) (l : list A)
  : list A :=
  if reverse then rev (stable_sort key (rev l)) else stable_sort key l.

(** [job_description] is [None] when no job description was given. *)
Definition rank_resumes `{Numpy} (job_description : option JobDescription)
    (parsed_resumes : list Resume) : result (list RankedResume) :=
  match job_description with
  | None => Ok []
  | Some jd =>
      match parsed_resumes with
      | [] => Ok []
      | _ =>
          ranked_resumes <- rank_loop jd parsed_resumes ;;
          Ok (list_sort match_score true ranked_resumes)
      end
  end.

(** ** [embeddings.py]: the encoder *)

(** scikit-learn's [TfidfVectorizer], as far as [get_embedding] uses it:
    [fit_transform([text]).toarray()[0]] learns a vocabulary from one text
    and returns its row, or raises and leaves the vectorizer unfitted;
    [transform([text]).toarray()[0]] encodes a text against a vocabulary. *)
Class Sklearn : Type := {
  vocabulary : Type;
  fit_transform : string -> result (vocabulary * list pyfloat);
  transform : vocabulary -> string -> result (list pyfloat)
}.

(** The vectorizer object; [vocabulary_] is [None] as long as the attribute
    does not exist. *)
Record TfidfVectorizer `{Sklearn} : Type := {
  max_features : nat;
  vocabulary_ : option vocabulary
}.

(** [load_model] assigns a new, unfitted vectorizer to the global.  The
    constructor only stores its parameters. *)
Definition load_model `{Sklearn} : TfidfVectorizer :=
  {| max_features := 384; vocabulary_ := None |}.

Definition np_zeros (n : nat) : list pyfloat := repeat (PFin 0) n.

(** The size adjustment at the end of the [try] block. *)
Definition fit_to_384 (embedding : list pyfloat) : list pyfloat :=
  if (List.length embedding <? 384)%nat
  then (embedding ++ np_zeros (384 - List.length embedding))%list
  else if (384 <? List.length embedding)%nat
       then firstn 384 embedding
       else embedding.

(** The [try] block: the new value of the global and the outcome. *)
Definition encode_with `{Sklearn} (v : TfidfVectorizer) (text : string)
  : TfidfVectorizer * result (list pyfloat) :=
  match vocabulary_ v with
  | None =>
      match fit_transform text with
      | Ok (voc, embedding) =>
          ({| max_features := max_features v; vocabulary_ := Some voc |},
           Ok (fit_to_384 embedding))
      | Err e => (v, Err e)
      end
  | Some voc =>
      (v, embedding <- transform voc text ;; Ok (fit_to_384 embedding))
  end.

(** [if vectorizer is None: load_model()] *)
Definition ensure_loaded `{Sklearn} (vectorizer : option TfidfVectorizer)
  : TfidfVectorizer :=
  match vectorizer with
  | None => load_model
  | Some v => v
  end.

(** [get_embedding]: the global [vectorizer] is passed in and returned
    ([None] is Python's [None]). *)
Definition get_embedding `{Sklearn} (vectorizer : option TfidfVectorizer)
    (text : string) : option TfidfVectorizer * result (list pyfloat) :=
  let v := ensure_loaded vectorizer in
  match text with
  | EmptyString => (Some v, Ok (np_zeros 384))
  | _ =>
      let (v', r) := encode_with v text in
      (Some v', try_except r (fun _ => Ok (np_zeros 384)))
  end.

(** A session: the documents are encoded one after the other, starting with
    the global as [vectorizer]. *)
Fixpoint encode_all `{Sklearn} (vectorizer : option TfidfVectorizer)
    (texts : list string) : option TfidfVectorizer * list (result (list pyfloat)) :=
  match texts with
  | [] => (vectorizer, [])
  | text :: rest =>
      let (vectorizer', r) := get_embedding vectorizer text in
      let (final, rs) := encode_all vectorizer' rest in
      (final, r :: rs)
  end.

(** The vocabulary the global holds, if any. *)
Definition fitted_vocabulary `{Sklearn} (vectorizer : option TfidfVectorizer)
  : option vocabulary :=
  match vectorizer with
  | None => None
  | Some v => vocabulary_ v
  end.

(** ** [text_processor.py]: normalization *)

(** [\w]: letters, digits and the underscore. *)
Definition is_word (c : ascii) : bool :=
  let n := nat_of_ascii c in
  ((97 <=? n)%nat && (n <=? 122)%nat) || ((65 <=? n)%nat && (n <=? 90)%nat)
  || ((48 <=? n)%nat && (n <=? 57)%nat) || (n =? 95)%nat.

Definition non_space (c : ascii) : bool := negb (is_space c).

(** [re.sub(pattern, repl, s)] for a pattern that matches no empty string:
    [m s] is the length of the match of the pattern at the start of [s], if
    there is one.  The matches are replaced from left to right, the search
    going on where the previous match ended; [skip] counts the characters of
    the current match still to be passed over. *)
Fixpoint re_sub_from (m : string -> option nat) (repl : string) (s : string)
    (skip : nat) : string :=
  match s with
  | EmptyString => EmptyString
  | String c s' =>
      match skip with
      | S k => re_sub_from m repl s' k
      | O =>
          match m s with
          | Some n => repl ++ re_sub_from m repl s' (pred n)
          | None => String c (re_sub_from m repl s' 0)
          end
      end
  end.

Definition re_sub (m : string -> option nat) (repl : string) (s : string) : string :=
  re_sub_from m repl s 0.

(** [re.findall(pattern, s)] for a pattern without groups. *)
Fixpoint re_findall_from (m : string -> option nat) (s : string) (skip : nat)
  : list string :=
  match s with
  | EmptyString => []
  | String _ s' =>
      match skip with
      | S k => re_findall_from m s' k
      | O =>
          match m s with
          | Some n => substring 0 n s :: re_findall_from m s' (pred n)
          | None => re_findall_from m s' 0
          end
      end
  end.

Definition re_findall (m : string -> option nat) (s : string) : list string :=
  re_findall_from m s 0.

(** One alternative [<literal>\S+] of the URL pattern. *)
Definition match_literal_nonspaces (literal s : string) : option nat :=
  if prefix literal s
  then match fst (span non_space (drop (String.length literal) s)) with
       | EmptyString => None
       | run => Some (String.length literal + String.length run)%nat
       end
  else None.

Fixpoint first_match (ms : list (string -> option nat)) (s : string) : option nat :=
  match ms with
  | [] => None
  | m :: rest =>
      match m s with
      | Some n => Some n
      | None => first_match rest s
      end
  end.

(** [http\S+|www\S+|https\S+] *)
Definition match_url : string -> option nat :=
  first_match [match_literal_nonspaces "http";
               match_literal_nonspaces "www";
               match_literal_nonspaces "https"].

Fixpoint contains_char (c : ascii) (s : string) : bool :=
  match s with
  | EmptyString => false
  | String c' s' => Ascii.eqb c c' || contains_char c s'
  end.

(** [\S*@\S*\s?]: a run of non-space characters with an at sign in it, and
    one whitespace character after it if there is one. *)
Definition match_email (s : string) : option nat :=
  let (run, rest) := span non_space s in
  if contains_char "@" run
  then Some (String.length run
             + match rest with
               | String c _ => if is_space c then 1 else 0
               | EmptyString => 0
               end)%nat
  else None.

(** An optional character of a class: how many characters it takes. *)
Definition match_optional (p : ascii -> bool) (s : string) : nat * string :=
  match s with
  | String c s' => if p c then (1%nat, s') else (0%nat, s)
  | EmptyString => (0%nat, s)
  end.

(** [\d{n}]: exactly [n] digits; what follows them. *)
Fixpoint match_digits (n : nat) (s : string) : option string :=
  match n with
  | O => Some s
  | S n' =>
      match s with
      | String c s' => if is_digit c then match_digits n' s' else None
      | EmptyString => None
      end
  end.

Definition is_separator (c : ascii) : bool :=
  Ascii.eqb c "-" || Ascii.eqb c "." || is_space c.

(** [\(?\d{3}\)?[-.\s]?\d{3}[-.\s]?\d{4}].  An optional character that is
    present has to be taken: what follows it in the pattern cannot match
    it. *)
Definition match_phone (s : string) : option nat :=
  let (n1, s1) := match_optional (Ascii.eqb "(") s in
  match match_digits 3 s1 with
  | None => None
  | Some s2 =>
      let (n2, s3) := match_optional (Ascii.eqb ")") s2 in
      let (n3, s4) := match_optional is_separator s3 in
      match match_digits 3 s4 with
      | None => None
      | Some s5 =>
          let (n4, s6) := match_optional is_separator s5 in
          match match_digits 4 s6 with
          | None => None
          | Some _ => Some (n1 + 3 + n2 + n3 + 3 + n4 + 4)%nat
          end
      end
  end.

(** [[^\w\s]] *)
Definition match_special (s : string) : option nat :=
  match s with
  | String c _ => if is_word c || is_space c then None else Some 1%nat
  | EmptyString => None
  end.

(** [\s+] *)
Definition match_spaces (s : string) : option nat :=
  match fst (span is_space s) with
  | EmptyString => None
  | run => Some (String.length run)
  end.

(** [\w+] *)
Definition match_word (s : string) : option nat :=
  match fst (span is_word s) with
  | EmptyString => None
  | run => Some (String.length run)
  end.

Fixpoint lstrip (s : string) : string :=
  match s with
  | String c s' => if is_space c then lstrip s' else s
  | EmptyString => EmptyString
  end.

Fixpoint rstrip (s : string) : string :=
  match s with
  | String c s' =>
      match rstrip s' with
      | EmptyString => if is_space c then EmptyString else String c EmptyString
      | r => String c r
      end
  | EmptyString => EmptyString
  end.

(** [s.strip()] *)
Definition strip (s : string) : string := rstrip (lstrip s).

(** The cleaning steps of [preprocess_text], from [lower] to [strip]. *)
Definition clean_text (text : string) : string :=
  let text := lower text in
  let text := re_sub match_url EmptyString text in
  let text := re_sub match_email EmptyString text in
  let text := re_sub match_phone EmptyString text in
  let text := re_sub match_special " " text in
  strip (re_sub match_spaces " " text).

(** NLTK: the tokenizer, which raises when its resources are missing, the
    English stop words and the WordNet lemmatizer. *)
Class Nltk : Type := {
  word_tokenize : string -> result (list string);
  STOP_WORDS : list string;
  lemmatize : string -> string
}.

(** [WORD_TOKENIZER.tokenize], the fallback [RegexpTokenizer(r'\w+')]. *)
Definition regexp_tokenize (text : string) : list string :=
  re_findall match_word text.

(** [token in STOP_WORDS] *)
Definition in_stop_words `{Nltk} (token : string) : bool :=
  existsb (String.eqb token) STOP_WORDS.

(** The tokens of the cleaned text, with the fallback of the [except]. *)
Definition tokenize `{Nltk} (text : string) : list string :=
  match word_tokenize text with
  | Ok tokens => tokens
  | Err _ => regexp_tokenize text
  end.

(** The condition of the list comprehension. *)
Definition keep_token `{Nltk} (token : string) : bool :=
  negb (in_stop_words token) && (1 <? String.length token)%nat.

Definition preprocess_text `{Nltk} (text : string) : string :=
  match text with
  | EmptyString => EmptyString
  | _ =>
      let text := clean_text text in
      let tokens := tokenize text in
      let filtered_tokens := map lemmatize (filter keep_token tokens) in
      String.concat " " filtered_tokens
  end.

(** ** Sample implementations of the library interfaces

    They serve the closed examples; no theorem depends on them. *)

(** A square root by fixed-point arithmetic, below the exact root by less
    than [2^-52]. *)
Definition sample_sqrt (q : Q) : Q :=
  Qmake (Z.sqrt (Qnum q * 2 ^ 104 / Zpos (Qden q))) (2 ^ 52).

Definition sample_norm (v : list pyfloat) : pyfloat :=
  match fold_left (fun acc x => pf_add acc (pf_mul x x)) v (PFin 0) with
  | PFin q => PFin (sample_sqrt q)
  | PInf _ => PInf false
  | PNaN => PNaN
  end.

Definition sample_numpy : Numpy := {| np_linalg_norm := sample_norm |}.

Fixpoint insert_term (t : string) (l : list (string * nat)) : list (string * nat) :=
  match l with
  | [] => [(t, 1%nat)]
  | (u, n) :: l' =>
      if String.eqb t u then (u, S n) :: l'
      else if String.ltb t u then (t, 1%nat) :: l
           else (u, n) :: insert_term t l'
  end.

(** The terms of a token list in alphabetical order, with their counts. *)
Definition term_counts (tokens : list string) : list (string * nat) :=
  fold_right insert_term [] tokens.

(** The tokens of scikit-learn's default analyzer: the runs of two or more
    word characters of the lower-cased text. *)
Definition sample_analyze (text : string) : list string :=
  filter (fun t => (1 <? String.length t)%nat) (regexp_tokenize (lower text)).

Definition count_of (t : string) (counts : list (string * nat)) : nat :=
  match find (fun p => String.eqb t (fst p)) counts with
  | Some p => snd p
  | None => O
  end.

(** The row of a text against a vocabulary: term counts, scaled to unit
    norm when the norm is not zero. *)
Definition sample_row (voc : list string) (text : string) : list pyfloat :=
  let counts := term_counts (sample_analyze text) in
  let row := map (fun t => PFin (count_Q (count_of t counts))) voc in
  let n := sample_norm row in
  if pf_eqb n (PFin 0) then row else map (fun x => np_div x n) row.

(** A vectorizer that learns the first 384 terms of the text in
    alphabetical order and raises on a text without tokens. *)
Definition sample_sklearn : Sklearn := {|
  vocabulary := list string;
  fit_transform := fun text =>
    match sample_analyze text with
    | [] => Err ValueError
    | tokens =>
        let voc := firstn 384 (map fst (term_counts tokens)) in
        Ok (voc, sample_row voc text)
    end;
  transform := fun voc text => Ok (sample_row voc text)
|}.

(** NLTK's English stop words. *)
Definition english_stop_words : list string :=
  ["i"; "me"; "my"; "myself"; "we"; "our"; "ours"; "ourselves"; "you";
   "you're"; "you've"; "you'll"; "you'd"; "your"; "yours"; "yourself";
   "yourselves"; "he"; "him"; "his"; "himself"; "she"; "she's"; "her";
   "hers"; "herself"; "it"; "it's"; "its"; "itself"; "they"; "them";
   "their"; "theirs"; "themselves"; "what"; "which"; "who"; "whom"; "this";
   "that"; "that'll"; "these"; "those"; "am"; "is"; "are"; "was"; "were";
   "be"; "been"; "being"; "have"; "has"; "had"; "having"; "do"; "does";
   "did"; "doing"; "a"; "an"; "the"; "and"; "but"; "if"; "or"; "because";
   "as"; "until"; "while"; "of"; "at"; "by"; "for"; "with"; "about";
   "against"; "between"; "into"; "through"; "during"; "before"; "after";
   "above"; "below"; "to"; "from"; "up"; "down"; "in"; "out"; "on"; "off";
   "over"; "under"; "again"; "further"; "then"; "once"; "here"; "there";
   "when"; "where"; "why"; "how"; "all"; "any"; "both"; "each"; "few";
   "more"; "most"; "other"; "some"; "such"; "no"; "nor"; "not"; "only";
   "own"; "same"; "so"; "than"; "too"; "very"; "s"; "t"; "can"; "will";
   "just"; "don"; "don't"; "should"; "should've"; "now"; "d"; "ll"; "m";
   "o"; "re"; "ve"; "y"; "ain"; "aren"; "aren't"; "couldn"; "couldn't";
   "didn"; "didn't"; "doesn"; "doesn't"; "hadn"; "hadn't"; "hasn";
   "hasn't"; "haven"; "haven't"; "isn"; "isn't"; "ma"; "mightn";
   "mightn't"; "mustn"; "mustn't"; "needn"; "needn't"; "shan"; "shan't";
   "shouldn"; "shouldn't"; "wasn"; "wasn't"; "weren"; "weren't"; "won";
   "won't"; "wouldn"; "wouldn't"].

(** An installation without the tokenizer's resources, so that the fallback
    tokenizer of the source is the one in use, and with a lemmatizer that
    knows no word: like WordNet's for a word it does not know, it returns
    every token unchanged. *)
Definition sample_nltk : Nltk := {|
  word_tokenize := fun _ => Err LookupError;
  STOP_WORDS := english_stop_words;
  lemmatize := fun token => token
|}.

(** A job description and three resumes, with two-dimensional embeddings. *)
Definition sample_job : JobDescription := {|
  jd_text := "Python developer, 5+ years, SQL, Bachelor degree";
  jd_processed_text := "python developer 5 year sql bachelor degree";
  jd_entities := {| skills := ["python"; "sql"];
                    education := ["bachelor"];
                    experience := ["5 years of experience"] |};
  jd_embedding := [PFin 1; PFin 0]
|}.

Definition sample_resume_a : Resume := {|
  filename := "a.pdf";
  text := "Python programming, 3 years";
  processed_text := "python programming 3 year";
  entities := {| skills := ["Python programming"];
                 education := [];
                 experience := ["3 years of experience"] |};
  embedding := [PFin 1; PFin 0]
|}.

Definition sample_resume_b : Resume := {|
  filename := "b.pdf";
  text := "Java developer";
  processed_text := "java developer";
  entities := {| skills := ["java"]; education := []; experience := [] |};
  embedding := [PFin 0; PFin 0]
|}.

Definition sample_resume_c : Resume := {|
  filename := "c.pdf";
  text := "Java developer, again";
  processed_text := "java developer";
  entities := {| skills := ["java"]; education := []; experience := [] |};
  embedding := [PFin 0; PFin 0]
|}.

(** ** Specifications in the words of the claims *)

(** Some resume phrase matches the job phrase in one direction or the
    other, case-insensitively. *)
Definition has_match (phrase : string) (others : list string) : bool :=
  existsb (fun other => either_in (lower phrase) (lower other)) others.

(** The fraction of the job skills that have a match among the resume
    skills; zero when one of the lists is empty. *)
Definition spec_skills_score (job_skills resume_skills : list string) : Q :=
  match job_skills, resume_skills with
  | [], _ | _, [] => 0
  | _, _ =>
      count_Q (List.length (filter (fun s => has_match s resume_skills) job_skills))
      / inject_Z (len job_skills)
  end.

(** A degree-level keyword occurs in both phrases. *)
Definition shares_keyword (a b : string) : bool :=
  existsb (fun keyword => str_in keyword a && str_in keyword b) education_keywords.

Definition Qsum (l : list Q) : Q := fold_right Qplus 0 l.

(** The points of one job-education phrase as the claim words them: 1 for a
    substring match with some resume phrase, else one half for a keyword
    shared with some resume phrase, else nothing. *)
Definition claimed_education_points (job_phrase : string)
    (resume_education : list string) : Q :=
  if existsb (either_in (lower job_phrase)) (map lower resume_education) then 1
  else if existsb (shares_keyword (lower job_phrase)) (map lower resume_education)
       then 1 # 2
       else 0.

Definition claimed_education_score (job_education resume_education : list string) : Q :=
  match job_education, resume_education with
  | [], _ => 1
  | _, [] => 0
  | _, _ =>
      Qmin 1 (Qsum (map (fun j => claimed_education_points j resume_education)
                        job_education)
              / inject_Z (len job_education))
  end.

(** The elements of a list that come before the first one satisfying [p]. *)
Fixpoint before_first (p : string -> bool) (l : list string) : list string :=
  match l with
  | [] => []
  | x :: l' => if p x then [] else x :: before_first p l'
  end.

(** The points of one job-education phrase as the code awards them: one
    half for every resume phrase that shares a keyword with it and comes
    before the first substring match, and 1 for that match if there is
    one. *)
Definition spec_education_points (job_phrase : string)
    (resume_education : list string) : Q :=
  let j := lower job_phrase in
  let rs := map lower resume_education in
  (1 # 2) * count_Q (List.length (filter (shares_keyword j) (before_first (either_in j) rs)))
  + (if existsb (either_in j) rs then 1 else 0).

Definition spec_education_score (job_education resume_education : list string) : Q :=
  match job_education, resume_education with
  | [], _ => 1
  | _, [] => 0
  | _, _ =>
      Qmin 1 (Qsum (map (fun j => spec_education_points j resume_education)
                        job_education)
              / inject_Z (len job_education))
  end.

(** [m] is the maximum of [l]. *)
Definition is_max (m : Z) (l : list Z) : Prop :=
  In m l /\ Forall (fun x => (x <= m)%Z) l.

(** The years that the years pattern finds in the phrases of a list. *)
Definition years_found (phrases : list string) : list Z :=
  collect_years (map lower phrases).

(** Two vectors that [calculate_similarity] can compare: one of them is
    entirely zero, or they have one shape. *)
Definition comparable (a b : list pyfloat) : Prop :=
  np_all_zero a || np_all_zero b = true \/ List.length a = List.length b.

(** Every resume of the batch can be compared with the job description, as
    is the case when all the embeddings come from [get_embedding]. *)
Definition well_shaped (job_description : JobDescription)
    (parsed_resumes : list Resume) : Prop :=
  Forall (fun resume => comparable (jd_embedding job_description) (embedding resume))
         parsed_resumes.

(** The entry [rank_resumes] computes for each resume, in the order of the
    resumes. *)
Definition scored_in_order `{Numpy} (job_description : JobDescription)
    (parsed_resumes : list Resume) (entries : list RankedResume) : Prop :=
  Forall2 (fun resume entry => rank_one job_description resume = Ok entry)
          parsed_resumes entries.

(** The first entry does not rank below the second. *)
Definition ranks_before (a b : RankedResume) : Prop :=
  pf_geb (match_score a) (match_score b) = true.


(** The vocabulary that encoding [text] fits in an unfitted vectorizer:
    none for the empty text, which is answered before the [try] block, and
    none when [fit_transform] raises. *)
Definition try_fit `{Sklearn} (text : string) : option vocabulary :=
  match text with
  | EmptyString => None
  | _ =>
      match fit_transform text with
      | Ok (voc, _) => Some voc
      | Err _ => None
      end
  end.

(** The vocabulary of the first text of a session that fits one. *)
Fixpoint first_fit `{Sklearn} (texts : list string) : option vocabulary :=
  match texts with
  | [] => None
  | text :: rest =>
      match try_fit text with
      | Some voc => Some voc
      | None => first_fit rest
      end
  end.

Definition is_fitted `{Sklearn} (vectorizer : option TfidfVectorizer) : bool :=
  match fitted_vocabulary vectorizer with
  | Some _ => true
  | None => false
  end.

(** Encoding [text] fits the vocabulary: there is none before the call and
    one after it. *)
Definition fits `{Sklearn} (vectorizer : option TfidfVectorizer) (text : string) : bool :=
  negb (is_fitted vectorizer) && is_fitted (fst (get_embedding vectorizer text)).

(** The number of calls of a session that fit the vocabulary. *)
Fixpoint fit_count `{Sklearn} (vectorizer : option TfidfVectorizer)
    (texts : list string) : nat :=
  match texts with
  | [] => O
  | text :: rest =>
      ((if fits vectorizer text then 1 else 0)
       + fit_count (fst (get_embedding vectorizer text)) rest)%nat
  end.

(** What [get_embedding] returns for a text once the vocabulary is fitted:
    the row of the text against that vocabulary, sized to 384, or the zero
    vector for the empty text and when [transform] raises. *)
Definition encoded_against `{Sklearn} (voc : vocabulary) (text : string)
  : result (list pyfloat) :=
  match text with
  | EmptyString => Ok (np_zeros 384)
  | _ =>
      match transform voc text with
      | Ok embedding => Ok (fit_to_384 embedding)
      | Err _ => Ok (np_zeros 384)
      end
  end.

(** [re.sub(r'\s+', ' ', s)] read character by character: a whitespace
    character is replaced by a space when the character before it was
    none, and dropped otherwise. *)
Fixpoint collapse_from (s : string) (after_space : bool) : string :=
  match s with
  | EmptyString => EmptyString
  | String c s' =>
      if is_space c
      then if after_space then collapse_from s' true
           else String " " (collapse_from s' true)
      else String c (collapse_from s' false)
  end.

(** Every character is a word character or whitespace. *)
Fixpoint words_and_spaces (s : string) : bool :=
  match s with
  | EmptyString => true
  | String c s' => (is_word c || is_space c) && words_and_spaces s'
  end.

(** Word characters and spaces only, and no space next to another;
    [after_space] tells that the character before [s] is a space. *)
Fixpoint single_spaced_from (s : string) (after_space : bool) : bool :=
  match s with
  | EmptyString => true
  | String c s' =>
      if is_word c then single_spaced_from s' false
      else Ascii.eqb c " " && negb after_space && single_spaced_from s' true
  end.

(** Words separated by single spaces, up to the end of the text;
    [after_word] tells that the character before [s] is a word
    character. *)
Fixpoint spaced_from (s : string) (after_word : bool) : bool :=
  match s with
  | EmptyString => after_word
  | String c s' =>
      if is_word c then spaced_from s' true
      else Ascii.eqb c " " && after_word && spaced_from s' false
  end.

(** The shape of a cleaned text: empty, or words separated by single
    spaces. *)
Definition spaced (s : string) : bool :=
  match s with
  | EmptyString => true
  | _ => spaced_from s false
  end.

(** The text of the counterexample to idempotence, and its tokens. *)
Definition spaced_digits : string := "123, 111, 222, 3333, 456, 7890".

Definition digit_tokens : list string := ["123"; "111"; "222"; "3333"; "456"; "7890"].

(** The points of a lower-cased job phrase against lower-cased resume
    phrases. *)
Definition points_lowered (j : string) (rs : list string) : Q :=
  (1 # 2) * count_Q (List.length (filter (shares_keyword j) (before_first (either_in j) rs)))
  + (if existsb (either_in j) rs then 1 else 0).

(** The outcome is a finite score between 0 and 1, and no exception. *)
Definition unit_score (r : result pyfloat) : Prop :=
  exists q : Q, r = Ok (PFin q) /\ 0 <= q <= 1.

(** Ascending order of the keys. *)
Definition ascending_by {A : Type} (key : A -> pyfloat) (a b : A) : Prop :=
  pf_geb (key b) (key a) = true.

(** The key of [x] is a number. *)
Definition finite_key {A : Type} (key : A -> pyfloat) (x : A) : Prop :=
  exists q : Q, key x = PFin q.

(** ** Further specifications *)

(** [comparable], as a test. *)
Definition comparable_b (a b : list pyfloat) : bool :=
  np_all_zero a || np_all_zero b || (List.length a =? List.length b)%nat.

(** The fraction of the job phrases that have a match among the resume
    phrases. *)
Definition spec_matched_fraction (job_phrases resume_phrases : list string) : Q :=
  count_Q (List.length (filter (fun p => has_match p resume_phrases) job_phrases))
  / inject_Z (len job_phrases).

(** The resume an entry of the ranking was computed from, read off the
    fields copied into the entry. *)
Definition ranked_source (entry : RankedResume) : Resume := {|
  filename := ranked_filename entry;
  text := ranked_text entry;
  processed_text := ranked_processed_text entry;
  entities := ranked_entities entry;
  embedding := ranked_embedding entry
|}.

(** Every character of [s] satisfies [p]. *)
Fixpoint all_chars (p : ascii -> bool) (s : string) : bool :=
  match s with
  | EmptyString => true
  | String c s' => p c && all_chars p s'
  end.

Definition not_upper (c : ascii) : bool := negb (is_upper c).

(** [l[i:j]], the slice of a list between two indices; a negative index
    counts from the end, and indices beyond the ends are clipped. *)
Definition py_slice {A : Type} (l : list A) (i j : Z) : list A :=
  let n := len l in
  let clip := fun k : Z => if (k <? 0)%Z then Z.max 0 (k + n) else Z.min k n in
  firstn (Z.to_nat (clip j - clip i)) (skipn (Z.to_nat (clip i)) l).

(** [range(n)] *)
Definition py_range (n : Z) : list Z := map Z.of_nat (seq 0 (Z.to_nat n)).

(** [extract_keywords(text, n)]: the n-grams of the tokens.  The tokenizer
    is called without a fallback. *)
Definition extract_keywords `{Nltk} (text : string) (n : Z) : result (list string) :=
  match text with
  | EmptyString => Ok []
  | _ =>
      tokens <- word_tokenize text ;;
      Ok (map (fun i => String.concat " " (py_slice tokens i (i + n)))
              (py_range (len tokens - n + 1)))
  end.

(** An installation whose tokenizer is available and splits a text into
    its runs of word characters. *)
Definition sample_nltk_with_tokenizer : Nltk := {|
  word_tokenize := fun text => Ok (regexp_tokenize text);
  STOP_WORDS := english_stop_words;
  lemmatize := fun token => token
|}.

(** The [n] tokens of a list from position [i] on. *)
Definition window {A : Type} (l : list A) (i n : nat) : list A :=
  firstn n (skipn i l).

(** ** [resume_parser.py] *)

(** The part of a path after its last slash. *)
Fixpoint basename (path : string) : string :=
  match path with
  | EmptyString => EmptyString
  | String c rest =>
      if contains_char "/" rest then basename rest
      else if Ascii.eqb c "/" then rest else path
  end.

(** A name split at its last dot: what comes before the dot, and the rest
    from the dot on. *)
Fixpoint split_last_dot (name : string) : option (string * string) :=
  match name with
  | EmptyString => None
  | String c rest =>
      match split_last_dot rest with
      | Some (stem, ext) => Some (String c stem, ext)
      | None => if Ascii.eqb c "." then Some (EmptyString, name) else None
      end
  end.

(** [os.path.splitext(path)[1]]: the extension, from the last dot of the
    base name on; none when the base name has no dot or only dots before
    the last one. *)
Definition splitext_ext (path : string) : string :=
  match split_last_dot (basename path) with
  | Some (stem, ext) => if all_chars (Ascii.eqb ".") stem then EmptyString else ext
  | None => EmptyString
  end.

(** PyPDF2 and python-docx: the texts of the pages of the PDF file at a
    path, and the texts of the paragraphs of the DOCX file at a path; both
    raise on a file they cannot read. *)
Class DocumentReaders : Type := {
  pdf_page_texts : string -> result (list string);
  docx_paragraph_texts : string -> result (list string)
}.

Definition no_text_pdf : string := "No text could be extracted from this PDF file.".
Definition no_text_docx : string := "No text could be extracted from this DOCX file.".

Definition newline : string := String (ascii_of_nat 10) EmptyString.

(** [not text.strip()] *)
Definition is_blank (text : string) : bool :=
  match strip text with
  | EmptyString => true
  | _ => false
  end.

Definition parse_pdf `{DocumentReaders} (file_path : string) : result string :=
  pages <- pdf_page_texts file_path ;;
  let text := String.concat EmptyString pages in
  if is_blank text then Ok no_text_pdf else Ok text.

Definition parse_docx `{DocumentReaders} (file_path : string) : result string :=
  paragraphs <- docx_paragraph_texts file_path ;;
  let text := String.concat newline paragraphs in
  if is_blank text then Ok no_text_docx else Ok text.

(** The [except] clauses of the parsers log the exception and raise it
    again. *)
Definition parse_resume `{DocumentReaders} (file_path : string) : result string :=
  let file_extension := lower (splitext_ext file_path) in
  if String.eqb file_extension ".pdf" then parse_pdf file_path
  else if String.eqb file_extension ".docx" then parse_docx file_path
  else Err ValueError.

(** ** [entity_extractor.py]: the entry point *)

(** The three extractors, which rest on the spaCy pipeline. *)
Class EntityExtractors : Type := {
  extract_skills : string -> result (list string);
  extract_education : string -> result (list string);
  extract_experience : string -> result (list string)
}.

Definition extract_entities `{EntityExtractors} (text : string) : result Entities :=
  match text with
  | EmptyString => Ok {| skills := []; education := []; experience := [] |}
  | _ =>
      skills <- extract_skills text ;;
      education <- extract_education text ;;
      experience <- extract_experience text ;;
      Ok {| skills := skills; education := education; experience := experience |}
  end.

(** ** [app.py]: from the inputs to the ranking *)

(** A file of the upload widget. *)
Record UploadedFile : Type := {
  name : string;
  getvalue : string
}.

(** The path of the temporary file that the content of an upload is
    written to. *)
Class Tempfiles : Type := {
  temp_file_path : UploadedFile -> string
}.

(** The messages shown with [st.error]. *)
Inductive notice : Type :=
| PleaseEnterJobDescription
| PleaseUploadResume
| ErrorProcessing (file_name : string) (e : exn).

(** [process_job_description]: the new value of the global vectorizer, the
    messages shown, and the dictionary or [None]; an exception of the
    entity extraction is not caught. *)
Definition process_job_description `{Nltk} `{Sklearn} `{EntityExtractors}
    (vectorizer : option TfidfVectorizer) (job_description : string)
  : option TfidfVectorizer * list notice * result (option JobDescription) :=
  if is_blank job_description
  then (vectorizer, [PleaseEnterJobDescription], Ok None)
  else
    let processed_jd := preprocess_text job_description in
    match extract_entities processed_jd with
    | Err e => (vectorizer, [], Err e)
    | Ok entities_jd =>
        let (vectorizer', r) := get_embedding vectorizer processed_jd in
        (vectorizer', [],
         embedding_jd <- r ;;
         Ok (Some {| jd_text := job_description;
                     jd_processed_text := processed_jd;
                     jd_entities := entities_jd;
                     jd_embedding := embedding_jd |}))
    end.

(** The [try] block of [process_resumes] for one file. *)
Definition process_upload `{Nltk} `{Sklearn} `{EntityExtractors} `{DocumentReaders}
    `{Tempfiles} (vectorizer : option TfidfVectorizer) (uploaded_file : UploadedFile)
  : option TfidfVectorizer * result Resume :=
  match parse_resume (temp_file_path uploaded_file) with
  | Err e => (vectorizer, Err e)
  | Ok resume_text =>
      let processed := preprocess_text resume_text in
      match extract_entities processed with
      | Err e => (vectorizer, Err e)
      | Ok ents =>
          let (vectorizer', r) := get_embedding vectorizer processed in
          (vectorizer',
           emb <- r ;;
           Ok {| filename := name uploaded_file;
                 text := resume_text;
                 processed_text := processed;
                 entities := ents;
                 embedding := emb |})
      end
  end.

(** The loop of [process_resumes]: an exception of the [try] block is
    shown as a message and the loop goes on with the next file. *)
Fixpoint process_uploads `{Nltk} `{Sklearn} `{EntityExtractors} `{DocumentReaders}
    `{Tempfiles} (vectorizer : option TfidfVectorizer)
    (uploaded_files : list UploadedFile)
  : option TfidfVectorizer * list notice * list Resume :=
  match uploaded_files with
  | [] => (vectorizer, [], [])
  | uploaded_file :: rest =>
      let (vectorizer', r) := process_upload vectorizer uploaded_file in
      let '(final, notices, parsed_resumes) := process_uploads vectorizer' rest in
      match r with
      | Ok resume => (final, notices, resume :: parsed_resumes)
      | Err e => (final, ErrorProcessing (name uploaded_file) e :: notices, parsed_resumes)
      end
  end.

Definition process_resumes `{Nltk} `{Sklearn} `{EntityExtractors} `{DocumentReaders}
    `{Tempfiles} (vectorizer : option TfidfVectorizer)
    (uploaded_files : list UploadedFile)
  : option TfidfVectorizer * list notice * list Resume :=
  match uploaded_files with
  | [] => (vectorizer, [PleaseUploadResume], [])
  | _ => process_uploads vectorizer uploaded_files
  end.

(** What the button "Process and Rank Resumes" does in [main]: the ranking
    stored in the session, or nothing when the job description is blank or
    no resume could be processed. *)
Definition process_and_rank `{Numpy} `{Nltk} `{Sklearn} `{EntityExtractors}
    `{DocumentReaders} `{Tempfiles} (vectorizer : option TfidfVectorizer)
    (job_description : string) (uploaded_files : list UploadedFile)
  : option TfidfVectorizer * list notice * result (option (list RankedResume)) :=
  let '(v1, notices1, r) := process_job_description vectorizer job_description in
  match r with
  | Err e => (v1, notices1, Err e)
  | Ok None => (v1, notices1, Ok None)
  | Ok (Some processed_jd) =>
      let '(v2, notices2, parsed_resumes) := process_resumes v1 uploaded_files in
      match parsed_resumes with
      | [] => (v2, (notices1 ++ notices2)%list, Ok None)
      | _ =>
          (v2, (notices1 ++ notices2)%list,
           ranked_resumes <- rank_resumes (Some processed_jd) parsed_resumes ;;
           Ok (Some ranked_resumes))
      end
  end.

(** The text of an upload once parsed and normalized, if parsing and
    entity extraction both succeed: the upload is then processed. *)
Definition processed_upload `{Nltk} `{EntityExtractors} `{DocumentReaders}
    `{Tempfiles} (uploaded_file : UploadedFile) : option string :=
  match parse_resume (temp_file_path uploaded_file) with
  | Err _ => None
  | Ok resume_text =>
      match extract_entities (preprocess_text resume_text) with
      | Err _ => None
      | Ok _ => Some (preprocess_text resume_text)
      end
  end.

Definition is_processed `{Nltk} `{EntityExtractors} `{DocumentReaders}
    `{Tempfiles} (uploaded_file : UploadedFile) : bool :=
  match processed_upload uploaded_file with
  | Some _ => true
  | None => false
  end.

(** The file names of the uploads that a list of messages reports as
    failed. *)
Fixpoint error_names (notices : list notice) : list string :=
  match notices with
  | [] => []
  | ErrorProcessing file_name _ :: rest => file_name :: error_names rest
  | _ :: rest => error_names rest
  end.

(** The normalized texts of the uploads that are processed, in order. *)
Fixpoint processed_texts `{Nltk} `{EntityExtractors} `{DocumentReaders} `{Tempfiles}
    (uploaded_files : list UploadedFile) : list string :=
  match uploaded_files with
  | [] => []
  | uploaded_file :: rest =>
      match processed_upload uploaded_file with
      | Some processed => processed :: processed_texts rest
      | None => processed_texts rest
      end
  end.

(** Sample readers, extractors and temporary files: two files can be read,
    the skills are the tokens of a small lexicon, and the experience
    phrases are those of the years pattern. *)
Definition sample_readers : DocumentReaders := {|
  pdf_page_texts := fun path =>
    if String.eqb path "/tmp/a.pdf"
    then Ok ["Senior Python developer, "; "10 years of SQL."]
    else Err LookupError;
  docx_paragraph_texts := fun path =>
    if String.eqb path "/tmp/b.DOCX" then Ok ["Java developer"; "since 2012"]
    else Err LookupError
|}.

Definition sample_extractors : EntityExtractors := {|
  extract_skills := fun text =>
    Ok (filter (fun t => existsb (String.eqb t) ["python"; "sql"; "java"])
               (regexp_tokenize text));
  extract_education := fun _ => Ok [];
  extract_experience := fun text =>
    Ok (map (fun m => fst m ++ " " ++ snd m ++ " of experience") (findall_years text))
|}.

Definition sample_tempfiles : Tempfiles := {|
  temp_file_path := fun uploaded_file => "/tmp/" ++ name uploaded_file
|}.

Definition sample_uploads : list UploadedFile :=
  [ {| name := "a.pdf"; getvalue := "%PDF" |};
    {| name := "notes.txt"; getvalue := "plain" |};
    {| name := "b.DOCX"; getvalue := "PK" |} ].

(** ** [visualization.py]: what the radar chart plots *)

(** The [values] of [create_match_radar_chart]: the four scores of an
    entry, plotted on a radial axis of range 0 to 100. *)
Definition radar_values (resume_data : RankedResume) : list pyfloat :=
  [match_score resume_data; skills_score resume_data;
   education_score resume_data; experience_score resume_data].

(** The outcomes of two calls agree: the same exception, or equal values. *)
Definition same_outcome (r1 r2 : result pyfloat) : Prop :=
  match r1, r2 with
  | Ok x, Ok y => pf_eq x y
  | Err e1, Err e2 => e1 = e2
  | _, _ => False
  end.

(** ** [embeddings.py]: the embeddings of sections *)

(** What [re.findall] returns for the pattern of a section, which has one
    group of its own: the texts of that group, or, when the section name
    brings further groups, one tuple of texts for each match. *)
Inductive findall_matches : Type :=
| Texts (matches : list string)
| Tuples (matches : list (list string)).

(** [re.findall(r'(?i)' + section + r'[:\s]+(.*?)(?=\n\n|\Z)', text,
    re.DOTALL)]; it raises when the pattern is no regular expression. *)
Class SectionPattern : Type := {
  findall_section : string -> string -> result findall_matches
}.

(** [if matches:] fails for the empty list. *)
Definition no_match (matches : findall_matches) : bool :=
  match matches with
  | Texts [] | Tuples [] => true
  | _ => false
  end.

(** [' '.join(matches)]: a tuple is no string. *)
Definition join_matches (matches : findall_matches) : result string :=
  match matches with
  | Texts texts => Ok (String.concat " " texts)
  | Tuples [] => Ok EmptyString
  | Tuples (_ :: _) => Err TypeError
  end.

(** A dictionary with string keys, in insertion order. *)
Definition dict (V : Type) : Type := list (string * V).

(** [d[k] = v] *)
Fixpoint dict_set {V : Type} (d : dict V) (k : string) (v : V) : dict V :=
  match d with
  | [] => [(k, v)]
  | (k', v') :: d' =>
      if String.eqb k k' then (k, v) :: d' else (k', v') :: dict_set d' k v
  end.

(** [d.get(k)] *)
Fixpoint dict_get {V : Type} (d : dict V) (k : string) : option V :=
  match d with
  | [] => None
  | (k', v') :: d' => if String.eqb k k' then Some v' else dict_get d' k
  end.

(** The loop of [get_section_embeddings]. *)
Fixpoint section_loop `{Sklearn} `{SectionPattern}
    (vectorizer : option TfidfVectorizer) (text : string) (sections : list string)
    (section_embeddings : dict (list pyfloat))
  : option TfidfVectorizer * result (dict (list pyfloat)) :=
  match sections with
  | [] => (vectorizer, Ok section_embeddings)
  | section :: rest =>
      match findall_section section text with
      | Err e => (vectorizer, Err e)
      | Ok matches =>
          if no_match matches
          then section_loop vectorizer text rest
                 (dict_set section_embeddings section (np_zeros 384))
          else
            match join_matches matches with
            | Err e => (vectorizer, Err e)
            | Ok section_text =>
                let (vectorizer', r) := get_embedding vectorizer section_text in
                match r with
                | Ok embedding =>
                    section_loop vectorizer' text rest
                      (dict_set section_embeddings section embedding)
                | Err e => (vectorizer', Err e)
                end
            end
      end
  end.

Definition get_section_embeddings `{Sklearn} `{SectionPattern}
    (vectorizer : option TfidfVectorizer) (text : string) (sections : list string)
  : option TfidfVectorizer * result (dict (list pyfloat)) :=
  section_loop vectorizer text sections [].

(** A section for which the pattern finds nothing. *)
Definition not_found `{SectionPattern} (section text : string) : Prop :=
  exists matches : findall_matches,
    findall_section section text = Ok matches /\ no_match matches = true.

(** A section whose pattern is a regular expression with no group besides
    the one of the code. *)
Definition searchable `{SectionPattern} (section text : string) : Prop :=
  exists matches : findall_matches,
    findall_section section text = Ok matches
    /\ (forall tuples, matches = Tuples tuples -> tuples = []).

(** ** [entity_extractor.py]: the three extractors *)

(** What the extractors use of a spaCy document: the tokens, the named
    entities and the texts of the sentences.  Asking a pipeline that sets
    no sentence boundaries for the sentences raises. *)
Record Token : Type := {
  token_text : string;
  is_alpha : bool
}.

Record Span : Type := {
  label_ : string;
  span_text : string
}.

Record Doc : Type := {
  doc_tokens : list Token;
  ents : list Span;
  sents : result (list string)
}.

(** [nlp(text)], which raises on a text longer than the pipeline accepts. *)
Class Spacy : Type := {
  nlp : string -> result Doc
}.

(** [list(s)] for a set [s] of strings, the set being given by its elements
    in the order they were added: the elements, in an order that is not
    specified. *)
Class SetOrder : Type := {
  list_of_set : list string -> list string;
  list_of_set_perm : forall l : list string, Permutation (list_of_set l) l
}.

(** [s.add(x)] *)
Definition set_add (s : list string) (x : string) : list string :=
  if existsb (String.eqb x) s then s else (s ++ [x])%list.

Definition EDUCATION_TERMS : list string :=
  ["bachelor"; "master"; "phd"; "doctorate"; "degree"; "mba"; "bsc"; "msc";
   "b.a"; "m.a"; "b.s"; "m.s"; "bachelor of"; "master of"; "diploma";
   "certification"; "certificate"; "university"; "college"; "institute";
   "school"; "academy"; "education"].

Definition COMMON_SKILLS : list string :=
  ["python"; "java"; "javascript"; "c++"; "c#"; "ruby"; "php"; "swift";
   "kotlin"; "typescript"; "golang"; "scala";
   "html"; "css"; "react"; "angular"; "vue"; "node.js"; "express"; "django";
   "flask"; "spring"; "asp.net"; "laravel";
   "machine learning"; "deep learning"; "nlp"; "data analysis"; "tensorflow";
   "pytorch"; "scikit-learn"; "pandas"; "numpy"; "r"; "sql"; "nosql";
   "statistics"; "data visualization"; "tableau"; "power bi"; "big data";
   "hadoop";
   "aws"; "azure"; "gcp"; "docker"; "kubernetes"; "jenkins"; "git"; "github";
   "gitlab"; "devops"; "ci/cd";
   "project management"; "agile"; "scrum"; "kanban"; "leadership";
   "team management"; "product management"; "business analysis"; "marketing";
   "sales"; "customer service"; "communication";
   "microsoft office"; "excel"; "word"; "powerpoint"; "g suite"; "google docs";
   "rest api"; "graphql"; "microservices"; "blockchain"; "cybersecurity";
   "networking"; "linux"; "unix";
   "accounting"; "finance"; "hr"; "human resources"; "healthcare"; "marketing";
   "sales"; "customer service"; "supply chain"; "logistics"; "seo";
   "content marketing"; "social media"].

Definition job_titles : list string :=
  ["manager"; "developer"; "engineer"; "analyst"; "director"; "coordinator";
   "specialist"; "assistant"; "associate"; "consultant"; "supervisor";
   "administrator"; "architect"; "designer"; "technician"; "officer";
   "representative"; "lead"; "head"].

Definition code_words : list string :=
  ["programming"; "coding"; "development"; "developer"; "engineer"].

Definition degree_names : list string :=
  ["bachelor"; "master"; "phd"; "doctorate"; "mba"; "bsc"; "msc"; "b.a"; "m.a";
   "b.s"; "m.s"; "diploma"; "certificate"].

Definition field_names : list string :=
  ["computer science"; "engineering"; "business"; "management"; "marketing";
   "finance"; "economics"; "accounting"; "psychology"; "biology"; "chemistry";
   "physics"; "mathematics"; "communications"; "english"; "history";
   "philosophy"; "political science"; "sociology"].

Definition is_word_opt (c : option ascii) : bool :=
  match c with
  | Some c => is_word c
  | None => false
  end.

Definition head_char (s : string) : option ascii :=
  match s with
  | String c _ => Some c
  | EmptyString => None
  end.

(** The last character of [s], or [prev] when [s] is empty. *)
Fixpoint last_char (prev : option ascii) (s : string) : option ascii :=
  match s with
  | EmptyString => prev
  | String c s' => last_char (Some c) s'
  end.

(** [\b]: a word character on one side and none on the other. *)
Definition word_boundary (before after : option ascii) : bool :=
  xorb (is_word_opt before) (is_word_opt after).

(** The text a pattern of lower-case literals is compared with: with
    [re.IGNORECASE], the text in lower case. *)
Definition fold_case (ignorecase : bool) (s : string) : string :=
  if ignorecase then lower s else s.

(** [\b literal \b] at the start of [s], where [prev] is the character
    before [s]. *)
Definition match_bounded (ignorecase : bool) (literal : string) (prev : option ascii)
    (s : string) : bool :=
  prefix literal (fold_case ignorecase s)
  && word_boundary prev (head_char s)
  && word_boundary (last_char prev literal)
                   (head_char (drop (String.length literal) s)).

(** The first of the alternatives that matches between word boundaries at
    the start of [s], as the text it matches. *)
Fixpoint match_bounded_alternatives (ignorecase : bool) (alts : list string)
    (prev : option ascii) (s : string) : option string :=
  match alts with
  | [] => None
  | alt :: rest =>
      if match_bounded ignorecase alt prev s
      then Some (substring 0 (String.length alt) s)
      else match_bounded_alternatives ignorecase rest prev s
  end.

(** [re.search(r'\b(alt1|alt2|...)\b', s)] from the character after [prev]
    on: the text of the leftmost match. *)
Fixpoint search_bounded_from (ignorecase : bool) (alts : list string)
    (prev : option ascii) (s : string) : option string :=
  match match_bounded_alternatives ignorecase alts prev s with
  | Some found => Some found
  | None =>
      match s with
      | EmptyString => None
      | String c s' => search_bounded_from ignorecase alts (Some c) s'
      end
  end.

Definition search_bounded (ignorecase : bool) (alts : list string) (s : string)
  : option string :=
  search_bounded_from ignorecase alts None s.

(** [re.search(r'\b' + re.escape(literal) + r'\b', s)], as a test. *)
Definition search_word (literal s : string) : bool :=
  match search_bounded false [literal] s with
  | Some _ => true
  | None => false
  end.

(** The years pattern with [re.IGNORECASE]: the unit is matched in any
    case and captured as the text has it. *)
Definition match_years_ignorecase (s : string) : option (string * string * nat) :=
  let (digits, r1) := span is_digit s in
  match digits with
  | EmptyString => None
  | _ =>
      let (plus, r2) :=
        match r1 with
        | String "+"%char r => (1%nat, r)
        | _ => (0%nat, r1)
        end in
      let (spaces, r3) := span is_space r2 in
      match match_alternatives year_units (lower r3) with
      | Some unit =>
          Some (digits, substring 0 (String.length unit) r3,
                (String.length digits + plus + String.length spaces
                 + String.length unit)%nat)
      | None => None
      end
  end.

Fixpoint findall_years_ignorecase_from (s : string) (skip : nat)
  : list (string * string) :=
  match s with
  | EmptyString => []
  | String _ s' =>
      match skip with
      | S k => findall_years_ignorecase_from s' k
      | O =>
          match match_years_ignorecase s with
          | Some (digits, unit, n) =>
              (digits, unit) :: findall_years_ignorecase_from s' (pred n)
          | None => findall_years_ignorecase_from s' 0
          end
      end
  end.

(** [re.findall(EXPERIENCE_PATTERN, s, re.IGNORECASE)] *)
Definition findall_years_ignorecase (s : string) : list (string * string) :=
  findall_years_ignorecase_from s 0.

(** [\S+], and [s.split()]: the runs of characters that are no whitespace. *)
Definition match_nonspaces (s : string) : option nat :=
  match fst (span non_space s) with
  | EmptyString => None
  | run => Some (String.length run)
  end.

Definition split_words (s : string) : list string := re_findall match_nonspaces s.

Module EntityExtractor.

(** The loop over the named entities of [extract_skills]. *)
Fixpoint add_entity_skills (entities : list Span) (skills : list string) : list string :=
  match entities with
  | [] => skills
  | ent :: rest =>
      add_entity_skills rest
        (if existsb (String.eqb (label_ ent)) ["PRODUCT"; "ORG"; "GPE"]
            && (1 <? String.length (span_text ent))%nat
         then set_add skills (lower (span_text ent)) else skills)
  end.

(** The loop over the lexicon. *)
Fixpoint add_lexicon_skills (lexicon : list string) (text_lower : string)
    (skills : list string) : list string :=
  match lexicon with
  | [] => skills
  | skill :: rest =>
      add_lexicon_skills rest text_lower
        (if search_word skill text_lower then set_add skills (lower skill) else skills)
  end.

(** The loop over the tokens, run when the text has one of the code words. *)
Fixpoint add_token_skills (tokens : list Token) (skills : list string) : list string :=
  match tokens with
  | [] => skills
  | token :: rest =>
      add_token_skills rest
        (if is_alpha token && (1 <? String.length (token_text token))%nat
            && negb (existsb (String.eqb (lower (token_text token))) skills)
         then if existsb (String.eqb (lower (token_text token))) COMMON_SKILLS
              then set_add skills (lower (token_text token)) else skills
         else skills)
  end.

(** The set of skills, before it is turned into a list. *)
Definition skills_set (doc : Doc) (text : string) : list string :=
  let skills := add_entity_skills (ents doc) [] in
  let skills := add_lexicon_skills COMMON_SKILLS (lower text) skills in
  match search_bounded true code_words text with
  | Some _ => add_token_skills (doc_tokens doc) skills
  | None => skills
  end.

Definition extract_skills `{Spacy} `{SetOrder} (text : string) : result (list string) :=
  doc <- nlp text ;;
  Ok (list_of_set (skills_set doc text)).

(** What a sentence with an education term adds to the set: the degree
    with the field, the degree alone, or the sentence without its
    punctuation when it has fewer than ten words. *)
Definition education_phrase (sentence : string) : option string :=
  match search_bounded true degree_names sentence with
  | Some degree =>
      match search_bounded true field_names sentence with
      | Some field => Some (degree ++ " in " ++ field)
      | None => Some degree
      end
  | None =>
      let clean_sentence := re_sub match_special " " sentence in
      let clean_sentence := strip (re_sub match_spaces " " clean_sentence) in
      if (List.length (split_words clean_sentence) <? 10)%nat
      then Some clean_sentence else None
  end.

(** The loop over the education terms, for one sentence. *)
Fixpoint add_sentence_education (terms : list string) (sentence : string)
    (education : list string) : list string :=
  match terms with
  | [] => education
  | term :: rest =>
      add_sentence_education rest sentence
        (if search_word term sentence
         then match education_phrase sentence with
              | Some phrase => set_add education phrase
              | None => education
              end
         else education)
  end.

Fixpoint add_education (sentences : list string) (education : list string)
  : list string :=
  match sentences with
  | [] => education
  | sentence :: rest =>
      add_education rest (add_sentence_education EDUCATION_TERMS sentence education)
  end.

Definition extract_education `{Spacy} `{SetOrder} (text : string)
  : result (list string) :=
  doc <- nlp text ;;
  sentences <- sents doc ;;
  Ok (list_of_set (add_education (map lower sentences) [])).

Fixpoint add_years (years_exp : list (string * string)) (experience : list string)
  : list string :=
  match years_exp with
  | [] => experience
  | (year, unit) :: rest =>
      add_years rest (set_add experience (year ++ " " ++ unit ++ " of experience"))
  end.

(** The loop over the tokens of [extract_experience]; [prev] is the token
    before the first of [tokens], if there is one. *)
Fixpoint add_job_titles (prev : option Token) (tokens : list Token)
    (experience : list string) : list string :=
  match tokens with
  | [] => experience
  | token :: rest =>
      add_job_titles (Some token) rest
        (if existsb (String.eqb (lower (token_text token))) job_titles
         then match prev with
              | Some before =>
                  if is_alpha before
                  then set_add experience
                         (lower (token_text before ++ " " ++ token_text token))
                  else set_add experience (lower (token_text token))
              | None => experience
              end
         else experience)
  end.

Fixpoint add_organizations (entities : list Span) (experience : list string)
  : list string :=
  match entities with
  | [] => experience
  | ent :: rest =>
      add_organizations rest
        (if String.eqb (label_ ent) "ORG"
            && (List.length (split_words (span_text ent)) <? 5)%nat
         then set_add experience ("worked at " ++ lower (span_text ent))
         else experience)
  end.

(** The set of experience phrases, before it is turned into a list. *)
Definition experience_set (doc : Doc) (text : string) : list string :=
  let experience := add_years (findall_years_ignorecase text) [] in
  let experience := add_job_titles None (doc_tokens doc) experience in
  add_organizations (ents doc) experience.

Definition extract_experience `{Spacy} `{SetOrder} (text : string)
  : result (list string) :=
  doc <- nlp text ;;
  Ok (list_of_set (experience_set doc text)).

End EntityExtractor.

(** The extractors of [entity_extractor.py], for [extract_entities]. *)
Definition spacy_extractors `{Spacy} `{SetOrder} : EntityExtractors := {|
  extract_skills := EntityExtractor.extract_skills;
  extract_education := EntityExtractor.extract_education;
  extract_experience := EntityExtractor.extract_experience
|}.

Definition is_letter (c : ascii) : bool :=
  let n := nat_of_ascii c in
  ((97 <=? n)%nat && (n <=? 122)%nat) || ((65 <=? n)%nat && (n <=? 90)%nat).

(** A pipeline that splits a text at its whitespace, finds no named entity
    and takes the text for one sentence; and sets that list their elements
    in the order they were added. *)
Definition sample_tokens (text : string) : list Token :=
  map (fun t => {| token_text := t; is_alpha := all_chars is_letter t |})
      (split_words text).

Definition sample_spacy : Spacy := {|
  nlp := fun text =>
    Ok {| doc_tokens := sample_tokens text; ents := []; sents := Ok [text] |}
|}.

Definition sample_set_order : SetOrder := {|
  list_of_set := fun l => l;
  list_of_set_perm := fun l => Permutation_refl l
|}.

(** A character of a normalized text: a word character or whitespace. *)
Definition word_or_space (c : ascii) : bool := is_word c || is_space c.

(** ** [visualization.py]: the skills comparison *)

(** The data frame that [create_skills_comparison_chart] plots, by its
    columns. *)
Record SkillsFrame : Type := {
  Skill : list string;
  Status : list string;
  Value : list Z
}.

(** [x in l] on a list of strings. *)
Definition list_in (x : string) (l : list string) : bool :=
  existsb (String.eqb x) l.

Definition skills_comparison_frame (required_skills resume_skills : list string)
  : SkillsFrame :=
  let matching_skills :=
    filter (fun skill => list_in skill required_skills) resume_skills in
  let missing_skills :=
    filter (fun skill => negb (list_in skill resume_skills)) required_skills in
  let skills := (matching_skills ++ missing_skills)%list in
  let status :=
    (repeat "Match" (List.length matching_skills)
     ++ repeat "Missing" (List.length missing_skills))%list in
  {| Skill := skills; Status := status; Value := repeat 1%Z (List.length skills) |}.

(** The rows of the frame, as pairs of a skill and its status. *)
Definition frame_rows (df : SkillsFrame) : list (string * string) :=
  combine (Skill df) (Status df).

(** ** The percentages, in binary64 *)

(** [q * 100] as the code computes it. *)
Definition percent (q : Q) : Q := double (double q * double 100).

(** The weighted percentage of the four scores as the code computes it:
    the weights are the doubles nearest to 0.4, 0.3, 0.15 and 0.15, and
    every product and every sum is rounded to the nearest double. *)
Definition weighted_percentage
    (similarity skills_part education_part experience_part : Q) : Q :=
  let a := double (double similarity * double (2 # 5)) in
  let b := double (double skills_part * double (3 # 10)) in
  let c := double (double education_part * double (3 # 20)) in
  let d := double (double experience_part * double (3 # 20)) in
  percent (double (double (double (a + b) + c) + d)).

(** ** The row behind an embedding *)

(** The row that the vectorizer returns for a text: that of
    [fit_transform] as long as no vocabulary is fitted, that of [transform]
    afterwards. *)
Definition encoded_row `{Sklearn} (v : TfidfVectorizer) (text : string)
  : result (list pyfloat) :=
  match vocabulary_ v with
  | None =>
      match fit_transform text with
      | Ok (_, row) => Ok row
      | Err e => Err e
      end
  | Some voc => transform voc text
  end.

(** A row cut to its first 384 entries, or padded with zeros up to 384. *)
Definition padded_or_truncated (row : list pyfloat) : list pyfloat :=
  (firstn 384 row ++ repeat (PFin 0) (384 - List.length row))%list.

(** ** Numbers that [int] converts *)

(** The numbers that the years pattern finds in the phrases have at most
    4300 digits, the length up to which [int] converts a string of
    digits. *)
Definition short_numbers (phrases : list string) : bool :=
  forallb (fun phrase =>
             forallb (fun m => (String.length (fst m) <=? 4300)%nat)
                     (findall_years (lower phrase)))
          phrases.

(** [int(digits)] as CPython 3.11 has it: a string of more than 4300
    digits is refused. *)
Definition py_int (digits : string) : result Z :=
  if (4300 <? String.length digits)%nat then Err ValueError
  else Ok (int_of_digits digits).

(** The conversions [int(match[0])] that the experience scorer asks for on
    a list of phrases. *)
Definition conversions (phrases : list string) : list (result Z) :=
  flat_map (fun phrase => map (fun m => py_int (fst m)) (findall_years (lower phrase)))
           phrases.

(** The same of the experience phrases that are extracted from a
    normalized text. *)
Definition short_numbers_in `{EntityExtractors} (processed : string) : bool :=
  match extract_entities processed with
  | Ok found => short_numbers (experience found)
  | Err _ => true
  end.

(** ** The passes of [preprocess_text] over its own result *)

(** [re.search(pattern, s) is not None], for a pattern that matches no
    empty string. *)
Fixpoint re_search (m : string -> option nat) (s : string) : bool :=
  match s with
  | EmptyString => false
  | String _ s' =>
      match m s with
      | Some _ => true
      | None => re_search m s'
      end
  end.

(** The [filtered_tokens] of [preprocess_text]: the lemmas of the tokens
    that the filter keeps. *)
Definition lemmas `{Nltk} (text : string) : list string :=
  match text with
  | EmptyString => []
  | _ => map lemmatize (filter keep_token (tokenize (clean_text text)))
  end.

(** A lemma as the lemmatizer gives it for a token of a cleaned text: a
    word in lower case, of which the lemmatizer knows no other form. *)
Definition plain_lemma `{Nltk} (lemma : string) : bool :=
  (0 <? String.length lemma)%nat
  && all_chars is_word lemma && all_chars not_upper lemma
  && String.eqb (lemmatize lemma) lemma.

Fixpoint strings_eqb (a b : list string) : bool :=
  match a, b with
  | [], [] => true
  | x :: a', y :: b' => String.eqb x y && strings_eqb a' b'
  | _, _ => false
  end.

(** A pass over the joined words reads the words back: the tokenizer in
    use splits the text at its spaces, and the words do not line up as a
    URL or as a phone number. *)
Definition read_back `{Nltk} (words : list string) : bool :=
  let text := String.concat " " words in
  strings_eqb (tokenize text) words
  && negb (re_search match_url text)
  && negb (re_search match_phone text).

(** The texts on which the normalization settles: the lemmas of the first
    pass are plain, and the first two normal forms are read back. *)
Definition settles `{Nltk} (text : string) : bool :=
  forallb plain_lemma (lemmas text)
  && read_back (lemmas text)
  && read_back (filter keep_token (lemmas text)).

(** A lemmatizer that knows the plural in s: it drops a final s that
    follows another character. *)
Fixpoint drop_plural (s : string) : string :=
  match s with
  | EmptyString => EmptyString
  | String c s' =>
      if String.eqb s' "s" && negb (Ascii.eqb c "s") then String c EmptyString
      else String c (drop_plural s')
  end.

(** An installation whose tokenizer is available and whose lemmatizer
    changes some of the tokens. *)
Definition sample_nltk_with_lemmatizer : Nltk := {|
  word_tokenize := fun text => Ok (regexp_tokenize text);
  STOP_WORDS := english_stop_words;
  lemmatize := drop_plural
|}.

(** A line of a resume on which every step of the normalization acts. *)
Definition sample_line : string :=
  "Contact us: jobs@example.org, https://example.org/jobs or (555) 123-4567. Senior Developers with 10 years of Python & SQL skills!".

(** * Properties *)

(** ** The rounding to binary64 *)

Lemma pow2_pos (e : Z) : 0 < pow2 e.
Proof. apply Qpower_0_lt. reflexivity. Qed.

Lemma pow2_add (a b : Z) : pow2 (a + b) == pow2 a * pow2 b.
Proof. apply Qpower_plus. discriminate. Qed.

Lemma pow2_le (a b : Z) : (a <= b)%Z -> pow2 a <= pow2 b.
Proof. intro H. apply Qpower_le_compat_l; [exact H | discriminate]. Qed.

Lemma pow2_lt (a b : Z) : (a < b)%Z -> pow2 a < pow2 b.
Proof. intro H. apply Qpower_lt_compat_l; [exact H | reflexivity]. Qed.

Lemma pow2_inject (n : Z) : (0 <= n)%Z -> pow2 n == inject_Z (2 ^ n).
Proof. intro H. symmetry. apply (Zpower_Qpower 2 n H). Qed.

Lemma pow2_cancel (a b : Z) : pow2 a * pow2 (b - a) == pow2 b.
Proof. rewrite <- pow2_add. replace (a + (b - a))%Z with b by lia. reflexivity. Qed.

Lemma Qnum_pos (q : Q) : 0 < q <-> (0 < Qnum q)%Z.
Proof. unfold Qlt. cbn. lia. Qed.

(** The binade of a positive rational. *)
Lemma binade_spec (q : Q) :
  0 < q -> pow2 (binade q) <= q /\ q < pow2 (binade q + 1).
Proof.
  intro Hq. destruct q as [a b]. apply Qnum_pos in Hq. cbn [Qnum] in Hq.
  unfold binade. cbn [Qnum Qden].
  set (la := Z.log2 a). set (lb := Z.log2 (Z.pos b)).
  destruct (Z.log2_spec a Hq) as [Ha1 Ha2]. fold la in Ha1, Ha2.
  destruct (Z.log2_spec (Z.pos b) eq_refl) as [Hb1 Hb2]. fold lb in Hb1, Hb2.
  assert (Hla : (0 <= la)%Z) by apply Z.log2_nonneg.
  assert (Hlb : (0 <= lb)%Z) by apply Z.log2_nonneg.
  assert (Qa1 : pow2 la <= inject_Z a).
  { rewrite (pow2_inject la Hla), <- Zle_Qle. exact Ha1. }
  assert (Qa2 : inject_Z a < pow2 (la + 1)).
  { rewrite (pow2_inject (la + 1)) by lia. rewrite <- Zlt_Qlt. exact Ha2. }
  assert (Qb1 : pow2 lb <= inject_Z (Z.pos b)).
  { rewrite (pow2_inject lb Hlb), <- Zle_Qle. exact Hb1. }
  assert (Qb2 : inject_Z (Z.pos b) < pow2 (lb + 1)).
  { rewrite (pow2_inject (lb + 1)) by lia. rewrite <- Zlt_Qlt. exact Hb2. }
  assert (Hbpos : 0 < inject_Z (Z.pos b)) by reflexivity.
  assert (Hlow : pow2 (la - lb - 1) <= a # b).
  { rewrite (Qmake_Qdiv a b). apply Qle_shift_div_l; [exact Hbpos |].
    apply Qle_trans with (pow2 (la - lb - 1) * pow2 (lb + 1)).
    - apply Qmult_le_l; [apply pow2_pos | apply Qlt_le_weak; exact Qb2].
    - rewrite <- pow2_add. replace (la - lb - 1 + (lb + 1))%Z with la by lia.
      exact Qa1. }
  assert (Hhigh : a # b < pow2 (la - lb + 1)).
  { rewrite (Qmake_Qdiv a b). apply Qlt_shift_div_r; [exact Hbpos |].
    apply Qlt_le_trans with (pow2 (la + 1)); [exact Qa2 |].
    apply Qle_trans with (pow2 (la - lb + 1) * pow2 lb).
    - rewrite <- pow2_add. replace (la - lb + 1 + lb)%Z with (la + 1)%Z by lia.
      apply Qle_refl.
    - apply Qmult_le_l; [apply pow2_pos | exact Qb1]. }
  destruct (Qle_bool (pow2 (la - lb)) (a # b)) eqn:E.
  - apply Qle_bool_iff in E. split; [exact E | exact Hhigh].
  - split; [exact Hlow |]. replace (la - lb - 1 + 1)%Z with (la - lb)%Z by lia.
    apply Qnot_le_lt. intro H. apply Qle_bool_iff in H. congruence.
Qed.

Lemma binade_unique (q : Q) (e : Z) :
  pow2 e <= q -> q < pow2 (e + 1) -> binade q = e.
Proof.
  intros H1 H2.
  assert (Hq : 0 < q) by (apply Qlt_le_trans with (pow2 e); [apply pow2_pos | exact H1]).
  destruct (binade_spec q Hq) as [B1 B2].
  destruct (Z.lt_trichotomy (binade q) e) as [Hlt | [Heq | Hgt]]; [| exact Heq |].
  - exfalso. assert (pow2 (binade q + 1) <= pow2 e) by (apply pow2_le; lia). lra.
  - exfalso. assert (pow2 (e + 1) <= pow2 (binade q)) by (apply pow2_le; lia). lra.
Qed.

Lemma binade_comp (a b : Q) : 0 < a -> a == b -> binade a = binade b.
Proof.
  intros Ha Hab. destruct (binade_spec a Ha) as [B1 B2]. symmetry.
  apply binade_unique; rewrite <- Hab; assumption.
Qed.

Lemma binade_mono (a b : Q) : 0 < a -> a <= b -> (binade a <= binade b)%Z.
Proof.
  intros Ha Hab. assert (Hb : 0 < b) by lra.
  destruct (binade_spec a Ha) as [A1 A2]. destruct (binade_spec b Hb) as [B1 B2].
  destruct (Z_le_gt_dec (binade a) (binade b)) as [H | H]; [exact H | exfalso].
  assert (pow2 (binade b + 1) <= pow2 (binade a)) by (apply pow2_le; lia). lra.
Qed.

Ltac compare_prop H :=
  match type of H with
  | _ = Eq => apply Qeq_alt in H
  | _ = Lt => apply Qlt_alt in H
  | _ = Gt => apply Qgt_alt in H
  end.

(** Rounding to the nearest integer. *)
Lemma round_half_even_floor (m : Q) :
  (Qfloor m <= round_half_even m <= Qfloor m + 1)%Z.
Proof.
  unfold round_half_even. destruct (Qcompare _ _); [destruct (Z.even _) | |]; lia.
Qed.

Lemma round_half_even_comp (a b : Q) : a == b -> round_half_even a = round_half_even b.
Proof.
  intro H. unfold round_half_even. rewrite (Qfloor_comp a b H).
  assert (E : a - inject_Z (Qfloor b) == b - inject_Z (Qfloor b)) by (rewrite H; reflexivity).
  rewrite (Qcompare_comp _ _ E _ _ (Qeq_refl (1 # 2))). reflexivity.
Qed.

Lemma round_half_even_Z (n : Z) : round_half_even (inject_Z n) = n.
Proof.
  unfold round_half_even. rewrite Qfloor_Z.
  destruct (Qcompare (inject_Z n - inject_Z n) (1 # 2)) eqn:C;
    [compare_prop C | reflexivity | compare_prop C]; exfalso; lra.
Qed.

Lemma round_half_even_mono (a b : Q) :
  a <= b -> (round_half_even a <= round_half_even b)%Z.
Proof.
  intro Hab. pose proof (Qfloor_resp_le a b Hab) as Hf.
  pose proof (round_half_even_floor a) as Ha. pose proof (round_half_even_floor b) as Hb.
  destruct (Z.eq_dec (Qfloor a) (Qfloor b)) as [E | N]; [| lia].
  unfold round_half_even in *. rewrite <- E in *.
  set (n := Qfloor a) in *.
  destruct (Qcompare (a - inject_Z n) (1 # 2)) eqn:Ca;
    destruct (Qcompare (b - inject_Z n) (1 # 2)) eqn:Cb;
    compare_prop Ca; compare_prop Cb;
    try (destruct (Z.even n)); try lia; exfalso; lra.
Qed.

Lemma round_half_even_lower (m : Q) (k : Z) :
  inject_Z k <= m -> (k <= round_half_even m)%Z.
Proof.
  intro H. rewrite <- (round_half_even_Z k). apply round_half_even_mono. exact H.
Qed.

Lemma round_half_even_upper (m : Q) (k : Z) :
  m <= inject_Z k -> (round_half_even m <= k)%Z.
Proof.
  intro H. rewrite <- (round_half_even_Z k). apply round_half_even_mono. exact H.
Qed.

(** The significand of a positive rational lies between [2^52] and [2^53]. *)
Lemma significand_range (q : Q) :
  0 < q ->
  inject_Z (2 ^ 52) <= q * pow2 (52 - binade q)
  /\ q * pow2 (52 - binade q) < inject_Z (2 ^ 53).
Proof.
  intro Hq. destruct (binade_spec q Hq) as [B1 B2].
  pose proof (pow2_pos (52 - binade q)) as Hp.
  rewrite <- (pow2_inject 52), <- (pow2_inject 53) by lia.
  rewrite <- (pow2_cancel (binade q) 52) at 1.
  rewrite <- (pow2_cancel (binade q + 1) 53).
  replace (53 - (binade q + 1))%Z with (52 - binade q)%Z by lia.
  split.
  - apply Qmult_le_compat_r; [exact B1 | apply Qlt_le_weak; exact Hp].
  - apply Qmult_lt_compat_r; [exact Hp | exact B2].
Qed.

Lemma round_pos_range (q : Q) :
  0 < q ->
  pow2 (binade q) <= round_pos q /\ round_pos q <= pow2 (binade q + 1).
Proof.
  intro Hq. destruct (significand_range q Hq) as [S1 S2].
  unfold round_pos. pose proof (pow2_pos (binade q - 52)) as Hp.
  set (n := round_half_even (q * pow2 (52 - binade q))).
  assert (N1 : (2 ^ 52 <= n)%Z) by (apply round_half_even_lower; exact S1).
  assert (N2 : (n <= 2 ^ 53)%Z)
    by (apply round_half_even_upper, Qlt_le_weak; exact S2).
  rewrite Zle_Qle in N1, N2.
  rewrite <- (pow2_inject 52) in N1 by lia. rewrite <- (pow2_inject 53) in N2 by lia.
  split.
  - rewrite <- (pow2_cancel 52 (binade q)).
    apply Qmult_le_compat_r; [exact N1 | apply Qlt_le_weak; exact Hp].
  - rewrite <- (pow2_cancel 53 (binade q + 1)).
    replace (binade q + 1 - 53)%Z with (binade q - 52)%Z by lia.
    apply Qmult_le_compat_r; [exact N2 | apply Qlt_le_weak; exact Hp].
Qed.

Lemma round_pos_pos (q : Q) : 0 < q -> 0 < round_pos q.
Proof.
  intro Hq. destruct (round_pos_range q Hq) as [H _].
  apply Qlt_le_trans with (pow2 (binade q)); [apply pow2_pos | exact H].
Qed.

Lemma round_pos_comp (a b : Q) : 0 < a -> a == b -> round_pos a == round_pos b.
Proof.
  intros Ha Hab. unfold round_pos. rewrite <- (binade_comp a b Ha Hab).
  rewrite (round_half_even_comp (a * pow2 (52 - binade a)) (b * pow2 (52 - binade a)));
    [reflexivity | apply Qmult_comp; [exact Hab | reflexivity]].
Qed.

Lemma round_pos_mono (a b : Q) : 0 < a -> a <= b -> round_pos a <= round_pos b.
Proof.
  intros Ha Hab. assert (Hb : 0 < b) by lra.
  pose proof (binade_mono a b Ha Hab) as He.
  destruct (Z.eq_dec (binade a) (binade b)) as [E | N].
  - unfold round_pos. rewrite <- E.
    apply Qmult_le_compat_r; [| apply Qlt_le_weak, pow2_pos].
    rewrite <- Zle_Qle. apply round_half_even_mono.
    apply Qmult_le_compat_r; [exact Hab | apply Qlt_le_weak, pow2_pos].
  - destruct (round_pos_range a Ha) as [_ A2]. destruct (round_pos_range b Hb) as [B1 _].
    assert (pow2 (binade a + 1) <= pow2 (binade b)) by (apply pow2_le; lia). lra.
Qed.

(** A number with 53 significant bits is rounded to itself. *)
Lemma round_pos_idem (q : Q) : 0 < q -> round_pos (round_pos q) == round_pos q.
Proof.
  intro Hq. destruct (significand_range q Hq) as [S1 S2].
  pose proof (round_pos_range q Hq) as [R1 R2].
  set (e := binade q) in *.
  set (n := round_half_even (q * pow2 (52 - e))).
  assert (Hr : round_pos q == inject_Z n * pow2 (e - 52)) by reflexivity.
  assert (N2 : (n <= 2 ^ 53)%Z)
    by (apply round_half_even_upper, Qlt_le_weak; exact S2).
  destruct (Z.eq_dec n (2 ^ 53)) as [E | N].
  - assert (Hr' : round_pos q == pow2 (e + 1)).
    { rewrite Hr, E, <- (pow2_inject 53), <- pow2_add by lia.
      replace (53 + (e - 52))%Z with (e + 1)%Z by lia. reflexivity. }
    assert (Hb : binade (round_pos q) = (e + 1)%Z).
    { apply binade_unique; rewrite Hr'; [apply Qle_refl | apply pow2_lt; lia]. }
    unfold round_pos at 1. rewrite Hb.
    rewrite (round_half_even_comp _ (inject_Z (2 ^ 52))).
    + rewrite round_half_even_Z, <- (pow2_inject 52), <- pow2_add, Hr' by lia.
      replace (52 + (e + 1 - 52))%Z with (e + 1)%Z by lia. reflexivity.
    + rewrite Hr', <- pow2_add, <- (pow2_inject 52) by lia.
      replace (e + 1 + (52 - (e + 1)))%Z with 52%Z by lia. reflexivity.
  - assert (Hlt : round_pos q < pow2 (e + 1)).
    { rewrite Hr, <- (pow2_cancel 53 (e + 1)).
      replace (e + 1 - 53)%Z with (e - 52)%Z by lia.
      apply Qmult_lt_compat_r; [apply pow2_pos |].
      rewrite (pow2_inject 53), <- Zlt_Qlt by lia. lia. }
    assert (Hb : binade (round_pos q) = e) by (apply binade_unique; assumption).
    unfold round_pos at 1. rewrite Hb.
    rewrite (round_half_even_comp _ (inject_Z n)).
    + rewrite round_half_even_Z. symmetry. exact Hr.
    + rewrite Hr, <- Qmult_assoc, <- pow2_add.
      replace (e - 52 + (52 - e))%Z with 0%Z by lia.
      change (pow2 0) with 1. ring.
Qed.

(** *** The nearest double *)

Lemma double_comp (a b : Q) : a == b -> double a = double b.
Proof. intro H. unfold double. rewrite (Qred_complete a b H). reflexivity. Qed.

Lemma double_pos (q : Q) : 0 < q -> double q == round_pos q.
Proof.
  intro Hq. unfold double.
  assert (Hr : 0 < Qred q) by (rewrite Qred_correct; exact Hq).
  pose proof (proj1 (Qnum_pos _) Hr) as Hn.
  destruct (Qnum (Qred q)) as [| p | p]; try lia.
  rewrite Qred_correct. apply round_pos_comp; [exact Hr | apply Qred_correct].
Qed.

Lemma double_zero (q : Q) : q == 0 -> double q = 0.
Proof. intro H. rewrite (double_comp q 0 H). reflexivity. Qed.

Lemma double_neg (q : Q) : q < 0 -> double q == - round_pos (- q).
Proof.
  intro Hq. unfold double.
  assert (Hr : Qred q < 0) by (rewrite Qred_correct; exact Hq).
  assert (Hn : (Qnum (Qred q) < 0)%Z) by (revert Hr; unfold Qlt; cbn; lia).
  destruct (Qnum (Qred q)) as [| p | p]; try lia.
  rewrite Qred_correct. apply Qopp_comp.
  apply round_pos_comp; [lra | rewrite Qred_correct; reflexivity].
Qed.

Lemma double_opp (q : Q) : double (- q) == - double q.
Proof.
  destruct (Q_dec q 0) as [[H | H] | H].
  - rewrite (double_pos (- q)), (double_neg q) by lra. ring.
  - rewrite (double_neg (- q)), (double_pos q) by lra.
    apply Qopp_comp, round_pos_comp; [lra | ring].
  - rewrite (double_zero q H), (double_zero (- q)) by lra. reflexivity.
Qed.

Lemma double_sign_pos (q : Q) : 0 < q -> 0 < double q.
Proof. intro H. rewrite (double_pos q H). apply round_pos_pos. exact H. Qed.

Lemma double_sign_neg (q : Q) : q < 0 -> double q < 0.
Proof.
  intro H. rewrite (double_neg q H).
  assert (0 < round_pos (- q)) by (apply round_pos_pos; lra). lra.
Qed.

(** Rounding keeps the order. *)
Lemma double_mono (a b : Q) : a <= b -> double a <= double b.
Proof.
  intro Hab.
  destruct (Q_dec a 0) as [[Ha | Ha] | Ha]; destruct (Q_dec b 0) as [[Hb | Hb] | Hb];
    try (exfalso; lra).
  - rewrite (double_neg a Ha), (double_neg b Hb).
    assert (round_pos (- b) <= round_pos (- a)) by (apply round_pos_mono; lra). lra.
  - pose proof (double_sign_neg a Ha). pose proof (double_sign_pos b Hb). lra.
  - pose proof (double_sign_neg a Ha). rewrite (double_zero b Hb). lra.
  - rewrite (double_pos a Ha), (double_pos b Hb). apply round_pos_mono; assumption.
  - pose proof (double_sign_pos b Hb). rewrite (double_zero a Ha). lra.
  - rewrite (double_zero a Ha), (double_zero b Hb). apply Qle_refl.
Qed.

(** There is no underflow: only zero is rounded to zero. *)
Lemma double_eq_zero (q : Q) : double q == 0 -> q == 0.
Proof.
  intro H. destruct (Q_dec q 0) as [[Hq | Hq] | Hq]; [| | exact Hq].
  - pose proof (double_sign_neg q Hq). lra.
  - pose proof (double_sign_pos q Hq). lra.
Qed.

Lemma double_Qred (q : Q) : Qred (double q) = double q.
Proof.
  unfold double. destruct (Qnum (Qred q)); [reflexivity | |];
    apply Qred_complete, Qred_correct.
Qed.

(** A double is rounded to itself. *)
Lemma double_idem (q : Q) : double (double q) = double q.
Proof.
  rewrite <- (double_Qred (double q)), <- (double_Qred q). apply Qred_complete.
  rewrite double_Qred.
  destruct (Q_dec q 0) as [[Hq | Hq] | Hq].
  - pose proof (double_sign_neg q Hq) as Hd.
    rewrite (double_neg (double q) Hd).
    rewrite (round_pos_comp (- double q) (round_pos (- q))).
    + rewrite round_pos_idem by lra. symmetry. apply double_neg. exact Hq.
    + lra.
    + rewrite (double_neg q Hq). ring.
  - pose proof (double_sign_pos q Hq) as Hd.
    rewrite (double_pos (double q) Hd).
    rewrite (round_pos_comp (double q) (round_pos q) Hd (double_pos q Hq)).
    rewrite round_pos_idem by exact Hq. symmetry. apply double_pos. exact Hq.
  - rewrite (double_zero q Hq). reflexivity.
Qed.

(** An operation whose exact result is bounded by a double gives a finite
    double within the same bounds. *)
Lemma round64_between (lo hi q : Q) :
  double lo == lo -> double hi == hi -> - pow2 1024 < lo -> hi < pow2 1024 ->
  lo <= q <= hi ->
  round64 q = PFin (double q) /\ lo <= double q <= hi.
Proof.
  intros Hlo Hhi Blo Bhi [H1 H2].
  assert (B : lo <= double q <= hi).
  { split; [rewrite <- Hlo | rewrite <- Hhi]; apply double_mono; assumption. }
  split; [| exact B]. unfold round64.
  destruct (Qle_bool (pow2 1024) (Qabs (double q))) eqn:E; [| reflexivity].
  exfalso. apply Qle_bool_iff in E. revert Blo Bhi E.
  generalize (pow2 1024). intros p Blo Bhi E.
  assert (Hlt : Qabs (double q) < p) by (apply Qabs_Qlt_condition; lra).
  lra.
Qed.


(** ** Arithmetic of the float model *)

Lemma Qltb_lt (x y : Q) : Qltb x y = true <-> x < y.
Proof.
  unfold Qltb. rewrite negb_true_iff, <- not_true_iff_false, Qle_bool_iff.
  split; intro H; [apply Qnot_le_lt | apply Qlt_not_le]; exact H.
Qed.

Lemma Qltb_ge (x y : Q) : Qltb x y = false <-> y <= x.
Proof.
  unfold Qltb. rewrite negb_false_iff. apply Qle_bool_iff.
Qed.

Lemma py_min_one (q : Q) : py_min (PFin 1) (PFin q) = PFin (if Qltb q 1 then q else 1).
Proof. unfold py_min; simpl. destruct (Qltb q 1); reflexivity. Qed.

Lemma min_one_between (q : Q) :
  0 <= q -> 0 <= (if Qltb q 1 then q else 1) /\ (if Qltb q 1 then q else 1) <= 1.
Proof.
  intro Hq. destruct (Qltb q 1) eqn:E.
  - apply Qltb_lt in E. split; [exact Hq | apply Qlt_le_weak; exact E].
  - split; [discriminate | apply Qle_refl].
Qed.

Lemma min_one_Qmin (q : Q) : (if Qltb q 1 then q else 1) == Qmin 1 q.
Proof.
  destruct (Qltb q 1) eqn:E.
  - apply Qltb_lt in E. rewrite Q.min_r; [reflexivity | apply Qlt_le_weak; exact E].
  - apply Qltb_ge in E. rewrite Q.min_l; [reflexivity | exact E].
Qed.

Lemma count_Q_nonneg (n : nat) : 0 <= count_Q n.
Proof.
  unfold count_Q. change 0 with (inject_Z 0). rewrite <- Zle_Qle. lia.
Qed.

Lemma count_Q_le (n m : nat) : (n <= m)%nat -> count_Q n <= count_Q m.
Proof. intro H. unfold count_Q. rewrite <- Zle_Qle. lia. Qed.

Lemma count_Q_S (n : nat) : count_Q (S n) == count_Q n + 1.
Proof.
  unfold count_Q. rewrite Nat2Z.inj_succ. unfold Z.succ.
  rewrite inject_Z_plus. reflexivity.
Qed.

Lemma len_cons_pos {A : Type} (x : A) (l : list A) : (0 < len (x :: l))%Z.
Proof. unfold len. simpl List.length. lia. Qed.

Lemma len_count_Q {A : Type} (l : list A) : inject_Z (len l) = count_Q (List.length l).
Proof. reflexivity. Qed.

(** A quotient of a part by the whole lies between 0 and 1. *)
Lemma fraction_between (a b : Q) :
  0 <= a -> a <= b -> 0 < b -> 0 <= a / b /\ a / b <= 1.
Proof.
  intros Ha Hab Hb. split.
  - apply Qle_shift_div_l; [exact Hb | rewrite Qmult_0_l; exact Ha].
  - apply Qle_shift_div_r; [exact Hb | rewrite Qmult_1_l; exact Hab].
Qed.

Lemma py_truediv_pos (a : Q) (b : Z) :
  (0 < b)%Z -> py_truediv a b = Ok (PFin (a / inject_Z b)).
Proof.
  intro Hb. unfold py_truediv.
  destruct (Z.eqb_spec b 0) as [E | _]; [lia | reflexivity].
Qed.

(** ** Substrings *)

Lemma prefix_app (a b : string) : prefix a (a ++ b) = true.
Proof.
  induction a as [| c a IH]; simpl.
  - destruct b; reflexivity.
  - destruct (ascii_dec c c) as [_ | N]; [exact IH | contradiction].
Qed.

Lemma prefix_split (a b : string) : prefix a b = true -> exists post, b = a ++ post.
Proof.
  revert b. induction a as [| c a IH]; intros b H.
  - exists b. reflexivity.
  - destruct b as [| d b]; simpl in H; [discriminate |].
    destruct (ascii_dec c d) as [-> | _]; [| discriminate].
    destruct (IH b H) as [post ->]. exists post. reflexivity.
Qed.

Lemma str_in_nil (a : string) : str_in a EmptyString = prefix a EmptyString.
Proof. destruct a; reflexivity. Qed.

Lemma str_in_cons (a : string) (d : ascii) (b : string) :
  str_in a (String d b) = prefix a (String d b) || str_in a b.
Proof. reflexivity. Qed.

(** [str_in a b] holds exactly when [b] is [a] with something before and
    something after it. *)
Lemma str_in_spec (a b : string) :
  str_in a b = true <-> exists pre post, b = pre ++ a ++ post.
Proof.
  split.
  - induction b as [| d b IH]; intro H.
    + rewrite str_in_nil in H.
      destruct (prefix_split _ _ H) as [post Hp]. exists EmptyString, post. exact Hp.
    + rewrite str_in_cons in H. apply orb_true_iff in H. destruct H as [H | H].
      * destruct (prefix_split _ _ H) as [post Hp]. exists EmptyString, post. exact Hp.
      * destruct (IH H) as (pre & post & ->). exists (String d pre), post. reflexivity.
  - intros (pre & post & ->). induction pre as [| d pre IH].
    + change (EmptyString ++ a ++ post) with (a ++ post).
      destruct (a ++ post) as [| d s] eqn:E.
      * rewrite str_in_nil, <- E. apply prefix_app.
      * rewrite str_in_cons, <- E, prefix_app. reflexivity.
    + change (String d pre ++ a ++ post) with (String d (pre ++ a ++ post)).
      rewrite str_in_cons, IH. apply orb_true_r.
Qed.

(** ** The skills score *)

Lemma count_skills_filter (js rs : list string) (acc : nat) :
  count_skills js rs acc
  = (acc + List.length
             (filter (fun j => existsb (fun r => str_in j r || str_in r j) rs) js))%nat.
Proof.
  revert acc. induction js as [| j js IH]; intro acc; simpl.
  - lia.
  - rewrite IH. destruct (existsb _ rs); simpl; lia.
Qed.

Lemma existsb_map {A B : Type} (f : B -> bool) (g : A -> B) (l : list A) :
  existsb f (map g l) = existsb (fun x => f (g x)) l.
Proof. induction l as [| x l IH]; simpl; [reflexivity | rewrite IH; reflexivity]. Qed.

Lemma filter_map_length {A B : Type} (f : B -> bool) (g : A -> B) (l : list A) :
  List.length (filter f (map g l)) = List.length (filter (fun x => f (g x)) l).
Proof.
  induction l as [| x l IH]; simpl; [reflexivity |].
  destruct (f (g x)); simpl; rewrite IH; reflexivity.
Qed.

Lemma filter_length_bound {A : Type} (f : A -> bool) (l : list A) :
  (List.length (filter f l) <= List.length l)%nat.
Proof.
  induction l as [| x l IH]; simpl; [lia |]. destruct (f x); simpl; lia.
Qed.

Lemma matched_skills_count (job_skills resume_skills : list string) :
  count_skills (map lower job_skills) (map lower resume_skills) 0
  = List.length (filter (fun s => has_match s resume_skills) job_skills).
Proof.
  rewrite count_skills_filter, filter_map_length. simpl.
  f_equal. apply filter_ext. intro j. unfold has_match, either_in.
  rewrite existsb_map. reflexivity.
Qed.

Lemma spec_skills_score_between (job_skills resume_skills : list string) :
  0 <= spec_skills_score job_skills resume_skills
  /\ spec_skills_score job_skills resume_skills <= 1.
Proof.
  unfold spec_skills_score.
  destruct job_skills as [| j js]; [split; discriminate |].
  destruct resume_skills as [| r rs]; [split; discriminate |].
  rewrite len_count_Q. apply fraction_between.
  - apply count_Q_nonneg.
  - apply count_Q_le, filter_length_bound.
  - unfold count_Q. change 0 with (inject_Z 0). rewrite <- Zlt_Qlt.
    simpl List.length. lia.
Qed.

Lemma skills_match_spec (job_skills resume_skills : list string) :
  calculate_skills_match job_skills resume_skills
  = Ok (PFin (spec_skills_score job_skills resume_skills)).
Proof.
  unfold calculate_skills_match, spec_skills_score.
  destruct job_skills as [| j js]; [reflexivity |].
  destruct resume_skills as [| r rs]; [reflexivity |].
  rewrite py_truediv_pos by apply len_cons_pos.
  rewrite matched_skills_count. reflexivity.
Qed.

(** C5. The skills score is 0 when the job or the resume lists no skill;
    otherwise it is the fraction of the job skills that some resume skill
    matches as a substring in one direction or the other, ignoring case.
    It lies between 0 and 1, and the job skills python and sql against the
    resume skill python programming score one half. *)
Theorem skills_score_is_matched_fraction (job_skills resume_skills : list string) :
  calculate_skills_match job_skills resume_skills
  = Ok (PFin (spec_skills_score job_skills resume_skills))
  /\ calculate_skills_match [] resume_skills = Ok (PFin 0)
  /\ calculate_skills_match job_skills [] = Ok (PFin 0)
  /\ 0 <= spec_skills_score job_skills resume_skills <= 1
  /\ calculate_skills_match ["python"; "sql"] ["python programming"]
     = Ok (PFin (1 # 2)).
Proof.
  split; [| split; [| split; [| split]]].
  - apply skills_match_spec.
  - reflexivity.
  - destruct job_skills; reflexivity.
  - apply spec_skills_score_between.
  - vm_compute. reflexivity.
Qed.

(** ** The experience score *)

Lemma fold_left_max_is_max (l : list Z) (x : Z) : is_max (fold_left Z.max l x) (x :: l).
Proof.
  revert x. induction l as [| y l IH]; intro x; simpl.
  - split; [left; reflexivity | constructor; [lia | constructor]].
  - destruct (IH (Z.max x y)) as [Hin Hall]. split.
    + destruct Hin as [Hin | Hin].
      * destruct (Z.max_spec x y) as [[_ E] | [_ E]]; rewrite E in *.
        -- right; left; exact Hin.
        -- left; exact Hin.
      * right; right; exact Hin.
    + inversion Hall as [| z l' Hz Hl]; subst.
      constructor; [lia | constructor; [lia | exact Hl]].
Qed.

Lemma int_of_digits_from_nonneg (s : string) (acc : Z) :
  (0 <= acc)%Z -> (0 <= int_of_digits_from s acc)%Z.
Proof.
  revert acc. induction s as [| c s IH]; intros acc H; cbn [int_of_digits_from];
    [exact H |].
  apply IH. generalize (nat_of_ascii c - 48)%nat. intro n. lia.
Qed.

Lemma collect_years_nonneg (exps : list string) :
  Forall (fun y => (0 <= y)%Z) (collect_years exps).
Proof.
  induction exps as [| e exps IH]; simpl; [constructor |].
  apply Forall_app. split; [| exact IH].
  apply Forall_forall. intros y Hy. apply in_map_iff in Hy.
  destruct Hy as (m & <- & _). apply int_of_digits_from_nonneg. lia.
Qed.

(** C4. When the years pattern finds years on both sides, the experience
    score compares the two maxima: it is 1 when the maximum of the resume
    reaches that of the job and their quotient otherwise.  A job asking for
    5 years against a resume with 3 years scores 3/5. *)
Theorem experience_score_compares_max_years (job_experience resume_experience : list string) :
  years_found job_experience <> [] ->
  years_found resume_experience <> [] ->
  (exists max_job_years max_resume_years : Z,
      is_max max_job_years (years_found job_experience)
      /\ is_max max_resume_years (years_found resume_experience)
      /\ calculate_experience_match job_experience resume_experience
         = Ok (PFin (if (max_resume_years >=? max_job_years)%Z then 1
                     else inject_Z max_resume_years / inject_Z max_job_years)))
  /\ calculate_experience_match ["5 years of experience"] ["3 years of experience"]
     = Ok (PFin (3 # 5)).
Proof.
  unfold years_found. intros Hj Hr. split; [| vm_compute; reflexivity].
  unfold calculate_experience_match.
  destruct job_experience as [| j js]; [exfalso; apply Hj; reflexivity |].
  destruct resume_experience as [| r rs]; [exfalso; apply Hr; reflexivity |].
  pose proof (collect_years_nonneg (map lower (r :: rs))) as Hnn.
  destruct (collect_years (map lower (j :: js))) as [| y ys]; [contradiction |].
  destruct (collect_years (map lower (r :: rs))) as [| z zs]; [contradiction |].
  pose proof (fold_left_max_is_max ys y) as Hmj.
  pose proof (fold_left_max_is_max zs z) as Hmr.
  exists (fold_left Z.max ys y), (fold_left Z.max zs z).
  split; [exact Hmj | split; [exact Hmr |]].
  cbn [py_max_ints bind].
  destruct (fold_left Z.max zs z >=? fold_left Z.max ys y)%Z eqn:E; [reflexivity |].
  apply py_truediv_pos.
  destruct Hmr as [Hin _]. rewrite Forall_forall in Hnn. specialize (Hnn _ Hin).
  rewrite Z.geb_leb in E. apply Z.leb_gt in E. lia.
Qed.

(** The theorem at the job asking for 10+ years and a resume with 4 yrs. *)
Lemma experience_score_compares_max_years_witness :
  (exists max_job_years max_resume_years : Z,
      is_max max_job_years (years_found ["10+ Years in sales"; "team lead"])
      /\ is_max max_resume_years (years_found ["4 yrs of experience"; "2 years abroad"])
      /\ calculate_experience_match ["10+ Years in sales"; "team lead"]
                                    ["4 yrs of experience"; "2 years abroad"]
         = Ok (PFin (if (max_resume_years >=? max_job_years)%Z then 1
                     else inject_Z max_resume_years / inject_Z max_job_years)))
  /\ calculate_experience_match ["5 years of experience"] ["3 years of experience"]
     = Ok (PFin (3 # 5)).
Proof.
  apply (experience_score_compares_max_years
           ["10+ Years in sales"; "team lead"]
           ["4 yrs of experience"; "2 years abroad"]).
  - vm_compute. discriminate.
  - vm_compute. discriminate.
Defined.

(** ** The education score *)

Lemma keyword_scan_shares (keywords : list string) (job_edu resume_edu : string) (m : Q) :
  keyword_scan keywords job_edu resume_edu m
  = if existsb (fun keyword => str_in keyword job_edu && str_in keyword resume_edu) keywords
    then m + (1 # 2) else m.
Proof.
  induction keywords as [| k ks IH]; simpl; [reflexivity |].
  destruct (str_in k job_edu && str_in k resume_edu); [reflexivity | exact IH].
Qed.

Lemma points_lowered_nonneg (j : string) (rs : list string) : 0 <= points_lowered j rs.
Proof.
  unfold points_lowered.
  pose proof (count_Q_nonneg
                (List.length (filter (shares_keyword j) (before_first (either_in j) rs)))).
  destruct (existsb (either_in j) rs); lra.
Qed.

Lemma education_scan_points (j : string) (rs : list string) (m : Q) :
  education_scan j rs m == m + points_lowered j rs.
Proof.
  revert m. induction rs as [| r rs IH]; intro m.
  - unfold points_lowered. simpl. unfold count_Q. simpl. ring.
  - cbn [education_scan]. unfold points_lowered. cbn [before_first existsb].
    change (str_in j r || str_in r j) with (either_in j r).
    destruct (either_in j r) eqn:E.
    + simpl. unfold count_Q. simpl. ring.
    + rewrite IH, keyword_scan_shares. fold (shares_keyword j r).
      unfold points_lowered. cbn [filter orb].
      destruct (shares_keyword j r).
      * cbn [List.length]. rewrite count_Q_S. ring.
      * ring.
Qed.

Lemma education_loop_points (js rs : list string) (m : Q) :
  education_loop js rs m == m + Qsum (map (fun j => points_lowered j rs) js).
Proof.
  revert m. induction js as [| j js IH]; intro m; simpl.
  - ring.
  - rewrite IH, education_scan_points. ring.
Qed.

Lemma Qsum_nonneg (l : list Q) : Forall (fun q => 0 <= q) l -> 0 <= Qsum l.
Proof.
  induction 1 as [| q l Hq _ IH]; simpl; [discriminate | lra].
Qed.

Lemma Qsum_points_nonneg (js rs : list string) :
  0 <= Qsum (map (fun j => points_lowered j rs) js).
Proof.
  apply Qsum_nonneg, Forall_forall. intros q Hq. apply in_map_iff in Hq.
  destruct Hq as (j & <- & _). apply points_lowered_nonneg.
Qed.

Lemma Qsum_map_lower (f : string -> Q) (l : list string) :
  Qsum (map f (map lower l)) = Qsum (map (fun j => f (lower j)) l).
Proof. rewrite map_map. reflexivity. Qed.

Lemma education_match_spec (job_education resume_education : list string) :
  exists q : Q,
    calculate_education_match job_education resume_education = Ok (PFin q)
    /\ q == spec_education_score job_education resume_education
    /\ 0 <= q <= 1.
Proof.
  unfold calculate_education_match, spec_education_score.
  destruct job_education as [| j js];
    [exists 1; split; [reflexivity | split; [reflexivity | split; discriminate]] |].
  destruct resume_education as [| r rs];
    [exists 0; split; [reflexivity | split; [reflexivity | split; discriminate]] |].
  rewrite py_truediv_pos by apply len_cons_pos.
  cbn [bind]. rewrite py_min_one.
  set (matches := education_loop (map lower (j :: js)) (map lower (r :: rs)) 0).
  set (total := Qsum (map (fun p => spec_education_points p (r :: rs)) (j :: js))).
  assert (Hm : matches == total).
  { unfold matches, total. rewrite education_loop_points, Qsum_map_lower.
    unfold spec_education_points, points_lowered. ring. }
  assert (Hpos : 0 < inject_Z (len (j :: js))).
  { change 0 with (inject_Z 0). rewrite <- Zlt_Qlt. apply len_cons_pos. }
  assert (Hnn : 0 <= matches / inject_Z (len (j :: js))).
  { apply Qle_shift_div_l; [exact Hpos |]. rewrite Qmult_0_l.
    unfold matches. rewrite education_loop_points.
    pose proof (Qsum_points_nonneg (map lower (j :: js)) (map lower (r :: rs))). lra. }
  eexists. split; [reflexivity |]. split.
  - rewrite min_one_Qmin, Hm. reflexivity.
  - apply min_one_between. exact Hnn.
Qed.

(** C3, amended. The education score is 1 when the job lists no education
    and 0 when the job does and the resume does not.  Otherwise every job
    phrase is scanned against the resume phrases in their order: each
    resume phrase that shares a degree-level keyword with it and comes
    before the first substring match adds half a point, and that match, if
    there is one, adds 1; the points of all job phrases are summed, divided
    by the number of job phrases and capped at 1.  The score lies between 0
    and 1. *)
Theorem education_score_accumulates_points (job_education resume_education : list string) :
  calculate_education_match [] resume_education = Ok (PFin 1)
  /\ (job_education = [] \/ calculate_education_match job_education [] = Ok (PFin 0))
  /\ exists q : Q,
       calculate_education_match job_education resume_education = Ok (PFin q)
       /\ q == spec_education_score job_education resume_education
       /\ 0 <= q <= 1.
Proof.
  split; [reflexivity |].
  split; [destruct job_education; [left | right]; reflexivity |].
  apply education_match_spec.
Qed.

(** C3 as stated fails: against three resume phrases that each share a
    keyword with it, without any substring match, the first job phrase
    earns three half points, and the score is 3/4 where the claim gives
    1/4. *)
Lemma education_score_not_capped_per_phrase :
  education_scan "bachelor degree" ["bachelor of arts"; "master degree"; "degree in law"] 0
  == 3 # 2
  /\ claimed_education_score ["bachelor degree"; "phd"]
       ["bachelor of arts"; "master degree"; "degree in law"] == 1 # 4
  /\ exists q : Q,
       calculate_education_match ["bachelor degree"; "phd"]
         ["bachelor of arts"; "master degree"; "degree in law"] = Ok (PFin q)
       /\ q == 3 # 4
       /\ ~ q == claimed_education_score ["bachelor degree"; "phd"]
                   ["bachelor of arts"; "master degree"; "degree in law"].
Proof.
  split; [vm_compute; reflexivity |].
  split; [vm_compute; reflexivity |].
  eexists. split; [vm_compute; reflexivity |].
  split; [vm_compute; reflexivity | vm_compute; discriminate].
Qed.

(** ** Every scorer returns a score between 0 and 1 *)

Lemma skills_match_unit (job_skills resume_skills : list string) :
  unit_score (calculate_skills_match job_skills resume_skills).
Proof.
  exists (spec_skills_score job_skills resume_skills).
  split; [apply skills_match_spec | apply spec_skills_score_between].
Qed.

Lemma education_match_unit (job_education resume_education : list string) :
  unit_score (calculate_education_match job_education resume_education).
Proof.
  destruct (education_match_spec job_education resume_education) as (q & E & _ & B).
  exists q. split; assumption.
Qed.

Lemma experience_match_unit (job_experience resume_experience : list string) :
  unit_score (calculate_experience_match job_experience resume_experience).
Proof.
  unfold unit_score, calculate_experience_match.
  destruct job_experience as [| j js];
    [exists 1; split; [reflexivity | split; discriminate] |].
  destruct resume_experience as [| r rs];
    [exists 0; split; [reflexivity | split; discriminate] |].
  pose proof (collect_years_nonneg (map lower (r :: rs))) as Hnn.
  assert (Hfallback :
    exists q : Q,
      (q0 <- py_truediv
               (count_Q (experience_loop (map lower (j :: js)) (map lower (r :: rs)) 0))
               (len (j :: js)) ;;
       Ok (py_min (PFin 1) q0)) = Ok (PFin q) /\ 0 <= q <= 1).
  { rewrite py_truediv_pos by apply len_cons_pos. cbn [bind]. rewrite py_min_one.
    eexists. split; [reflexivity |]. apply min_one_between.
    apply Qle_shift_div_l.
    - change 0 with (inject_Z 0). rewrite <- Zlt_Qlt. apply len_cons_pos.
    - rewrite Qmult_0_l. apply count_Q_nonneg. }
  destruct (collect_years (map lower (j :: js))) as [| y ys]; [exact Hfallback |].
  destruct (collect_years (map lower (r :: rs))) as [| z zs]; [exact Hfallback |].
  cbn [py_max_ints bind].
  destruct (fold_left_max_is_max zs z) as [Hin _].
  rewrite Forall_forall in Hnn. specialize (Hnn _ Hin).
  destruct (fold_left Z.max zs z >=? fold_left Z.max ys y)%Z eqn:E;
    [exists 1; split; [reflexivity | split; discriminate] |].
  rewrite Z.geb_leb in E. apply Z.leb_gt in E.
  rewrite py_truediv_pos by lia.
  eexists. split; [reflexivity |]. apply fraction_between.
  - change 0 with (inject_Z 0). rewrite <- Zle_Qle. exact Hnn.
  - rewrite <- Zle_Qle. lia.
  - change 0 with (inject_Z 0). rewrite <- Zlt_Qlt. lia.
Qed.

(** ** Similarity *)

(** Whatever the quotient is, a number, an infinity or NaN, clamping it
    gives a number between 0 and 1. *)
Lemma clamp_unit (x : pyfloat) :
  exists q : Q, py_max (PFin 0) (py_min (PFin 1) x) = PFin q /\ 0 <= q <= 1.
Proof.
  destruct x as [a | neg |].
  - rewrite py_min_one. destruct (Qltb a 1) eqn:E1.
    + unfold py_max. cbn [pf_ltb]. destruct (Qltb 0 a) eqn:E0.
      * exists a. apply Qltb_lt in E0, E1.
        split; [reflexivity | split; apply Qlt_le_weak; assumption].
      * exists 0. split; [reflexivity | split; discriminate].
    + exists 1. split; [reflexivity | split; discriminate].
  - destruct neg.
    + exists 0. split; [reflexivity | split; discriminate].
    + exists 1. split; [reflexivity | split; discriminate].
  - exists 1. split; [reflexivity | split; discriminate].
Qed.

Lemma np_dot_same_shape (a b : list pyfloat) :
  List.length a = List.length b -> np_dot a b = Ok (dot_from a b (PFin 0)).
Proof. intro H. unfold np_dot. rewrite H, Nat.eqb_refl. reflexivity. Qed.

Lemma np_all_zero_zeros (n : nat) : np_all_zero (np_zeros n) = true.
Proof. induction n as [| n IH]; [reflexivity | exact IH]. Qed.

Lemma similarity_zero `{Numpy} (embedding1 embedding2 : list pyfloat) :
  np_all_zero embedding1 || np_all_zero embedding2 = true ->
  calculate_similarity embedding1 embedding2 = Ok (PFin 0).
Proof. intro Hz. unfold calculate_similarity. rewrite Hz. reflexivity. Qed.

Lemma similarity_unit `{Numpy} (embedding1 embedding2 : list pyfloat) :
  np_all_zero embedding1 || np_all_zero embedding2 = true
  \/ List.length embedding1 = List.length embedding2 ->
  unit_score (calculate_similarity embedding1 embedding2).
Proof.
  intro Hshape. unfold unit_score, calculate_similarity.
  destruct (np_all_zero embedding1 || np_all_zero embedding2) eqn:Hz.
  - exists 0. split; [reflexivity | split; discriminate].
  - destruct Hshape as [Habs | Hlen]; [discriminate |].
    rewrite (np_dot_same_shape _ _ Hlen). cbn [bind].
    destruct (clamp_unit
                (np_div (dot_from embedding1 embedding2 (PFin 0))
                        (pf_mul (np_linalg_norm embedding1)
                                (np_linalg_norm embedding2)))) as (q & E & B).
    exists q. rewrite E. split; [reflexivity | exact B].
Qed.

(** C6. Whatever numpy's norm returns, the similarity of two vectors of
    one shape is a number between 0 and 1; when one of the vectors is
    entirely zero, of whatever shape, it is 0 and nothing is divided, all
    zeros against all zeros included. *)
Theorem similarity_between_0_and_1 `{Numpy} (embedding1 embedding2 : list pyfloat) :
  np_all_zero embedding1 || np_all_zero embedding2 = true
  \/ List.length embedding1 = List.length embedding2 ->
  (exists q : Q,
      calculate_similarity embedding1 embedding2 = Ok (PFin q) /\ 0 <= q <= 1)
  /\ (np_all_zero embedding1 || np_all_zero embedding2 = true ->
      calculate_similarity embedding1 embedding2 = Ok (PFin 0))
  /\ (forall n m : nat, calculate_similarity (np_zeros n) (np_zeros m) = Ok (PFin 0)).
Proof.
  intro Hshape. split; [| split].
  - apply similarity_unit. exact Hshape.
  - apply similarity_zero.
  - intros n m. apply similarity_zero. rewrite np_all_zero_zeros. reflexivity.
Qed.

(** The theorem with the sample norm, at two vectors with a common entry. *)
Lemma similarity_between_0_and_1_witness :
  (exists q : Q,
      @calculate_similarity sample_numpy [PFin 1; PFin 0; PFin 2] [PFin 0; PFin 3; PFin 1]
      = Ok (PFin q) /\ 0 <= q <= 1)
  /\ (np_all_zero [PFin 1; PFin 0; PFin 2] || np_all_zero [PFin 0; PFin 3; PFin 1] = true ->
      @calculate_similarity sample_numpy [PFin 1; PFin 0; PFin 2] [PFin 0; PFin 3; PFin 1]
      = Ok (PFin 0))
  /\ (forall n m : nat,
        @calculate_similarity sample_numpy (np_zeros n) (np_zeros m) = Ok (PFin 0)).
Proof.
  apply (@similarity_between_0_and_1 sample_numpy
           [PFin 1; PFin 0; PFin 2] [PFin 0; PFin 3; PFin 1]).
  right. reflexivity.
Defined.

(** ** The sort *)


Lemma pf_geb_fin (a b : Q) : pf_geb (PFin a) (PFin b) = true <-> b <= a.
Proof.
  unfold pf_geb. cbn [pf_ltb pf_eqb]. rewrite orb_true_iff, Qltb_lt, Qeq_bool_iff.
  split; [intros [H | H]; lra |].
  intro H. destruct (Qlt_le_dec b a) as [L | L]; [left; exact L | right; lra].
Qed.

Section Sorting.

Context {A : Type} (key : A -> pyfloat).

Lemma insert_by_perm (x : A) (l : list A) : Permutation (insert_by key x l) (x :: l).
Proof.
  induction l as [| y l IH]; simpl; [apply Permutation_refl |].
  destruct (pf_ltb (key y) (key x)); [| apply Permutation_refl].
  apply perm_trans with (y :: x :: l); [apply perm_skip; exact IH | apply perm_swap].
Qed.

Lemma stable_sort_perm (l : list A) : Permutation (stable_sort key l) l.
Proof.
  induction l as [| x l IH]; simpl; [apply perm_nil |].
  apply perm_trans with (x :: stable_sort key l);
    [apply insert_by_perm | apply perm_skip; exact IH].
Qed.

Lemma list_sort_perm (reverse : bool) (l : list A) :
  Permutation (list_sort key reverse l) l.
Proof.
  unfold list_sort. destruct reverse; [| apply stable_sort_perm].
  apply perm_trans with (stable_sort key (rev l));
    [apply Permutation_sym, Permutation_rev |].
  apply perm_trans with (rev l);
    [apply stable_sort_perm | apply Permutation_sym, Permutation_rev].
Qed.

Lemma insert_by_sorted (x : A) (l : list A) :
  finite_key key x -> Forall (finite_key key) l ->
  StronglySorted (ascending_by key) l -> StronglySorted (ascending_by key) (insert_by key x l).
Proof.
  intros [qx Hx] Hfin Hs. induction Hs as [| y l Hs IH Hy]; simpl.
  - constructor; constructor.
  - inversion Hfin as [| y' l' [qy Hqy] Hfl]; subst.
    destruct (pf_ltb (key y) (key x)) eqn:E.
    + constructor; [apply IH; exact Hfl |].
      apply (Permutation_Forall (Permutation_sym (insert_by_perm x l))).
      constructor; [| exact Hy].
      unfold ascending_by. rewrite Hx, Hqy in *. cbn [pf_ltb] in E.
      apply Qltb_lt in E. apply pf_geb_fin. lra.
    + assert (Hxy : ascending_by key x y).
      { unfold ascending_by. rewrite Hx, Hqy in *. cbn [pf_ltb] in E.
        apply Qltb_ge in E. apply pf_geb_fin. exact E. }
      constructor; [constructor; assumption |].
      constructor; [exact Hxy |].
      rewrite Forall_forall in Hy, Hfl |- *. intros z Hz.
      destruct (Hfl z Hz) as [qz Hqz]. specialize (Hy z Hz).
      unfold ascending_by in *. rewrite Hx, Hqy, Hqz in *.
      apply pf_geb_fin in Hxy, Hy. apply pf_geb_fin. lra.
Qed.

Lemma stable_sort_sorted (l : list A) :
  Forall (finite_key key) l -> StronglySorted (ascending_by key) (stable_sort key l).
Proof.
  induction 1 as [| x l Hx Hl IH]; simpl; [constructor |].
  apply insert_by_sorted; [exact Hx | | exact IH].
  apply (Permutation_Forall (Permutation_sym (stable_sort_perm l))). exact Hl.
Qed.

Lemma sorted_snoc (R : A -> A -> Prop) (l : list A) (x : A) :
  StronglySorted R l -> Forall (fun y => R y x) l -> StronglySorted R (l ++ [x]).
Proof.
  induction 1 as [| y l Hs IH Hy]; intro Hall; simpl.
  - constructor; constructor.
  - inversion Hall; subst. constructor; [apply IH; assumption |].
    apply Forall_app. split; [exact Hy | constructor; [assumption | constructor]].
Qed.

Lemma sorted_rev (R : A -> A -> Prop) (l : list A) :
  StronglySorted R l -> StronglySorted (fun a b => R b a) (rev l).
Proof.
  induction 1 as [| y l Hs IH Hy]; simpl; [constructor |].
  apply sorted_snoc; [exact IH |].
  apply Forall_rev. exact Hy.
Qed.

(** With [reverse=True] the keys come out in descending order. *)
Lemma list_sort_descending (l : list A) :
  Forall (finite_key key) l ->
  StronglySorted (fun a b => pf_geb (key a) (key b) = true) (list_sort key true l).
Proof.
  intro Hfin. unfold list_sort.
  apply (sorted_rev (ascending_by key)). apply stable_sort_sorted.
  apply Forall_rev. exact Hfin.
Qed.




End Sorting.

(** ** Ranking *)

(** ** The arithmetic of the scores *)

Lemma double_nonneg (q : Q) : 0 <= q -> 0 <= double q.
Proof. intro H. change 0 with (double 0). apply double_mono. exact H. Qed.

Lemma double_le_one (q : Q) : q <= 1 -> double q <= 1.
Proof. intro H. change 1 with (double 1). apply double_mono. exact H. Qed.

Lemma pow2_1024_large : 1000 < pow2 1024.
Proof.
  apply Qlt_le_trans with (pow2 10); [reflexivity | apply pow2_le; lia].
Qed.

Lemma round64_small (q : Q) :
  0 <= q <= 1000 -> round64 q = PFin (double q).
Proof.
  intro Hq. apply (round64_between 0 1000 q).
  - reflexivity.
  - reflexivity.
  - apply Qlt_trans with (- (1000)); [| reflexivity].
    apply Qopp_lt_compat, pow2_1024_large.
  - apply pow2_1024_large.
  - exact Hq.
Qed.

(** A product and a sum of non-negative numbers that stay below 1000 are
    finite doubles. *)
Lemma pf_mul_fin (a b : Q) :
  0 <= a -> 0 <= b -> double a * double b <= 1000 ->
  pf_mul (PFin a) (PFin b) = PFin (double (double a * double b)).
Proof.
  intros Ha Hb Hhi. cbn [pf_mul]. apply round64_small. split; [| exact Hhi].
  apply Qmult_le_0_compat; apply double_nonneg; assumption.
Qed.

Lemma pf_add_fin (a b : Q) :
  0 <= a -> 0 <= b -> double a + double b <= 1000 ->
  pf_add (PFin a) (PFin b) = PFin (double (double a + double b)).
Proof.
  intros Ha Hb Hhi. cbn [pf_add]. apply round64_small. split; [| exact Hhi].
  pose proof (double_nonneg a Ha). pose proof (double_nonneg b Hb). lra.
Qed.

(** A score between 0 and 1 times a weight between 0 and 1. *)
Lemma weighted_between (q w : Q) :
  0 <= q <= 1 -> 0 <= w <= 1 ->
  0 <= double (double q * double w) <= 1.
Proof.
  intros [Q0 Q1] [W0 W1].
  pose proof (double_nonneg q Q0). pose proof (double_le_one q Q1).
  pose proof (double_nonneg w W0). pose proof (double_le_one w W1).
  split; [apply double_nonneg; nra | apply double_le_one; nra].
Qed.

Lemma percent_mono (a b : Q) : a <= b -> percent a <= percent b.
Proof.
  intro H. unfold percent. apply double_mono.
  apply Qmult_le_compat_r; [apply double_mono; exact H | discriminate].
Qed.

Lemma percent_between (q : Q) : 0 <= q <= 1 -> 0 <= percent q <= 100.
Proof.
  intros [H0 H1]. split.
  - change 0 with (percent 0). apply percent_mono. exact H0.
  - change 100 with (percent 1). apply percent_mono. exact H1.
Qed.

Lemma percent_zero (q : Q) : percent q == 0 <-> q == 0.
Proof.
  unfold percent. split.
  - intro H. apply double_eq_zero in H. apply double_eq_zero.
    change (double 100) with 100 in H. nra.
  - intro H. rewrite (double_zero q H). reflexivity.
Qed.

Lemma pf_mul_percent (q : Q) :
  0 <= q <= 1 -> pf_mul (PFin q) (PFin 100) = PFin (percent q).
Proof.
  intros [H0 H1]. apply pf_mul_fin; [exact H0 | discriminate |].
  pose proof (double_nonneg q H0). pose proof (double_le_one q H1).
  change (double 100) with 100. nra.
Qed.

(** The weighted percentage grows with each of the four scores. *)
Lemma weighted_percentage_mono (s k e x s' k' e' x' : Q) :
  s <= s' -> k <= k' -> e <= e' -> x <= x' ->
  weighted_percentage s k e x <= weighted_percentage s' k' e' x'.
Proof.
  intros Hs Hk He Hx. unfold weighted_percentage.
  assert (Hw : forall a b w : Q,
             a <= b -> 0 <= double w ->
             double (double a * double w) <= double (double b * double w)).
  { intros a b w Hab Hw. apply double_mono.
    apply Qmult_le_compat_r; [apply double_mono; exact Hab | exact Hw]. }
  apply percent_mono. apply double_mono. apply Qplus_le_compat.
  - apply double_mono. apply Qplus_le_compat.
    + apply double_mono. apply Qplus_le_compat; apply Hw; try assumption;
        apply double_nonneg; discriminate.
    + apply Hw; [exact He | apply double_nonneg; discriminate].
  - apply Hw; [exact Hx | apply double_nonneg; discriminate].
Qed.

Lemma weighted_percentage_between (s k e x : Q) :
  0 <= s <= 1 -> 0 <= k <= 1 -> 0 <= e <= 1 -> 0 <= x <= 1 ->
  0 <= weighted_percentage s k e x <= 100.
Proof.
  intros Hs Hk He Hx. split.
  - change 0 with (weighted_percentage 0 0 0 0).
    apply weighted_percentage_mono; tauto.
  - assert (E : weighted_percentage 1 1 1 1 = 100) by (vm_compute; reflexivity).
    rewrite <- E. apply weighted_percentage_mono; tauto.
Qed.

(** The weighted sum of the code is the weighted percentage. *)
Lemma overall_weighted_percentage (s k e x : Q) :
  0 <= s <= 1 -> 0 <= k <= 1 -> 0 <= e <= 1 -> 0 <= x <= 1 ->
  overall (PFin s) (PFin k) (PFin e) (PFin x) = PFin (weighted_percentage s k e x).
Proof.
  intros Hs Hk He Hx. unfold overall, weighted_percentage.
  assert (Ba := weighted_between s (2 # 5) Hs ltac:(split; discriminate)).
  assert (Bb := weighted_between k (3 # 10) Hk ltac:(split; discriminate)).
  assert (Bc := weighted_between e (3 # 20) He ltac:(split; discriminate)).
  assert (Bd := weighted_between x (3 # 20) Hx ltac:(split; discriminate)).
  set (a := double (double s * double (2 # 5))) in *.
  set (b := double (double k * double (3 # 10))) in *.
  set (c := double (double e * double (3 # 20))) in *.
  set (d := double (double x * double (3 # 20))) in *.
  assert (Ia : double a = a) by apply double_idem.
  assert (Ib : double b = b) by apply double_idem.
  assert (Ic : double c = c) by apply double_idem.
  assert (Id : double d = d) by apply double_idem.
  assert (Hsmall : forall q w : Q,
             0 <= q <= 1 -> 0 <= w <= 1 -> double q * double w <= 1000).
  { intros q w [Q0 Q1] [W0 W1].
    pose proof (double_nonneg q Q0). pose proof (double_le_one q Q1).
    pose proof (double_nonneg w W0). pose proof (double_le_one w W1). nra. }
  assert (Ea : pf_mul (PFin s) (PFin (2 # 5)) = PFin a).
  { apply pf_mul_fin; [tauto | discriminate |].
    apply Hsmall; [exact Hs | split; discriminate]. }
  assert (Eb : pf_mul (PFin k) (PFin (3 # 10)) = PFin b).
  { apply pf_mul_fin; [tauto | discriminate |].
    apply Hsmall; [exact Hk | split; discriminate]. }
  assert (Ec : pf_mul (PFin e) (PFin (3 # 20)) = PFin c).
  { apply pf_mul_fin; [tauto | discriminate |].
    apply Hsmall; [exact He | split; discriminate]. }
  assert (Ed : pf_mul (PFin x) (PFin (3 # 20)) = PFin d).
  { apply pf_mul_fin; [tauto | discriminate |].
    apply Hsmall; [exact Hx | split; discriminate]. }
  rewrite Ea, Eb, Ec, Ed.
  assert (Bab : 0 <= double (a + b) <= 2).
  { split; [apply double_nonneg; lra |].
    change 2 with (double 2). apply double_mono. lra. }
  rewrite (pf_add_fin a b); [| tauto | tauto | rewrite Ia, Ib; lra].
  rewrite Ia, Ib. set (ab := double (a + b)) in *.
  assert (Iab : double ab = ab) by apply double_idem.
  assert (Babc : 0 <= double (ab + c) <= 3).
  { split; [apply double_nonneg; lra |].
    change 3 with (double 3). apply double_mono. lra. }
  rewrite (pf_add_fin ab c); [| tauto | tauto | rewrite Iab, Ic; lra].
  rewrite Iab, Ic. set (abc := double (ab + c)) in *.
  assert (Iabc : double abc = abc) by apply double_idem.
  assert (Babcd : 0 <= double (abc + d) <= 4).
  { split; [apply double_nonneg; lra |].
    change 4 with (double 4). apply double_mono. lra. }
  rewrite (pf_add_fin abc d); [| tauto | tauto | rewrite Iabc, Id; lra].
  rewrite Iabc, Id. set (total := double (abc + d)) in *.
  assert (It : double total = total) by apply double_idem.
  rewrite (pf_mul_fin total 100); [reflexivity | tauto | discriminate |].
  rewrite It. change (double 100) with 100. lra.
Qed.

Lemma rank_one_spec `{Numpy} (job_description : JobDescription) (resume : Resume) :
  comparable (jd_embedding job_description) (embedding resume) ->
  exists (similarity skills_part education_part experience_part : Q)
         (entry : RankedResume),
    calculate_similarity (jd_embedding job_description) (embedding resume)
    = Ok (PFin similarity)
    /\ calculate_skills_match (skills (jd_entities job_description))
                              (skills (entities resume)) = Ok (PFin skills_part)
    /\ calculate_education_match (education (jd_entities job_description))
                                 (education (entities resume)) = Ok (PFin education_part)
    /\ calculate_experience_match (experience (jd_entities job_description))
                                  (experience (entities resume))
       = Ok (PFin experience_part)
    /\ (0 <= similarity <= 1 /\ 0 <= skills_part <= 1
        /\ 0 <= education_part <= 1 /\ 0 <= experience_part <= 1)
    /\ rank_one job_description resume = Ok entry
    /\ match_score entry
       = PFin (weighted_percentage similarity skills_part education_part
                                   experience_part)
    /\ skills_score entry = PFin (percent skills_part)
    /\ education_score entry = PFin (percent education_part)
    /\ experience_score entry = PFin (percent experience_part)
    /\ ranked_filename entry = filename resume.
Proof.
  intro Hshape.
  destruct (similarity_unit _ _ Hshape) as (sim & Esim & Bsim).
  destruct (skills_match_unit (skills (jd_entities job_description))
                              (skills (entities resume))) as (sk & Esk & Bsk).
  destruct (education_match_unit (education (jd_entities job_description))
                                 (education (entities resume))) as (ed & Eed & Bed).
  destruct (experience_match_unit (experience (jd_entities job_description))
                                  (experience (entities resume))) as (ex & Eex & Bex).
  exists sim, sk, ed, ex. unfold rank_one. rewrite Esim, Esk, Eed, Eex. cbn [bind].
  rewrite (overall_weighted_percentage sim sk ed ex Bsim Bsk Bed Bex).
  rewrite (pf_mul_percent sk Bsk), (pf_mul_percent ed Bed), (pf_mul_percent ex Bex).
  eexists. repeat split; try reflexivity; tauto.
Qed.

Lemma rank_one_percentage `{Numpy} (job_description : JobDescription) (resume : Resume) :
  comparable (jd_embedding job_description) (embedding resume) ->
  exists entry : RankedResume,
    rank_one job_description resume = Ok entry
    /\ pf_between 0 100 (match_score entry).
Proof.
  intro Hshape.
  destruct (rank_one_spec job_description resume Hshape)
    as (sim & sk & ed & ex & entry & _ & _ & _ & _ & B & E & Em & _).
  exists entry. split; [exact E |]. rewrite Em. cbn [pf_between].
  apply weighted_percentage_between; tauto.
Qed.

Lemma rank_loop_scored `{Numpy} (job_description : JobDescription)
    (parsed_resumes : list Resume) :
  well_shaped job_description parsed_resumes ->
  exists entries : list RankedResume,
    rank_loop job_description parsed_resumes = Ok entries
    /\ scored_in_order job_description parsed_resumes entries
    /\ Forall (fun entry => pf_between 0 100 (match_score entry)) entries.
Proof.
  induction 1 as [| resume rest Hr Hrest IH].
  - exists []. split; [reflexivity | split; constructor].
  - destruct IH as (entries & E & Hs & Hb).
    destruct (rank_one_percentage job_description resume Hr) as (entry & E1 & B1).
    exists (entry :: entries). cbn [rank_loop]. rewrite E1, E. cbn [bind].
    split; [reflexivity | split; constructor; assumption].
Qed.

Lemma between_finite (lo hi : Q) (x : pyfloat) :
  pf_between lo hi x -> exists q : Q, x = PFin q.
Proof. destruct x as [q | |]; cbn; [exists q; reflexivity | tauto | tauto]. Qed.

Lemma rank_resumes_sorts `{Numpy} (job_description : JobDescription)
    (parsed_resumes : list Resume) (entries : list RankedResume) :
  rank_loop job_description parsed_resumes = Ok entries ->
  rank_resumes (Some job_description) parsed_resumes
  = Ok (list_sort match_score true entries).
Proof.
  intro E. unfold rank_resumes. destruct parsed_resumes as [| r rs].
  - cbn in E. injection E as <-. reflexivity.
  - rewrite E. reflexivity.
Qed.




Lemma scored_in_order_length `{Numpy} (job_description : JobDescription)
    (parsed_resumes : list Resume) (entries : list RankedResume) :
  scored_in_order job_description parsed_resumes entries ->
  List.length entries = List.length parsed_resumes.
Proof. intro Hs. symmetry. exact (Forall2_length Hs). Qed.

(** C2. Without a job description, or without resumes, the ranking is the
    empty list.  Otherwise, for resumes whose embeddings can be compared
    with that of the job, the ranking is a rearrangement of the entries
    computed for the resumes, one for each and so as many as there are
    resumes; it is in descending order of the overall score, and every
    overall score lies between 0 and 100. *)
Theorem rank_resumes_sorted_percentages `{Numpy}
    (job_description : JobDescription) (parsed_resumes : list Resume) :
  well_shaped job_description parsed_resumes ->
  rank_resumes None parsed_resumes = Ok []
  /\ rank_resumes (Some job_description) [] = Ok []
  /\ exists entries ranked : list RankedResume,
       scored_in_order job_description parsed_resumes entries
       /\ rank_resumes (Some job_description) parsed_resumes = Ok ranked
       /\ Permutation ranked entries
       /\ List.length ranked = List.length parsed_resumes
       /\ StronglySorted ranks_before ranked
       /\ Forall (fun entry => pf_between 0 100 (match_score entry)) ranked.
Proof.
  intro Hshape. split; [reflexivity | split; [reflexivity |]].
  destruct (rank_loop_scored job_description parsed_resumes Hshape)
    as (entries & E & Hs & Hb).
  exists entries, (list_sort match_score true entries).
  pose proof (list_sort_perm match_score true entries) as Hperm.
  split; [exact Hs |].
  split; [apply rank_resumes_sorts; exact E |].
  split; [exact Hperm |].
  split.
  - rewrite (Permutation_length Hperm). apply (scored_in_order_length _ _ _ Hs).
  - split.
    + apply list_sort_descending.
      apply Forall_impl with (2 := Hb). intros e He. exact (between_finite _ _ _ He).
    + apply (Permutation_Forall (Permutation_sym Hperm)). exact Hb.
Qed.

(** The theorem with the sample norm, at the sample job and resumes b, a
    and c. *)
Lemma rank_resumes_sorted_percentages_witness :
  @rank_resumes sample_numpy None [sample_resume_b; sample_resume_a; sample_resume_c]
  = Ok []
  /\ @rank_resumes sample_numpy (Some sample_job) [] = Ok []
  /\ exists entries ranked : list RankedResume,
       @scored_in_order sample_numpy sample_job
         [sample_resume_b; sample_resume_a; sample_resume_c] entries
       /\ @rank_resumes sample_numpy (Some sample_job)
            [sample_resume_b; sample_resume_a; sample_resume_c] = Ok ranked
       /\ Permutation ranked entries
       /\ List.length ranked
          = List.length [sample_resume_b; sample_resume_a; sample_resume_c]
       /\ StronglySorted ranks_before ranked
       /\ Forall (fun entry => pf_between 0 100 (match_score entry)) ranked.
Proof.
  apply (@rank_resumes_sorted_percentages sample_numpy sample_job
           [sample_resume_b; sample_resume_a; sample_resume_c]).
  unfold well_shaped.
  repeat (apply Forall_cons; [right; reflexivity |]). apply Forall_nil.
Defined.



(** The sample ranking: a first, then b and c in their input order. *)
Example sample_ranking :
  match @rank_resumes sample_numpy (Some sample_job)
          [sample_resume_b; sample_resume_a; sample_resume_c] with
  | Ok ranked => map ranked_filename ranked
  | Err _ => []
  end = ["a.pdf"; "b.pdf"; "c.pdf"].
Proof. vm_compute. reflexivity. Qed.

(** Two weighted sums that are both 45 as fractions and differ as doubles,
    as in Python: 44.99999999999999 and 45.00000000000001.  Entries with
    these scores are not tied. *)
Example equal_fractions_need_not_tie :
  overall (PFin 0) (PFin (1 # 2)) (PFin 1) (PFin 1)
  = PFin (6333186975989759 # 140737488355328)
  /\ overall (PFin (3 # 4)) (PFin (1 # 2)) (PFin 0) (PFin 0)
     = PFin (6333186975989761 # 140737488355328)
  /\ (0 * (2 # 5) + (1 # 2) * (3 # 10) + 1 * (3 # 20) + 1 * (3 # 20)) * 100 == 45
  /\ ((3 # 4) * (2 # 5) + (1 # 2) * (3 # 10) + 0 * (3 # 20) + 0 * (3 # 20)) * 100
     == 45.
Proof. repeat split; vm_compute; reflexivity. Qed.

(** ** The encoder *)

Lemma np_zeros_length (n : nat) : List.length (np_zeros n) = n.
Proof. apply repeat_length. Qed.

Lemma fit_to_384_length (embedding : list pyfloat) :
  List.length (fit_to_384 embedding) = 384%nat.
Proof.
  unfold fit_to_384.
  destruct (Nat.ltb_spec (List.length embedding) 384) as [Hlt | Hge].
  - rewrite length_app, np_zeros_length. lia.
  - destruct (Nat.ltb_spec 384 (List.length embedding)) as [Hgt | Hle].
    + rewrite length_firstn. lia.
    + lia.
Qed.

Lemma get_embedding_empty `{Sklearn} (vectorizer : option TfidfVectorizer) :
  get_embedding vectorizer EmptyString = (Some (ensure_loaded vectorizer), Ok (np_zeros 384)).
Proof. reflexivity. Qed.

Lemma get_embedding_nonempty `{Sklearn} (vectorizer : option TfidfVectorizer)
    (c : ascii) (s : string) :
  get_embedding vectorizer (String c s)
  = (Some (fst (encode_with (ensure_loaded vectorizer) (String c s))),
     try_except (snd (encode_with (ensure_loaded vectorizer) (String c s)))
                (fun _ => Ok (np_zeros 384))).
Proof.
  unfold get_embedding.
  destruct (encode_with (ensure_loaded vectorizer) (String c s)); reflexivity.
Qed.

Lemma encode_with_length `{Sklearn} (v : TfidfVectorizer) (text : string)
    (embedding : list pyfloat) :
  snd (encode_with v text) = Ok embedding -> List.length embedding = 384%nat.
Proof.
  unfold encode_with. destruct (vocabulary_ v) as [voc |].
  - cbn [snd]. destruct (transform voc text) as [e |]; cbn [bind]; [| discriminate].
    intro E. injection E as <-. apply fit_to_384_length.
  - destruct (fit_transform text) as [[voc e] |]; cbn [snd]; [| discriminate].
    intro E. injection E as <-. apply fit_to_384_length.
Qed.

Lemma fit_to_384_padded (row : list pyfloat) :
  fit_to_384 row = padded_or_truncated row.
Proof.
  unfold fit_to_384, padded_or_truncated, np_zeros.
  destruct (List.length row <? 384)%nat eqn:E1.
  - apply Nat.ltb_lt in E1. rewrite firstn_all2 by lia. reflexivity.
  - apply Nat.ltb_ge in E1.
    replace (384 - List.length row)%nat with 0%nat by lia.
    cbn [repeat]. rewrite app_nil_r.
    destruct (384 <? List.length row)%nat eqn:E2; [reflexivity |].
    apply Nat.ltb_ge in E2. rewrite firstn_all2 by lia. reflexivity.
Qed.

Lemma encode_with_row `{Sklearn} (v : TfidfVectorizer) (text : string) :
  snd (encode_with v text)
  = match encoded_row v text with
    | Ok row => Ok (padded_or_truncated row)
    | Err e => Err e
    end.
Proof.
  unfold encode_with, encoded_row. destruct (vocabulary_ v) as [voc |].
  - cbn [snd]. destruct (transform voc text) as [row | e]; cbn [bind];
      [rewrite fit_to_384_padded |]; reflexivity.
  - destruct (fit_transform text) as [[voc row] | e]; cbn [snd];
      [rewrite fit_to_384_padded |]; reflexivity.
Qed.

(** C7. Encoding never raises: for every state of the vectorizer the empty
    text is encoded as the zero vector of dimension 384 and every text is
    encoded as some vector of exactly 384 dimensions.  For a text that is
    not empty this vector is the row that the vectorizer returns for it,
    cut to its first 384 entries or padded with zeros up to 384, and when
    the vectorizer raises it is the zero vector of dimension 384. *)
Theorem get_embedding_never_raises `{Sklearn}
    (vectorizer : option TfidfVectorizer) (text : string) :
  snd (get_embedding vectorizer EmptyString) = Ok (np_zeros 384)
  /\ List.length (np_zeros 384) = 384%nat
  /\ np_zeros 384 = repeat (PFin 0) 384
  /\ exists embedding : list pyfloat,
       snd (get_embedding vectorizer text) = Ok embedding
       /\ List.length embedding = 384%nat
       /\ (forall e : exn,
             snd (encode_with (ensure_loaded vectorizer) text) = Err e ->
             embedding = np_zeros 384)
       /\ match encoded_row (ensure_loaded vectorizer) text with
          | Ok row =>
              text <> EmptyString ->
              embedding = (firstn 384 row
                           ++ repeat (PFin 0) (384 - List.length row))%list
              /\ (forall i : nat,
                     (i < 384)%nat ->
                     nth i embedding (PFin 0) = nth i row (PFin 0))
          | Err _ => embedding = np_zeros 384
          end.
Proof.
  split; [reflexivity | split; [apply np_zeros_length | split; [reflexivity |]]].
  destruct text as [| c s].
  - exists (np_zeros 384). rewrite get_embedding_empty. cbn [snd].
    split; [reflexivity | split; [apply np_zeros_length | split; [reflexivity |]]].
    destruct (encoded_row _ _); [intro Hne; contradiction | reflexivity].
  - rewrite get_embedding_nonempty. cbn [snd].
    pose proof (encode_with_row (ensure_loaded vectorizer) (String c s)) as Hrow.
    destruct (snd (encode_with (ensure_loaded vectorizer) (String c s)))
      as [embedding | e] eqn:E; cbn [try_except].
    + exists embedding. split; [reflexivity |].
      split; [exact (encode_with_length _ _ _ E) |]. split; [discriminate |].
      destruct (encoded_row (ensure_loaded vectorizer) (String c s)) as [row | e];
        [| discriminate].
      injection Hrow as ->. intros _. split; [reflexivity |].
      intros i Hi. unfold padded_or_truncated.
      destruct (Nat.lt_ge_cases i (List.length row)) as [Hlt | Hge].
      * rewrite app_nth1 by (rewrite length_firstn; lia).
        rewrite nth_firstn. destruct (i <? 384)%nat eqn:Ei;
          [reflexivity | apply Nat.ltb_ge in Ei; lia].
      * rewrite (nth_overflow row) by lia.
        destruct (Nat.lt_ge_cases i (List.length (firstn 384 row))) as [H1 | H1].
        -- rewrite length_firstn in H1. lia.
        -- rewrite app_nth2 by exact H1. apply nth_repeat.
    + exists (np_zeros 384).
      split; [reflexivity | split; [apply np_zeros_length | split; [reflexivity |]]].
      destruct (encoded_row (ensure_loaded vectorizer) (String c s)) as [row | e'];
        [discriminate | reflexivity].
Qed.

Lemma fitted_vocabulary_step `{Sklearn} (vectorizer : option TfidfVectorizer)
    (text : string) :
  fitted_vocabulary (fst (get_embedding vectorizer text))
  = match fitted_vocabulary vectorizer with
    | Some voc => Some voc
    | None => try_fit text
    end.
Proof.
  destruct text as [| c s].
  - rewrite get_embedding_empty. cbn [fst fitted_vocabulary try_fit].
    destruct vectorizer as [v |]; cbn; [destruct (vocabulary_ v) |]; reflexivity.
  - rewrite get_embedding_nonempty. cbn [fst fitted_vocabulary try_fit].
    unfold encode_with.
    assert (Hv : vocabulary_ (ensure_loaded vectorizer) = fitted_vocabulary vectorizer).
    { destruct vectorizer; reflexivity. }
    rewrite Hv. destruct (fitted_vocabulary vectorizer) as [voc |] eqn:Ef.
    + cbn [fst]. rewrite Hv. reflexivity.
    + destruct (fit_transform (String c s)) as [[voc e] |]; cbn [fst vocabulary_];
        [reflexivity | exact Hv].
Qed.

Lemma encoded_when_fitted `{Sklearn} (vectorizer : option TfidfVectorizer)
    (voc : vocabulary) (text : string) :
  fitted_vocabulary vectorizer = Some voc ->
  snd (get_embedding vectorizer text) = encoded_against voc text.
Proof.
  intro Hf. destruct text as [| c s]; [reflexivity |].
  rewrite get_embedding_nonempty. cbn [snd encoded_against]. unfold encode_with.
  assert (Hv : vocabulary_ (ensure_loaded vectorizer) = Some voc).
  { destruct vectorizer; [exact Hf | discriminate]. }
  rewrite Hv. cbn [snd]. destruct (transform voc (String c s)); reflexivity.
Qed.

Lemma encode_all_vocabulary `{Sklearn} (texts : list string)
    (vectorizer : option TfidfVectorizer) :
  fitted_vocabulary (fst (encode_all vectorizer texts))
  = match fitted_vocabulary vectorizer with
    | Some voc => Some voc
    | None => first_fit texts
    end.
Proof.
  revert vectorizer. induction texts as [| text rest IH]; intro vectorizer.
  - cbn. destruct (fitted_vocabulary vectorizer); reflexivity.
  - cbn [encode_all first_fit].
    destruct (get_embedding vectorizer text) as [vectorizer' r] eqn:E.
    specialize (IH vectorizer').
    destruct (encode_all vectorizer' rest) as [final rs]. cbn [fst] in *.
    rewrite IH. pose proof (fitted_vocabulary_step vectorizer text) as Hstep.
    rewrite E in Hstep. cbn [fst] in Hstep. rewrite Hstep.
    destruct (fitted_vocabulary vectorizer); [reflexivity |].
    destruct (try_fit text); reflexivity.
Qed.

Lemma encode_all_results_when_fitted `{Sklearn} (texts : list string)
    (vectorizer : option TfidfVectorizer) (voc : vocabulary) :
  fitted_vocabulary vectorizer = Some voc ->
  snd (encode_all vectorizer texts) = map (encoded_against voc) texts.
Proof.
  revert vectorizer. induction texts as [| text rest IH]; intros vectorizer Hf;
    [reflexivity |].
  cbn [encode_all map].
  pose proof (encoded_when_fitted vectorizer voc text Hf) as Hr.
  pose proof (fitted_vocabulary_step vectorizer text) as Hstep. rewrite Hf in Hstep.
  destruct (get_embedding vectorizer text) as [vectorizer' r]. cbn [fst snd] in *.
  specialize (IH vectorizer' Hstep).
  destruct (encode_all vectorizer' rest) as [final rs]. cbn [snd] in *.
  rewrite Hr, IH. reflexivity.
Qed.

Lemma fit_count_fitted `{Sklearn} (texts : list string)
    (vectorizer : option TfidfVectorizer) :
  is_fitted vectorizer = true -> fit_count vectorizer texts = 0%nat.
Proof.
  revert vectorizer. induction texts as [| text rest IH]; intros vectorizer Hf;
    [reflexivity |].
  cbn [fit_count]. unfold fits. rewrite Hf. cbn [negb andb].
  apply IH. unfold is_fitted in *. rewrite fitted_vocabulary_step.
  destruct (fitted_vocabulary vectorizer); [reflexivity | discriminate].
Qed.

Lemma fit_count_at_most_one `{Sklearn} (texts : list string)
    (vectorizer : option TfidfVectorizer) :
  (fit_count vectorizer texts <= 1)%nat.
Proof.
  revert vectorizer. induction texts as [| text rest IH]; intro vectorizer;
    cbn [fit_count]; [lia |].
  destruct (fits vectorizer text) eqn:E; [| apply IH].
  unfold fits in E. apply andb_prop in E. destruct E as [_ E].
  rewrite (fit_count_fitted rest _ E). lia.
Qed.

(** C8, amended. In every session the vocabulary is fitted by the first
    document that is not empty and on which fitting succeeds, which need
    not be the first document encoded; when fitting succeeds on a non-empty
    first document it is that one.  A call fits exactly when the vectorizer
    is unfitted and the text fits a vocabulary, so at most one call of a
    session does.  Once there is a vocabulary every later call keeps it and
    encodes its document against it, without fitting again. *)
Theorem vocabulary_fitted_by_first_fitting_document `{Sklearn}
    (vectorizer : option TfidfVectorizer) (text : string) (texts : list string) :
  fitted_vocabulary (fst (encode_all None texts)) = first_fit texts
  /\ (forall (voc : vocabulary) (embedding : list pyfloat) (c : ascii) (s : string),
        fit_transform (String c s) = Ok (voc, embedding) ->
        fitted_vocabulary (fst (encode_all None (String c s :: texts))) = Some voc)
  /\ fits vectorizer text
     = negb (is_fitted vectorizer)
       && match try_fit text with Some _ => true | None => false end
  /\ (fit_count None texts <= 1)%nat
  /\ (forall voc : vocabulary,
        fitted_vocabulary vectorizer = Some voc ->
        fitted_vocabulary (fst (encode_all vectorizer texts)) = Some voc
        /\ fit_count vectorizer texts = 0%nat
        /\ snd (encode_all vectorizer texts) = map (encoded_against voc) texts).
Proof.
  split; [apply (encode_all_vocabulary texts None) |].
  split.
  { intros voc embedding c s E.
    rewrite (encode_all_vocabulary (String c s :: texts) None).
    cbn [fitted_vocabulary first_fit try_fit]. rewrite E. reflexivity. }
  split.
  { unfold fits, is_fitted. rewrite fitted_vocabulary_step.
    destruct (fitted_vocabulary vectorizer); reflexivity. }
  split; [apply fit_count_at_most_one |].
  intros voc Hf. split; [| split].
  - rewrite encode_all_vocabulary, Hf. reflexivity.
  - apply fit_count_fitted. unfold is_fitted. rewrite Hf. reflexivity.
  - apply encode_all_results_when_fitted. exact Hf.
Qed.

(** C8 as stated fails: when the first document of a session is empty the
    first call fits nothing, and it is the second call that fits the
    vocabulary, from the second document. *)
Lemma empty_first_document_fits_nothing :
  @fits sample_sklearn None EmptyString = false
  /\ @fitted_vocabulary sample_sklearn (fst (@get_embedding sample_sklearn None EmptyString)) = None
  /\ @fits sample_sklearn (fst (@get_embedding sample_sklearn None EmptyString))
       "python developer" = true
  /\ @fitted_vocabulary sample_sklearn
       (fst (@encode_all sample_sklearn None [EmptyString; "python developer"]))
     = Some ["developer"; "python"].
Proof.
  split; [reflexivity | split; [reflexivity | split]]; vm_compute; reflexivity.
Qed.

(** ** Normalization *)

Lemma word_not_space (c : ascii) : is_word c = true -> is_space c = false.
Proof. destruct c as [[] [] [] [] [] [] [] []]; try reflexivity; discriminate. Qed.

Lemma space_not_word (c : ascii) : is_space c = true -> is_word c = false.
Proof. destruct c as [[] [] [] [] [] [] [] []]; try reflexivity; discriminate. Qed.

Lemma span_app (p : ascii -> bool) (s : string) :
  fst (span p s) ++ snd (span p s) = s.
Proof.
  induction s as [| c s IH]; [reflexivity |].
  cbn [span]. destruct (p c); [| reflexivity].
  destruct (span p s) as [a b]. cbn [fst snd] in *. cbn. rewrite IH. reflexivity.
Qed.

Lemma span_cons_true (p : ascii -> bool) (c : ascii) (s : string) :
  p c = true ->
  span p (String c s) = (String c (fst (span p s)), snd (span p s)).
Proof. intro H. cbn [span]. rewrite H. destruct (span p s); reflexivity. Qed.

Lemma span_cons_false (p : ascii -> bool) (c : ascii) (s : string) :
  p c = false -> span p (String c s) = (EmptyString, String c s).
Proof. intro H. cbn [span]. rewrite H. reflexivity. Qed.

(** Passing over a match: the search goes on behind it. *)
Lemma re_sub_skip (m : string -> option nat) (repl a b : string) :
  re_sub_from m repl (a ++ b) (String.length a) = re_sub_from m repl b 0.
Proof.
  induction a as [| c a IH]; [reflexivity |].
  cbn [String.append String.length re_sub_from]. exact IH.
Qed.

Lemma re_findall_skip (m : string -> option nat) (a b : string) :
  re_findall_from m (a ++ b) (String.length a) = re_findall_from m b 0.
Proof.
  induction a as [| c a IH]; [reflexivity |].
  cbn [String.append String.length re_findall_from]. exact IH.
Qed.

(** *** Replacing the special characters *)

Lemma special_words_and_spaces (s : string) :
  words_and_spaces (re_sub match_special " " s) = true.
Proof.
  unfold re_sub. induction s as [| c s IH]; [reflexivity |].
  cbn [re_sub_from match_special].
  destruct (is_word c || is_space c) eqn:E.
  - cbn [words_and_spaces]. rewrite E, IH. reflexivity.
  - cbn [pred String.append words_and_spaces]. rewrite IH. reflexivity.
Qed.

(** *** Collapsing the whitespace *)

Lemma match_spaces_space (c : ascii) (s : string) :
  is_space c = true ->
  match_spaces (String c s) = Some (S (String.length (fst (span is_space s)))).
Proof. intro E. unfold match_spaces. rewrite (span_cons_true _ _ _ E). reflexivity. Qed.

Lemma match_spaces_other (c : ascii) (s : string) :
  is_space c = false -> match_spaces (String c s) = None.
Proof. intro E. unfold match_spaces. rewrite (span_cons_false _ _ _ E). reflexivity. Qed.

Lemma collapse_both (s : string) :
  re_sub_from match_spaces " " s 0 = collapse_from s false
  /\ re_sub_from match_spaces " " s (String.length (fst (span is_space s)))
     = collapse_from s true.
Proof.
  induction s as [| c s [IH0 IH1]]; [split; reflexivity |].
  destruct (is_space c) eqn:E.
  - rewrite (span_cons_true _ _ _ E). cbn [fst String.length].
    split.
    + cbn [re_sub_from]. rewrite (match_spaces_space _ _ E).
      cbn [pred collapse_from]. rewrite E, IH1. reflexivity.
    + cbn [re_sub_from collapse_from]. rewrite E. exact IH1.
  - rewrite (span_cons_false _ _ _ E). cbn [fst String.length].
    assert (H0 : re_sub_from match_spaces " " (String c s) 0
                 = String c (collapse_from s false)).
    { cbn [re_sub_from]. rewrite (match_spaces_other _ _ E), IH0. reflexivity. }
    split; rewrite H0; cbn [collapse_from]; rewrite E; reflexivity.
Qed.

Lemma collapse_single_spaced (s : string) (after_space : bool) :
  words_and_spaces s = true ->
  single_spaced_from (collapse_from s after_space) after_space = true.
Proof.
  revert after_space. induction s as [| c s IH]; intros after_space H;
    [reflexivity |].
  cbn [words_and_spaces] in H. apply andb_prop in H. destruct H as [Hc Hs].
  cbn [collapse_from]. destruct (is_space c) eqn:E.
  - destruct after_space; [apply IH; exact Hs |].
    cbn. apply IH. exact Hs.
  - rewrite orb_false_r in Hc. cbn [single_spaced_from]. rewrite Hc.
    apply IH. exact Hs.
Qed.

(** *** Stripping *)

Lemma single_spaced_char (c : ascii) (s : string) (after_space : bool) :
  single_spaced_from (String c s) after_space = true ->
  (is_word c = true /\ single_spaced_from s false = true)
  \/ (c = " "%char /\ after_space = false /\ single_spaced_from s true = true).
Proof.
  cbn [single_spaced_from]. destruct (is_word c) eqn:E; [left; split; tauto |].
  intro H. apply andb_prop in H. destruct H as [H Hs].
  apply andb_prop in H. destruct H as [Hc Hp].
  right. apply Ascii.eqb_eq in Hc. apply negb_true_iff in Hp. tauto.
Qed.

Lemma lstrip_single_spaced (s : string) (after_space : bool) :
  single_spaced_from s after_space = true ->
  single_spaced_from (lstrip s) true = true.
Proof.
  revert after_space. induction s as [| c s IH]; intros after_space H;
    [reflexivity |].
  destruct (single_spaced_char _ _ _ H) as [[Hw Hs] | (-> & _ & Hs)].
  - cbn [lstrip]. rewrite (word_not_space _ Hw).
    cbn [single_spaced_from]. rewrite Hw. exact Hs.
  - cbn. apply (IH true). exact Hs.
Qed.

Lemma rstrip_spaced (s : string) (after_space : bool) :
  single_spaced_from s after_space = true ->
  rstrip s = EmptyString \/ spaced_from (rstrip s) (negb after_space) = true.
Proof.
  revert after_space. induction s as [| c s IH]; intros after_space H;
    [left; reflexivity |].
  destruct (single_spaced_char _ _ _ H) as [[Hw Hs] | (-> & -> & Hs)].
  - right. cbn [rstrip]. specialize (IH false Hs).
    destruct (rstrip s) as [| d r] eqn:Er.
    + rewrite (word_not_space _ Hw). cbn [spaced_from]. rewrite Hw. reflexivity.
    + destruct IH as [IH | IH]; [discriminate |].
      cbn [spaced_from]. rewrite Hw.
      cbn [negb] in IH. exact IH.
  - cbn [rstrip]. specialize (IH true Hs).
    destruct (rstrip s) as [| d r] eqn:Er; [left; reflexivity |].
    destruct IH as [IH | IH]; [discriminate |]. right.
    cbn [negb] in *. change (spaced_from (String " " (String d r)) true)
      with (true && true && spaced_from (String d r) false).
    rewrite IH. reflexivity.
Qed.

(** A cleaned text is empty or made of words separated by single spaces. *)
Lemma clean_text_spaced (t : string) : spaced (clean_text t) = true.
Proof.
  unfold clean_text, strip.
  set (x := re_sub match_special " " _).
  pose proof (special_words_and_spaces
                (re_sub match_phone EmptyString (re_sub match_email EmptyString
                   (re_sub match_url EmptyString (lower t))))) as Hx.
  fold x in Hx. unfold re_sub at 1. rewrite (proj1 (collapse_both x)).
  pose proof (collapse_single_spaced x false Hx) as Hc.
  pose proof (lstrip_single_spaced _ _ Hc) as Hl.
  destruct (rstrip_spaced _ _ Hl) as [E | E].
  - rewrite E. reflexivity.
  - unfold spaced. destruct (rstrip _); [reflexivity | exact E].
Qed.

(** *** The fallback tokenizer on a cleaned text *)

Lemma length_append (a b : string) :
  String.length (a ++ b) = (String.length a + String.length b)%nat.
Proof. induction a as [| c a IH]; [reflexivity |]. cbn. rewrite IH. reflexivity. Qed.

Lemma substring_prefix (a b : string) : substring 0 (String.length a) (a ++ b) = a.
Proof.
  induction a as [| c a IH]; [destruct b; reflexivity |].
  cbn. rewrite IH. reflexivity.
Qed.

Lemma match_word_word (c : ascii) (s : string) :
  is_word c = true ->
  match_word (String c s) = Some (S (String.length (fst (span is_word s)))).
Proof. intro E. unfold match_word. rewrite (span_cons_true _ _ _ E). reflexivity. Qed.

Lemma match_word_other (c : ascii) (s : string) :
  is_word c = false -> match_word (String c s) = None.
Proof. intro E. unfold match_word. rewrite (span_cons_false _ _ _ E). reflexivity. Qed.

Lemma regexp_tokenize_word (c : ascii) (s : string) :
  is_word c = true ->
  regexp_tokenize (String c s)
  = String c (fst (span is_word s)) :: regexp_tokenize (snd (span is_word s)).
Proof.
  intro E. unfold regexp_tokenize, re_findall. cbn [re_findall_from].
  rewrite (match_word_word _ _ E). cbn [pred].
  pose proof (span_app is_word s) as Happ.
  destruct (span is_word s) as [w r]. cbn [fst snd] in *. subst s.
  rewrite re_findall_skip.
  change (substring 0 (S (String.length w)) (String c (w ++ r)))
    with (String c (substring 0 (String.length w) (w ++ r))).
  rewrite substring_prefix. reflexivity.
Qed.

Lemma regexp_tokenize_other (c : ascii) (s : string) :
  is_word c = false -> regexp_tokenize (String c s) = regexp_tokenize s.
Proof.
  intro E. unfold regexp_tokenize, re_findall. cbn [re_findall_from].
  rewrite (match_word_other _ _ E). reflexivity.
Qed.

Lemma span_rest (p : ascii -> bool) (s : string) :
  snd (span p s) = EmptyString
  \/ exists d r, snd (span p s) = String d r /\ p d = false.
Proof.
  induction s as [| c s IH]; [left; reflexivity |].
  destruct (p c) eqn:E.
  - rewrite (span_cons_true _ _ _ E). exact IH.
  - rewrite (span_cons_false _ _ _ E). right. exists c, s. split; [reflexivity | exact E].
Qed.

Lemma span_word_spaced (s : string) :
  spaced_from s true = true -> spaced_from (snd (span is_word s)) true = true.
Proof.
  induction s as [| c s IH]; intro H; [reflexivity |].
  destruct (is_word c) eqn:E.
  - rewrite (span_cons_true _ _ _ E). cbn [snd]. apply IH.
    cbn [spaced_from] in H. rewrite E in H. exact H.
  - rewrite (span_cons_false _ _ _ E). exact H.
Qed.

Lemma spaced_from_start (s : string) :
  spaced_from s false = true ->
  exists c s', s = String c s' /\ is_word c = true /\ spaced_from s' true = true.
Proof.
  destruct s as [| c s']; [discriminate |].
  cbn [spaced_from]. destruct (is_word c) eqn:E.
  - intro H. exists c, s'. tauto.
  - rewrite andb_false_r. discriminate.
Qed.

Lemma append_empty_r (s : string) : s ++ EmptyString = s.
Proof. induction s as [| a s IH]; [reflexivity | cbn; rewrite IH; reflexivity]. Qed.

(** Joining the tokens of words separated by single spaces gives the text
    back. *)
Lemma join_tokens_spaced (n : nat) (s : string) :
  (String.length s <= n)%nat ->
  spaced_from s false = true ->
  String.concat " " (regexp_tokenize s) = s.
Proof.
  revert s. induction n as [| n IH]; intros s Hn Hs.
  - destruct s; [discriminate | cbn in Hn; lia].
  - destruct (spaced_from_start s Hs) as (c & s' & -> & Hc & Hs').
    rewrite (regexp_tokenize_word _ _ Hc).
    pose proof (span_app is_word s') as Happ.
    pose proof (span_word_spaced s' Hs') as Hr.
    destruct (span_rest is_word s') as [Er | (d & r' & Er & Hd)];
      rewrite Er in *; destruct (span is_word s') as [w r]; cbn [fst snd] in *;
      subst s'.
    + cbn. rewrite append_empty_r. reflexivity.
    + cbn [spaced_from] in Hr. rewrite Hd in Hr.
      apply andb_prop in Hr. destruct Hr as [Hr Hr'].
      apply andb_prop in Hr. destruct Hr as [Hsp _].
      apply Ascii.eqb_eq in Hsp. subst d.
      rewrite (regexp_tokenize_other _ _ Hd).
      assert (Hlen : (String.length r' <= n)%nat).
      { cbn [String.length] in Hn. rewrite length_append in Hn.
        cbn [String.length] in Hn. lia. }
      pose proof (IH r' Hlen Hr') as Hjoin.
      destruct (spaced_from_start r' Hr') as (e & r'' & -> & He & _).
      rewrite (regexp_tokenize_word _ _ He) in Hjoin |- *.
      cbn [String.concat] in Hjoin |- *. rewrite Hjoin. reflexivity.
Qed.

Lemma join_tokens_clean (t : string) :
  String.concat " " (regexp_tokenize (clean_text t)) = clean_text t.
Proof.
  pose proof (clean_text_spaced t) as H. unfold spaced in H.
  destruct (clean_text t) as [| c s] eqn:E; [reflexivity |].
  apply (join_tokens_spaced (String.length (String c s))); [lia | exact H].
Qed.

Lemma preprocess_text_nonempty `{Nltk} (c : ascii) (s : string) :
  preprocess_text (String c s)
  = String.concat " "
      (map lemmatize (filter keep_token (tokenize (clean_text (String c s))))).
Proof. reflexivity. Qed.

Lemma stable_tokens_unchanged `{Nltk} (tokens : list string) :
  Forall (fun token => keep_token token = true /\ lemmatize token = token) tokens ->
  map lemmatize (filter keep_token tokens) = tokens.
Proof.
  induction 1 as [| token tokens [Hk Hl] _ IH]; [reflexivity |].
  cbn [filter]. rewrite Hk. cbn [map]. rewrite Hl, IH. reflexivity.
Qed.

(** Whatever the installation, as long as it splits digit groups at the
    spaces, has no digit group among its stop words and knows no lemma for
    one: three passes over the digit groups give three different texts. *)
Lemma three_passes_differ `{Nltk} :
  (forall s : string,
      In s ["123 111 222 3333 456 7890"; "123 456 7890"; EmptyString] ->
      tokenize s = regexp_tokenize s) ->
  (forall token : string,
      In token digit_tokens -> keep_token token = true /\ lemmatize token = token) ->
  preprocess_text spaced_digits = "123 111 222 3333 456 7890"
  /\ preprocess_text (preprocess_text spaced_digits) = "123 456 7890"
  /\ preprocess_text (preprocess_text (preprocess_text spaced_digits)) = EmptyString.
Proof.
  intros Htok Hstable.
  assert (H1 : preprocess_text spaced_digits = "123 111 222 3333 456 7890").
  { unfold spaced_digits. rewrite preprocess_text_nonempty.
    replace (clean_text "123, 111, 222, 3333, 456, 7890")
      with "123 111 222 3333 456 7890" by (vm_compute; reflexivity).
    rewrite Htok by (cbn; tauto).
    replace (regexp_tokenize "123 111 222 3333 456 7890")
      with digit_tokens by (vm_compute; reflexivity).
    rewrite stable_tokens_unchanged; [reflexivity |].
    apply Forall_forall. exact Hstable. }
  assert (H2 : preprocess_text "123 111 222 3333 456 7890" = "123 456 7890").
  { rewrite preprocess_text_nonempty.
    replace (clean_text "123 111 222 3333 456 7890")
      with "123 456 7890" by (vm_compute; reflexivity).
    rewrite Htok by (cbn; tauto).
    replace (regexp_tokenize "123 456 7890")
      with ["123"; "456"; "7890"] by (vm_compute; reflexivity).
    rewrite stable_tokens_unchanged; [reflexivity |].
    apply Forall_forall. intros token Hin. apply Hstable.
    unfold digit_tokens. cbn in Hin |- *. tauto. }
  assert (H3 : preprocess_text "123 456 7890" = EmptyString).
  { rewrite preprocess_text_nonempty.
    replace (clean_text "123 456 7890") with EmptyString by (vm_compute; reflexivity).
    rewrite Htok by (cbn; tauto). reflexivity. }
  rewrite H1, H2, H3. repeat split; reflexivity.
Qed.

(** C9 as stated fails: in the sample installation the digit groups
    separated by commas are normalized to six groups, those to three, and
    those to the empty text; neither the normal form nor the normal form of
    the normal form is a fixed point. *)
Lemma normalization_is_not_idempotent :
  @preprocess_text sample_nltk spaced_digits = "123 111 222 3333 456 7890"
  /\ @preprocess_text sample_nltk (@preprocess_text sample_nltk spaced_digits)
     = "123 456 7890"
  /\ @preprocess_text sample_nltk
       (@preprocess_text sample_nltk (@preprocess_text sample_nltk spaced_digits)) = EmptyString
  /\ @preprocess_text sample_nltk (@preprocess_text sample_nltk spaced_digits)
     <> @preprocess_text sample_nltk spaced_digits
  /\ @preprocess_text sample_nltk
       (@preprocess_text sample_nltk (@preprocess_text sample_nltk spaced_digits))
     <> @preprocess_text sample_nltk (@preprocess_text sample_nltk spaced_digits).
Proof.
  destruct (@three_passes_differ sample_nltk) as (H1 & H2 & H3).
  - intros s _. reflexivity.
  - intros token Hin. unfold digit_tokens in Hin. cbn [In] in Hin.
    repeat (destruct Hin as [<- | Hin]; [split; vm_compute; reflexivity |]).
    contradiction.
  - rewrite H3, H2, H1. repeat split; discriminate.
Qed.

(** * Further properties of the scorers and of the ranking *)

(** ** The experience score *)

Lemma experience_scan_match (job_exp : string) (rs : list string) (m : nat) :
  experience_scan job_exp rs m
  = if existsb (either_in job_exp) rs then S m else m.
Proof.
  induction rs as [| r rs IH]; [reflexivity |].
  cbn [experience_scan existsb]. unfold either_in at 1.
  destruct (str_in job_exp r || str_in r job_exp); [reflexivity | exact IH].
Qed.

Lemma experience_loop_count (js rs : list string) (m : nat) :
  experience_loop js rs m
  = (m + List.length (filter (fun j => existsb (either_in j) rs) js))%nat.
Proof.
  revert m. induction js as [| j js IH]; intro m; cbn [experience_loop filter].
  - cbn. lia.
  - rewrite IH, experience_scan_match.
    destruct (existsb (either_in j) rs); cbn [List.length]; lia.
Qed.

Lemma matched_phrases_count (job_phrases resume_phrases : list string) :
  experience_loop (map lower job_phrases) (map lower resume_phrases) 0
  = List.length (filter (fun p => has_match p resume_phrases) job_phrases).
Proof.
  rewrite experience_loop_count, filter_map_length. cbn [Nat.add].
  f_equal. apply filter_ext. intro j. unfold has_match.
  rewrite existsb_map. reflexivity.
Qed.

Lemma spec_matched_fraction_between (j : string) (js resume_phrases : list string) :
  0 <= spec_matched_fraction (j :: js) resume_phrases <= 1.
Proof.
  unfold spec_matched_fraction. rewrite len_count_Q. apply fraction_between.
  - apply count_Q_nonneg.
  - apply count_Q_le, filter_length_bound.
  - unfold count_Q. change 0 with (inject_Z 0). rewrite <- Zlt_Qlt.
    cbn [List.length]. lia.
Qed.

Lemma conversions_short (phrases : list string) :
  short_numbers phrases = true ->
  conversions phrases = map Ok (years_found phrases).
Proof.
  unfold short_numbers, conversions, years_found.
  induction phrases as [| phrase rest IH]; intro Hs; [reflexivity |].
  cbn [forallb] in Hs. apply andb_prop in Hs. destruct Hs as [Hp Hrest].
  cbn [flat_map map collect_years]. rewrite map_app, (IH Hrest). f_equal.
  clear IH Hrest. induction (findall_years (lower phrase)) as [| m ms IHm];
    [reflexivity |].
  cbn [forallb] in Hp. apply andb_prop in Hp. destruct Hp as [Hm Hms].
  cbn [map]. rewrite (IHm Hms). f_equal. unfold py_int.
  apply Nat.leb_le in Hm.
  destruct (4300 <? String.length (fst m))%nat eqn:E; [| reflexivity].
  apply Nat.ltb_lt in E. lia.
Qed.

(** X1. On phrases whose numbers have at most 4300 digits, the length up
    to which [int] converts, every conversion that the experience scorer
    asks for succeeds, the scorer does not raise and its score lies between
    0 and 1, a job asking for 0 years included; the score is 1 for a job
    without experience phrases and 0 for a resume without any when the job
    has some. *)
Theorem experience_score_total_and_bounded (job_experience resume_experience : list string) :
  short_numbers job_experience = true ->
  short_numbers resume_experience = true ->
  conversions job_experience = map Ok (years_found job_experience)
  /\ conversions resume_experience = map Ok (years_found resume_experience)
  /\ calculate_experience_match [] resume_experience = Ok (PFin 1)
  /\ (job_experience = [] \/ calculate_experience_match job_experience [] = Ok (PFin 0))
  /\ exists q : Q,
       calculate_experience_match job_experience resume_experience = Ok (PFin q)
       /\ 0 <= q <= 1.
Proof.
  intros Hjob Hresume.
  split; [exact (conversions_short _ Hjob) |].
  split; [exact (conversions_short _ Hresume) |].
  split; [reflexivity |].
  split; [destruct job_experience; [left | right]; reflexivity |].
  apply experience_match_unit.
Qed.

(** The theorem at a job that asks for no years. *)
Lemma experience_score_total_and_bounded_witness :
  conversions ["0 years of experience"] = map Ok (years_found ["0 years of experience"])
  /\ conversions ["3 yrs"; "team lead"] = map Ok (years_found ["3 yrs"; "team lead"])
  /\ calculate_experience_match [] ["3 yrs"; "team lead"] = Ok (PFin 1)
  /\ (["0 years of experience"] = []
      \/ calculate_experience_match ["0 years of experience"] [] = Ok (PFin 0))
  /\ exists q : Q,
       calculate_experience_match ["0 years of experience"] ["3 yrs"; "team lead"]
       = Ok (PFin q)
       /\ 0 <= q <= 1.
Proof.
  apply (experience_score_total_and_bounded
           ["0 years of experience"] ["3 yrs"; "team lead"]);
    vm_compute; reflexivity.
Defined.

(** X2. When the years pattern finds no years in the job phrases, or none
    in the resume phrases, the experience score is the fraction of the job
    phrases that some resume phrase matches as a substring in one direction
    or the other, ignoring case; the cap at 1 never applies. *)
Theorem experience_fallback_is_matched_fraction
    (job_experience resume_experience : list string) :
  job_experience <> [] ->
  resume_experience <> [] ->
  years_found job_experience = [] \/ years_found resume_experience = [] ->
  exists q : Q,
    calculate_experience_match job_experience resume_experience = Ok (PFin q)
    /\ q == spec_matched_fraction job_experience resume_experience.
Proof.
  intros Hj Hr Hyears. unfold calculate_experience_match, years_found in *.
  destruct job_experience as [| j js]; [contradiction |].
  destruct resume_experience as [| r rs]; [contradiction |].
  assert (Hfallback :
    exists q : Q,
      (q0 <- py_truediv
               (count_Q (experience_loop (map lower (j :: js)) (map lower (r :: rs)) 0))
               (len (j :: js)) ;;
       Ok (py_min (PFin 1) q0)) = Ok (PFin q)
      /\ q == spec_matched_fraction (j :: js) (r :: rs)).
  { rewrite py_truediv_pos by apply len_cons_pos. cbn [bind]. rewrite py_min_one.
    rewrite matched_phrases_count. fold (spec_matched_fraction (j :: js) (r :: rs)).
    eexists. split; [reflexivity |].
    pose proof (spec_matched_fraction_between j js (r :: rs)) as [_ Hle].
    destruct (Qltb (spec_matched_fraction (j :: js) (r :: rs)) 1) eqn:E;
      [reflexivity |].
    apply Qltb_ge in E. lra. }
  destruct (collect_years (map lower (j :: js))) as [| y ys]; [exact Hfallback |].
  destruct (collect_years (map lower (r :: rs))) as [| z zs]; [exact Hfallback |].
  destruct Hyears; discriminate.
Qed.

(** The theorem at a job with two title phrases and a resume with years. *)
Lemma experience_fallback_is_matched_fraction_witness :
  exists q : Q,
    calculate_experience_match ["Senior Developer"; "team lead"]
                               ["developer"; "3 years of experience"] = Ok (PFin q)
    /\ q == spec_matched_fraction ["Senior Developer"; "team lead"]
                                  ["developer"; "3 years of experience"].
Proof.
  apply (experience_fallback_is_matched_fraction
           ["Senior Developer"; "team lead"] ["developer"; "3 years of experience"]).
  - discriminate.
  - discriminate.
  - left. vm_compute. reflexivity.
Defined.

(** ** The skill lists of an entry *)

Lemma inject_Z_eq (a b : Z) : inject_Z a == inject_Z b -> a = b.
Proof. apply inject_Z_injective. Qed.

Lemma inject_Z_of_eq (a b : Z) : a = b -> inject_Z a == inject_Z b.
Proof. intros ->. reflexivity. Qed.

Lemma filter_nil_iff {A : Type} (f : A -> bool) (l : list A) :
  filter f l = [] <-> forall x, In x l -> f x = false.
Proof.
  induction l as [| y l IH]; cbn [filter In].
  - split; [intros _ x [] | reflexivity].
  - destruct (f y) eqn:E.
    + split; [discriminate |]. intro H. rewrite (H y (or_introl eq_refl)) in E.
      discriminate.
    + rewrite IH. split.
      * intros H x [<- | Hx]; [exact E | apply H; exact Hx].
      * intros H x Hx. apply H. right. exact Hx.
Qed.

Lemma existsb_false_iff {A : Type} (f : A -> bool) (l : list A) :
  existsb f l = false <-> forall x, In x l -> f x = false.
Proof.
  induction l as [| y l IH]; cbn [existsb In].
  - split; [intros _ x [] | reflexivity].
  - rewrite orb_false_iff, IH. split.
    + intros [Hy H] x [<- | Hx]; [exact Hy | apply H; exact Hx].
    + intro H. split; [apply H; left; reflexivity | intros x Hx; apply H; right; exact Hx].
Qed.

Lemma filter_complement_length {A : Type} (f : A -> bool) (l : list A) :
  (List.length (filter f l) + List.length (filter (fun x => negb (f x)) l)
   = List.length l)%nat.
Proof.
  induction l as [| y l IH]; [reflexivity |].
  cbn [filter]. destruct (f y); cbn [negb List.length]; lia.
Qed.

Lemma either_in_sym (a b : string) : either_in a b = either_in b a.
Proof. unfold either_in. apply orb_comm. Qed.

Lemma existsb_pointwise {A : Type} (f g : A -> bool) (l : list A) :
  (forall x, f x = g x) -> existsb f l = existsb g l.
Proof.
  intro H. induction l as [| x l IH]; [reflexivity |].
  cbn [existsb]. rewrite H, IH. reflexivity.
Qed.

(** The two skill lists and the skills score of the entry of a resume. *)
Lemma rank_one_skill_lists `{Numpy} (job_description : JobDescription) (resume : Resume) :
  comparable (jd_embedding job_description) (embedding resume) ->
  exists entry : RankedResume,
    rank_one job_description resume = Ok entry
    /\ skills_score entry
       = PFin (percent (spec_skills_score (skills (jd_entities job_description))
                                          (skills (entities resume))))
    /\ missing_skills entry
       = filter (fun s => negb (has_match s (skills (entities resume))))
                (skills (jd_entities job_description))
    /\ matching_skills entry
       = filter (fun s => has_match s (skills (jd_entities job_description)))
                (skills (entities resume)).
Proof.
  intro Hshape.
  destruct (similarity_unit _ _ Hshape) as (sim & Esim & _).
  destruct (education_match_unit (education (jd_entities job_description))
                                 (education (entities resume))) as (ed & Eed & _).
  destruct (experience_match_unit (experience (jd_entities job_description))
                                  (experience (entities resume))) as (ex & Eex & _).
  unfold rank_one. rewrite Esim, skills_match_spec, Eed, Eex. cbn [bind].
  eexists. split; [reflexivity |]. cbn [skills_score missing_skills matching_skills].
  split; [apply pf_mul_percent, spec_skills_score_between |].
  split; [reflexivity |].
  apply filter_ext. intro s. unfold has_match.
  apply existsb_pointwise. intro j. fold (either_in (lower j) (lower s)).
  apply either_in_sym.
Qed.

Lemma spec_skills_score_missing (job_skills resume_skills : list string) :
  job_skills <> [] ->
  spec_skills_score job_skills resume_skills * inject_Z (len job_skills)
  == inject_Z (len job_skills
               - len (filter (fun s => negb (has_match s resume_skills)) job_skills)).
Proof.
  intro Hj. destruct job_skills as [| j js]; [contradiction |].
  pose proof (filter_complement_length (fun s => has_match s resume_skills) (j :: js))
    as Hsum.
  assert (Hpos : ~ inject_Z (len (j :: js)) == 0).
  { intro H. change 0 with (inject_Z 0) in H. apply inject_Z_eq in H.
    pose proof (len_cons_pos j js). lia. }
  unfold spec_skills_score. destruct resume_skills as [| r rs].
  - rewrite Qmult_0_l. change 0 with (inject_Z 0). apply inject_Z_of_eq.
    assert (E : filter (fun s => negb (has_match s [])) (j :: js) = j :: js).
    { clear. induction (j :: js) as [| x l IH]; [reflexivity |].
      cbn [filter]. change (has_match x []) with false. cbn [negb].
      rewrite IH. reflexivity. }
    rewrite E. lia.
  - assert (E : count_Q (List.length (filter (fun s => has_match s (r :: rs)) (j :: js)))
                == inject_Z (len (j :: js)
                             - len (filter (fun s => negb (has_match s (r :: rs)))
                                           (j :: js)))).
    { unfold count_Q, len. apply inject_Z_of_eq. lia. }
    rewrite <- E. field. exact Hpos.
Qed.

Lemma percent_comp (a b : Q) : a == b -> percent a = percent b.
Proof. intro H. unfold percent. rewrite (double_comp a b H). reflexivity. Qed.

(** X3. The reported skills score is fixed by the number of missing
    skills: for a job with [n] skills of which [m] are missing it is
    [(n - m) / n] times 100, as binary64 rounds the quotient and the
    product.  It is 100 when no skill is missing, and 0 exactly when all
    skills are. *)
Theorem skills_score_counts_missing_skills `{Numpy}
    (job_description : JobDescription) (resume : Resume) :
  comparable (jd_embedding job_description) (embedding resume) ->
  skills (jd_entities job_description) <> [] ->
  exists entry : RankedResume,
    rank_one job_description resume = Ok entry
    /\ skills_score entry
       = PFin (percent (inject_Z (len (skills (jd_entities job_description))
                                  - len (missing_skills entry))
                        / inject_Z (len (skills (jd_entities job_description)))))
    /\ (missing_skills entry = [] -> skills_score entry = PFin 100)
    /\ (len (missing_skills entry) = len (skills (jd_entities job_description))
        <-> skills_score entry = PFin 0).
Proof.
  intros Hshape Hj.
  destruct (rank_one_skill_lists job_description resume Hshape)
    as (entry & E & Es & Em & _).
  exists entry. split; [exact E |].
  pose proof (spec_skills_score_missing _ (skills (entities resume)) Hj) as Hq.
  rewrite <- Em in Hq.
  set (n := len (skills (jd_entities job_description))) in *.
  set (m := len (missing_skills entry)) in *.
  set (sk := spec_skills_score _ _) in *.
  assert (Hn : (0 < n)%Z).
  { unfold n. destruct (skills (jd_entities job_description));
      [contradiction | apply len_cons_pos]. }
  assert (HnQ : 0 < inject_Z n).
  { change 0 with (inject_Z 0). rewrite <- Zlt_Qlt. exact Hn. }
  assert (Hsk : sk == inject_Z (n - m) / inject_Z n).
  { rewrite <- Hq. symmetry. apply Qdiv_mult_l. lra. }
  assert (Escore : skills_score entry = PFin (percent (inject_Z (n - m) / inject_Z n))).
  { rewrite Es. f_equal. apply percent_comp. exact Hsk. }
  split; [exact Escore |]. split.
  - intro Hnone. rewrite Escore. f_equal.
    assert (Hm : m = 0%Z) by (unfold m; rewrite Hnone; reflexivity).
    rewrite (percent_comp _ 1); [vm_compute; reflexivity |].
    rewrite Hm, Z.sub_0_r. unfold Qdiv. apply Qmult_inv_r. lra.
  - rewrite Escore. split.
    + intro Hall. f_equal. rewrite (percent_comp _ 0); [vm_compute; reflexivity |].
      rewrite Hall, Z.sub_diag. unfold Qdiv. apply Qmult_0_l.
    + intros [= Hzero].
      assert (Hz : percent (inject_Z (n - m) / inject_Z n) == 0)
        by (rewrite Hzero; reflexivity).
      apply (proj1 (percent_zero _)) in Hz.
      assert (Hnum : inject_Z (n - m) == 0).
      { rewrite <- (Qmult_0_l (inject_Z n)), <- Hz, Qmult_comm. symmetry.
        apply Qmult_div_r. lra. }
      change 0 with (inject_Z 0) in Hnum. apply inject_Z_eq in Hnum. lia.
Qed.

(** The theorem with the sample norm, at the sample job and resume a. *)
Lemma skills_score_counts_missing_skills_witness :
  exists entry : RankedResume,
    @rank_one sample_numpy sample_job sample_resume_a = Ok entry
    /\ skills_score entry
       = PFin (percent (inject_Z (len (skills (jd_entities sample_job))
                                  - len (missing_skills entry))
                        / inject_Z (len (skills (jd_entities sample_job)))))
    /\ (missing_skills entry = [] -> skills_score entry = PFin 100)
    /\ (len (missing_skills entry) = len (skills (jd_entities sample_job))
        <-> skills_score entry = PFin 0).
Proof.
  apply (@skills_score_counts_missing_skills sample_numpy sample_job sample_resume_a).
  - right. reflexivity.
  - discriminate.
Defined.

Lemma spec_skills_score_zero (job_skills resume_skills : list string) :
  spec_skills_score job_skills resume_skills == 0
  <-> forall j r, In j job_skills -> In r resume_skills ->
                  either_in (lower j) (lower r) = false.
Proof.
  unfold spec_skills_score.
  destruct job_skills as [| j js]; [split; [intros _ j r [] | reflexivity] |].
  destruct resume_skills as [| r rs]; [split; [intros _ j' r' _ [] | reflexivity] |].
  set (matched := filter (fun s => has_match s (r :: rs)) (j :: js)).
  assert (Hpos : 0 < inject_Z (len (j :: js))).
  { change 0 with (inject_Z 0). rewrite <- Zlt_Qlt. apply len_cons_pos. }
  assert (Hm : matched = [] <->
               forall j' r', In j' (j :: js) -> In r' (r :: rs) ->
                             either_in (lower j') (lower r') = false).
  { unfold matched. rewrite filter_nil_iff. unfold has_match. split.
    - intros H j' r' Hj' Hr'. specialize (H j' Hj').
      rewrite existsb_false_iff in H. apply H. exact Hr'.
    - intros H j' Hj'. apply existsb_false_iff. intros r' Hr'. apply H; assumption. }
  rewrite <- Hm. split.
  - intro H0.
    assert (Hc : count_Q (List.length matched) == 0).
    { apply (Qmult_inj_r _ _ (/ inject_Z (len (j :: js)))).
      - intro Hinv. apply (Qinv_lt_0_compat _) in Hpos. lra.
      - rewrite Qmult_0_l. exact H0. }
    unfold count_Q in Hc. change 0 with (inject_Z 0) in Hc.
    apply inject_Z_eq in Hc. destruct matched; [reflexivity | cbn in Hc; lia].
  - intros ->. cbn [List.length]. unfold count_Q. cbn. unfold Qdiv.
    rewrite Qmult_0_l. reflexivity.
Qed.

(** X4. The reported skills score is 0 exactly when the entry lists no
    matching skill: a resume skill matches some job skill if and only if
    some job skill matches a resume skill. *)
Theorem no_matching_skill_iff_zero_score `{Numpy}
    (job_description : JobDescription) (resume : Resume) :
  comparable (jd_embedding job_description) (embedding resume) ->
  exists (entry : RankedResume) (q : Q),
    rank_one job_description resume = Ok entry
    /\ skills_score entry = PFin q
    /\ (matching_skills entry = [] <-> q == 0).
Proof.
  intro Hshape.
  destruct (rank_one_skill_lists job_description resume Hshape)
    as (entry & E & Es & _ & Em).
  exists entry. eexists. split; [exact E |]. split; [exact Es |].
  rewrite Em. rewrite filter_nil_iff.
  rewrite percent_zero, spec_skills_score_zero. unfold has_match. split.
  - intros Hall j r Hj Hr. specialize (Hall r Hr).
    rewrite existsb_false_iff in Hall.
    rewrite either_in_sym. apply Hall. exact Hj.
  - intros Hall r Hr. apply existsb_false_iff. intros j Hj.
    rewrite either_in_sym. apply Hall; assumption.
Qed.

(** The theorem with the sample norm, at the sample job and resume b. *)
Lemma no_matching_skill_iff_zero_score_witness :
  exists (entry : RankedResume) (q : Q),
    @rank_one sample_numpy sample_job sample_resume_b = Ok entry
    /\ skills_score entry = PFin q
    /\ (matching_skills entry = [] <-> q == 0).
Proof.
  apply (@no_matching_skill_iff_zero_score sample_numpy sample_job sample_resume_b).
  left. reflexivity.
Defined.

(** ** What the ranking raises and what it keeps *)

Lemma comparable_b_spec (a b : list pyfloat) :
  comparable_b a b = true <-> comparable a b.
Proof.
  unfold comparable_b, comparable. rewrite orb_true_iff, Nat.eqb_eq. reflexivity.
Qed.

Lemma similarity_shape_error `{Numpy} (a b : list pyfloat) :
  comparable_b a b = false -> calculate_similarity a b = Err ValueError.
Proof.
  unfold comparable_b. intro Hc. apply orb_false_iff in Hc. destruct Hc as [Hz Hl].
  unfold calculate_similarity, np_dot. rewrite Hz, Hl. reflexivity.
Qed.

Lemma rank_loop_outcome `{Numpy} (job_description : JobDescription)
    (parsed_resumes : list Resume) :
  match rank_loop job_description parsed_resumes with
  | Ok _ =>
      forallb (fun resume =>
                 comparable_b (jd_embedding job_description) (embedding resume))
              parsed_resumes = true
  | Err e =>
      e = ValueError
      /\ forallb (fun resume =>
                    comparable_b (jd_embedding job_description) (embedding resume))
                 parsed_resumes = false
  end.
Proof.
  induction parsed_resumes as [| resume rest IH]; [reflexivity |].
  cbn [rank_loop forallb].
  destruct (comparable_b (jd_embedding job_description) (embedding resume)) eqn:Ec.
  - apply comparable_b_spec in Ec.
    destruct (rank_one_percentage job_description resume Ec) as (entry & E & _).
    rewrite E. cbn [bind andb].
    destruct (rank_loop job_description rest); exact IH.
  - unfold rank_one. rewrite (similarity_shape_error _ _ Ec). cbn [bind andb].
    split; reflexivity.
Qed.

(** X5. When the numbers in the experience phrases of the job and of the
    resumes have at most 4300 digits, the length up to which [int]
    converts, the only exception the ranking raises is the ValueError of a
    shape mismatch, and it raises it exactly when some resume has a vector
    that cannot be compared with that of the job: neither of the two is
    entirely zero and their lengths differ. *)
Theorem rank_resumes_raises_only_on_shape_mismatch `{Numpy}
    (job_description : JobDescription) (parsed_resumes : list Resume) :
  short_numbers (experience (jd_entities job_description)) = true ->
  forallb (fun resume => short_numbers (experience (entities resume)))
          parsed_resumes = true ->
  match rank_resumes (Some job_description) parsed_resumes with
  | Ok _ =>
      forallb (fun resume =>
                 comparable_b (jd_embedding job_description) (embedding resume))
              parsed_resumes = true
  | Err e =>
      e = ValueError
      /\ existsb (fun resume =>
                    negb (np_all_zero (jd_embedding job_description))
                    && negb (np_all_zero (embedding resume))
                    && negb (List.length (jd_embedding job_description)
                             =? List.length (embedding resume))%nat)
                 parsed_resumes = true
  end.
Proof.
  intros _ _.
  pose proof (rank_loop_outcome job_description parsed_resumes) as Hloop.
  unfold rank_resumes. destruct parsed_resumes as [| r rs]; [reflexivity |].
  destruct (rank_loop job_description (r :: rs)) as [entries | e]; cbn [bind].
  - exact Hloop.
  - destruct Hloop as [-> Hf]. split; [reflexivity |].
    revert Hf. generalize (r :: rs). intro l.
    induction l as [| x l IH]; cbn [forallb existsb]; [discriminate |].
    unfold comparable_b at 1.
    destruct (np_all_zero (jd_embedding job_description));
      destruct (np_all_zero (embedding x));
      destruct (List.length (jd_embedding job_description)
                =? List.length (embedding x))%nat;
      cbn [orb andb negb]; try exact IH; reflexivity.
Qed.

(** The theorem with the sample norm, at the sample job and resumes. *)
Lemma rank_resumes_raises_only_on_shape_mismatch_witness :
  match @rank_resumes sample_numpy (Some sample_job)
          [sample_resume_a; sample_resume_b] with
  | Ok _ =>
      forallb (fun resume =>
                 comparable_b (jd_embedding sample_job) (embedding resume))
              [sample_resume_a; sample_resume_b] = true
  | Err e =>
      e = ValueError
      /\ existsb (fun resume =>
                    negb (np_all_zero (jd_embedding sample_job))
                    && negb (np_all_zero (embedding resume))
                    && negb (List.length (jd_embedding sample_job)
                             =? List.length (embedding resume))%nat)
                 [sample_resume_a; sample_resume_b] = true
  end.
Proof.
  apply (@rank_resumes_raises_only_on_shape_mismatch sample_numpy sample_job
           [sample_resume_a; sample_resume_b]); vm_compute; reflexivity.
Defined.

Lemma rank_one_source `{Numpy} (job_description : JobDescription) (resume : Resume)
    (entry : RankedResume) :
  rank_one job_description resume = Ok entry -> ranked_source entry = resume.
Proof.
  unfold rank_one.
  destruct (calculate_similarity _ _); cbn [bind]; [| discriminate].
  destruct (calculate_skills_match _ _); cbn [bind]; [| discriminate].
  destruct (calculate_education_match _ _); cbn [bind]; [| discriminate].
  destruct (calculate_experience_match _ _); cbn [bind]; [| discriminate].
  intro E. injection E as <-. destruct resume. reflexivity.
Qed.

Lemma scored_in_order_sources `{Numpy} (job_description : JobDescription)
    (parsed_resumes : list Resume) (entries : list RankedResume) :
  scored_in_order job_description parsed_resumes entries ->
  map ranked_source entries = parsed_resumes.
Proof.
  induction 1 as [| resume entry rest entries E _ IH]; [reflexivity |].
  cbn [map]. rewrite (rank_one_source _ _ _ E), IH. reflexivity.
Qed.

(** X6. The ranking loses and invents nothing: the file names, texts,
    processed texts, entities and embeddings that the ranked entries carry
    are those of the input resumes, each once, rearranged as the entries
    are. *)
Theorem rank_resumes_keeps_the_resumes `{Numpy}
    (job_description : JobDescription) (parsed_resumes : list Resume) :
  well_shaped job_description parsed_resumes ->
  exists ranked : list RankedResume,
    rank_resumes (Some job_description) parsed_resumes = Ok ranked
    /\ Permutation (map ranked_source ranked) parsed_resumes.
Proof.
  intro Hshape.
  destruct (rank_loop_scored job_description parsed_resumes Hshape)
    as (entries & E & Hs & _).
  exists (list_sort match_score true entries).
  split; [apply rank_resumes_sorts; exact E |].
  rewrite <- (scored_in_order_sources _ _ _ Hs).
  apply Permutation_map. apply list_sort_perm.
Qed.

(** The theorem with the sample norm, at the sample job and resumes b, a
    and c. *)
Lemma rank_resumes_keeps_the_resumes_witness :
  exists ranked : list RankedResume,
    @rank_resumes sample_numpy (Some sample_job)
      [sample_resume_b; sample_resume_a; sample_resume_c] = Ok ranked
    /\ Permutation (map ranked_source ranked)
                   [sample_resume_b; sample_resume_a; sample_resume_c].
Proof.
  apply (@rank_resumes_keeps_the_resumes sample_numpy sample_job
           [sample_resume_b; sample_resume_a; sample_resume_c]).
  unfold well_shaped.
  repeat (apply Forall_cons; [right; reflexivity |]). apply Forall_nil.
Defined.

(** ** Scores that the job description alone decides *)

Lemma spec_education_points_match (job_phrase : string) (resume_education : list string) :
  has_match job_phrase resume_education = true ->
  1 <= spec_education_points job_phrase resume_education.
Proof.
  intro Hm. unfold spec_education_points.
  unfold has_match in Hm. rewrite <- existsb_map in Hm. rewrite Hm.
  pose proof (count_Q_nonneg
                (List.length
                   (filter (shares_keyword (lower job_phrase))
                      (before_first (either_in (lower job_phrase))
                         (map lower resume_education))))).
  lra.
Qed.

Lemma Qsum_at_least_length (f : string -> Q) (l : list string) :
  (forall x, In x l -> 1 <= f x) -> count_Q (List.length l) <= Qsum (map f l).
Proof.
  induction l as [| x l IH]; intro Hall.
  - cbn. unfold count_Q. cbn. discriminate.
  - cbn [map Qsum fold_right List.length]. rewrite count_Q_S.
    pose proof (Hall x (or_introl eq_refl)).
    assert (count_Q (List.length l) <= Qsum (map f l)).
    { apply IH. intros y Hy. apply Hall. right. exact Hy. }
    unfold Qsum in *. lra.
Qed.

(** X7. When every education phrase of the job has a substring match, in
    one direction or the other and ignoring case, among the education
    phrases of the resume, the education score is 1. *)
Theorem education_score_full_match (job_education resume_education : list string) :
  (forall job_phrase : string,
      In job_phrase job_education -> has_match job_phrase resume_education = true) ->
  exists q : Q,
    calculate_education_match job_education resume_education = Ok (PFin q)
    /\ q == 1.
Proof.
  intro Hall.
  destruct (education_match_spec job_education resume_education) as (q & E & Hq & _).
  exists q. split; [exact E |]. rewrite Hq. unfold spec_education_score.
  destruct job_education as [| j js]; [reflexivity |].
  destruct resume_education as [| r rs].
  - specialize (Hall j (or_introl eq_refl)). discriminate.
  - apply Q.min_l. apply Qle_shift_div_l.
    + change 0 with (inject_Z 0). rewrite <- Zlt_Qlt. apply len_cons_pos.
    + rewrite Qmult_1_l, len_count_Q. apply Qsum_at_least_length.
      intros x Hx. apply spec_education_points_match. apply Hall. exact Hx.
Qed.

(** The theorem at a job asking for a bachelor and a resume with a bachelor
    in a field. *)
Lemma education_score_full_match_witness :
  exists q : Q,
    calculate_education_match ["Bachelor"; "degree"]
                              ["master"; "bachelor in physics"; "Degree"] = Ok (PFin q)
    /\ q == 1.
Proof.
  apply (education_score_full_match ["Bachelor"; "degree"]
           ["master"; "bachelor in physics"; "Degree"]).
  intros job_phrase Hin. cbn [In] in Hin.
  destruct Hin as [<- | [<- | []]]; vm_compute; reflexivity.
Defined.

(** X8. A job description without education and without experience
    phrases gives every resume 30 of its 100 points, whatever the resume
    holds: the two scores are 1 by default and weigh 15 each. *)
Theorem empty_requirements_give_thirty `{Numpy}
    (job_description : JobDescription) (resume : Resume) :
  comparable (jd_embedding job_description) (embedding resume) ->
  education (jd_entities job_description) = [] ->
  experience (jd_entities job_description) = [] ->
  exists (entry : RankedResume) (overall_score education_percent experience_percent : Q),
    rank_one job_description resume = Ok entry
    /\ match_score entry = PFin overall_score
    /\ education_score entry = PFin education_percent
    /\ experience_score entry = PFin experience_percent
    /\ education_percent == 100
    /\ experience_percent == 100
    /\ 30 <= overall_score <= 100.
Proof.
  intros Hshape Hed Hex.
  destruct (rank_one_spec job_description resume Hshape)
    as (sim & sk & ed & ex & entry & _ & _ & Eed & Eex & B & E & Em & _ & Ee & Ex & _).
  rewrite Hed in Eed. rewrite Hex in Eex. cbn in Eed, Eex.
  injection Eed as <-. injection Eex as <-.
  exists entry. do 3 eexists.
  split; [exact E |]. split; [exact Em |]. split; [exact Ee |]. split; [exact Ex |].
  split; [vm_compute; reflexivity |]. split; [vm_compute; reflexivity |].
  split.
  - assert (E30 : weighted_percentage 0 0 1 1 = 30) by (vm_compute; reflexivity).
    rewrite <- E30. apply weighted_percentage_mono; try apply Qle_refl; tauto.
  - apply weighted_percentage_between; tauto.
Qed.

(** The theorem with the sample norm, at a job without requirements. *)
Lemma empty_requirements_give_thirty_witness :
  exists (entry : RankedResume) (overall_score education_percent experience_percent : Q),
    @rank_one sample_numpy
      {| jd_text := "Python"; jd_processed_text := "python";
         jd_entities := {| skills := ["python"]; education := []; experience := [] |};
         jd_embedding := [PFin 1; PFin 0] |}
      sample_resume_b = Ok entry
    /\ match_score entry = PFin overall_score
    /\ education_score entry = PFin education_percent
    /\ experience_score entry = PFin experience_percent
    /\ education_percent == 100
    /\ experience_percent == 100
    /\ 30 <= overall_score <= 100.
Proof.
  apply (@empty_requirements_give_thirty sample_numpy
           {| jd_text := "Python"; jd_processed_text := "python";
              jd_entities := {| skills := ["python"]; education := []; experience := [] |};
              jd_embedding := [PFin 1; PFin 0] |}
           sample_resume_b).
  - left. reflexivity.
  - reflexivity.
  - reflexivity.
Defined.

(** * Further properties of the normalization *)

Lemma lower_char_not_upper (c : ascii) : not_upper (lower_char c) = true.
Proof. destruct c as [[] [] [] [] [] [] [] []]; reflexivity. Qed.

Lemma lower_not_upper (s : string) : all_chars not_upper (lower s) = true.
Proof.
  induction s as [| c s IH]; [reflexivity |].
  cbn [lower all_chars]. rewrite lower_char_not_upper, IH. reflexivity.
Qed.

Lemma all_chars_app (p : ascii -> bool) (a b : string) :
  all_chars p (a ++ b) = all_chars p a && all_chars p b.
Proof.
  induction a as [| c a IH]; [reflexivity |].
  cbn [String.append all_chars]. rewrite IH. apply andb_assoc.
Qed.

(** Replacing matches by a text keeps a property that all characters of
    the subject and of the replacement have. *)
Lemma re_sub_all_chars (p : ascii -> bool) (m : string -> option nat)
    (repl s : string) (skip : nat) :
  all_chars p repl = true -> all_chars p s = true ->
  all_chars p (re_sub_from m repl s skip) = true.
Proof.
  intros Hr. revert skip. induction s as [| c s IH]; intros skip Hs; [reflexivity |].
  cbn [all_chars] in Hs. apply andb_prop in Hs. destruct Hs as [Hc Hs].
  cbn [re_sub_from]. destruct skip as [| k]; [| apply IH; exact Hs].
  destruct (m (String c s)) as [n |].
  - rewrite all_chars_app, Hr. apply IH. exact Hs.
  - cbn [all_chars]. rewrite Hc. apply IH. exact Hs.
Qed.

Lemma lstrip_all_chars (p : ascii -> bool) (s : string) :
  all_chars p s = true -> all_chars p (lstrip s) = true.
Proof.
  induction s as [| c s IH]; intro Hs; [reflexivity |].
  cbn [lstrip]. destruct (is_space c); [| exact Hs].
  cbn [all_chars] in Hs. apply andb_prop in Hs. apply IH. tauto.
Qed.

Lemma rstrip_all_chars (p : ascii -> bool) (s : string) :
  all_chars p s = true -> all_chars p (rstrip s) = true.
Proof.
  induction s as [| c s IH]; intro Hs; [reflexivity |].
  cbn [all_chars] in Hs. apply andb_prop in Hs. destruct Hs as [Hc Hs].
  specialize (IH Hs). cbn [rstrip]. destruct (rstrip s) as [| d r].
  - destruct (is_space c); [reflexivity |]. cbn [all_chars]. rewrite Hc. reflexivity.
  - cbn [all_chars] in *. rewrite Hc. exact IH.
Qed.

(** X9. Whatever the raw text is, the cleaned text is empty or made of
    words (letters, digits, underscores) separated by single spaces, with
    no space at either end, and it holds no upper-case letter. *)
Theorem clean_text_is_lower_case_words (raw : string) :
  spaced (clean_text raw) = true
  /\ all_chars not_upper (clean_text raw) = true
  /\ all_chars (fun c => is_word c || Ascii.eqb c " ") (clean_text raw) = true
  /\ prefix " " (clean_text raw) = false
  /\ str_in "  " (clean_text raw) = false.
Proof.
  pose proof (clean_text_spaced raw) as Hs.
  split; [exact Hs |]. split.
  - unfold clean_text, strip, re_sub.
    apply rstrip_all_chars, lstrip_all_chars.
    repeat (apply re_sub_all_chars; [reflexivity |]).
    apply lower_not_upper.
  - revert Hs. generalize (clean_text raw). intro s. unfold spaced.
    assert (Hgen : forall (x : string) (b : bool),
               spaced_from x b = true ->
               all_chars (fun c => is_word c || Ascii.eqb c " ") x = true
               /\ (b = false -> prefix " " x = false)
               /\ str_in "  " x = false).
    { induction x as [| c x IH]; intros b Hx.
      - repeat split; reflexivity.
      - cbn [spaced_from] in Hx. destruct (is_word c) eqn:Ew.
        + destruct (IH true Hx) as (Ha & _ & Hd).
          assert (Hc : Ascii.eqb c " " = false).
          { destruct (Ascii.eqb_spec c " ") as [-> | _]; [discriminate | reflexivity]. }
          split; [cbn [all_chars]; rewrite Ew, Ha; reflexivity |].
          split.
          * intros _. cbn [prefix]. destruct (ascii_dec " " c) as [<- | _];
              [discriminate | reflexivity].
          * rewrite str_in_cons, Hd. cbn [prefix].
            destruct (ascii_dec " " c) as [<- | _]; [discriminate | reflexivity].
        + apply andb_prop in Hx. destruct Hx as [Hx Hx'].
          apply andb_prop in Hx. destruct Hx as [Hc Hb].
          destruct (IH false Hx') as (Ha & Hp & Hd). specialize (Hp eq_refl).
          split; [cbn [all_chars]; rewrite Hc, orb_true_r, Ha; reflexivity |].
          split; [intros ->; discriminate |].
          apply Ascii.eqb_eq in Hc. subst c.
          rewrite str_in_cons, Hd, orb_false_r.
          change (prefix "  " (String " " x)) with (prefix " " x). exact Hp. }
    destruct s as [| c s]; intro Hx; [repeat split; reflexivity |].
    destruct (Hgen _ _ Hx) as (Ha & Hp & Hd).
    split; [exact Ha | split; [apply Hp; reflexivity | exact Hd]].
Qed.

Lemma span_fst_all (p : ascii -> bool) (s : string) :
  all_chars p (fst (span p s)) = true.
Proof.
  induction s as [| c s IH]; [reflexivity |].
  destruct (p c) eqn:E.
  - rewrite (span_cons_true _ _ _ E). cbn [fst all_chars]. rewrite E. exact IH.
  - rewrite (span_cons_false _ _ _ E). reflexivity.
Qed.

Lemma span_snd_length (p : ascii -> bool) (s : string) :
  (String.length (snd (span p s)) <= String.length s)%nat.
Proof.
  rewrite <- (span_app p s) at 2. rewrite length_append. lia.
Qed.

(** The tokens of the fallback tokenizer are non-empty runs of word
    characters. *)
Lemma regexp_tokens_are_words (n : nat) (s : string) :
  (String.length s <= n)%nat ->
  Forall (fun token => token <> EmptyString /\ all_chars is_word token = true)
         (regexp_tokenize s).
Proof.
  revert s. induction n as [| n IH]; intros s Hn.
  - destruct s; [constructor | cbn in Hn; lia].
  - destruct s as [| c s]; [constructor |].
    cbn [String.length] in Hn. destruct (is_word c) eqn:E.
    + rewrite (regexp_tokenize_word _ _ E). constructor.
      * split; [discriminate |]. cbn [all_chars]. rewrite E. apply span_fst_all.
      * apply IH. pose proof (span_snd_length is_word s). lia.
    + rewrite (regexp_tokenize_other _ _ E). apply IH. lia.
Qed.

(** X10. The fallback tokenizer loses nothing of a cleaned text: its
    tokens are non-empty words, and joined by single spaces they give the
    cleaned text back. *)
Theorem fallback_tokens_rejoin_to_clean_text (raw : string) :
  String.concat " " (regexp_tokenize (clean_text raw)) = clean_text raw
  /\ Forall (fun token => token <> EmptyString /\ all_chars is_word token = true)
            (regexp_tokenize (clean_text raw)).
Proof.
  split; [apply join_tokens_clean |].
  apply (regexp_tokens_are_words (String.length (clean_text raw))). lia.
Qed.

(** *** The e-mail step *)

Lemma contains_char_app (c : ascii) (a b : string) :
  contains_char c (a ++ b) = contains_char c a || contains_char c b.
Proof.
  induction a as [| d a IH]; [reflexivity |].
  cbn [String.append contains_char]. rewrite IH. apply orb_assoc.
Qed.

Lemma skip_re_sub_suffix (m : string -> option nat) (repl s : string) (k : nat) :
  exists b : string,
    re_sub_from m repl s k = re_sub_from m repl b 0
    /\ (String.length b <= String.length s - k)%nat.
Proof.
  revert k. induction s as [| c s IH]; intro k.
  - exists EmptyString. destruct k; split; reflexivity || cbn; lia.
  - destruct k as [| k].
    + exists (String c s). split; [reflexivity | cbn; lia].
    + destruct (IH k) as (b & Eb & Hb). exists b.
      split; [exact Eb | cbn [String.length]; lia].
Qed.

Lemma match_email_none_head (c : ascii) (s : string) :
  match_email (String c s) = None -> Ascii.eqb "@" c = false.
Proof.
  unfold match_email. destruct (non_space c) eqn:E.
  - rewrite (span_cons_true _ _ _ E). cbn [contains_char].
    destruct (Ascii.eqb "@" c); [discriminate | reflexivity].
  - intros _. destruct (Ascii.eqb_spec "@" c) as [<- | _]; [discriminate | reflexivity].
Qed.

Lemma match_email_positive (s : string) (n : nat) :
  match_email s = Some n -> (0 < n)%nat.
Proof.
  unfold match_email. destruct (span non_space s) as [run rest].
  destruct run as [| d run]; [discriminate |].
  destruct (contains_char "@" (String d run)); [| discriminate].
  intro E. injection E as <-. cbn [String.length]. lia.
Qed.

Lemma email_step_leaves_no_at (n : nat) (s : string) :
  (String.length s <= n)%nat ->
  contains_char "@" (re_sub_from match_email EmptyString s 0) = false.
Proof.
  revert s. induction n as [| n IH]; intros s Hn.
  - destruct s; [reflexivity | cbn in Hn; lia].
  - destruct s as [| c s]; [reflexivity |].
    cbn [String.length] in Hn. cbn [re_sub_from].
    destruct (match_email (String c s)) as [k |] eqn:E.
    + cbn [String.append].
      destruct (skip_re_sub_suffix match_email EmptyString s (pred k)) as (b & Eb & Hb).
      rewrite Eb. apply IH. lia.
    + cbn [contains_char]. rewrite (match_email_none_head _ _ E).
      apply IH. lia.
Qed.

(** X11. After the e-mail step of the cleaning no at sign is left in the
    text: every run of non-space characters that holds one is removed as a
    whole. *)
Theorem email_step_removes_every_at_sign (text : string) :
  contains_char "@" (re_sub match_email EmptyString text) = false.
Proof.
  apply (email_step_leaves_no_at (String.length text)). lia.
Qed.

(** ** The n-grams of [extract_keywords] *)

Lemma py_slice_window {A : Type} (l : list A) (i n : nat) :
  (i + n <= List.length l)%nat ->
  py_slice l (Z.of_nat i) (Z.of_nat i + Z.of_nat n) = window l i n.
Proof.
  intro Hle. unfold py_slice, window, len.
  destruct (Z.ltb_spec (Z.of_nat i + Z.of_nat n) 0) as [Hneg | _]; [lia |].
  destruct (Z.ltb_spec (Z.of_nat i) 0) as [Hneg | _]; [lia |].
  rewrite !Z.min_l by lia.
  replace (Z.of_nat i + Z.of_nat n - Z.of_nat i)%Z with (Z.of_nat n) by lia.
  rewrite !Nat2Z.id. reflexivity.
Qed.

Lemma map_py_range {B : Type} (f : Z -> B) (n : Z) :
  map f (py_range n) = map (fun i => f (Z.of_nat i)) (seq 0 (Z.to_nat n)).
Proof. unfold py_range. rewrite map_map. reflexivity. Qed.

Lemma windows_of_one {A : Type} (l : list A) :
  map (fun i => window l i 1) (seq 0 (List.length l)) = map (fun x => [x]) l.
Proof.
  induction l as [| x l IH]; [reflexivity |].
  cbn [List.length seq map]. rewrite <- seq_shift, map_map.
  f_equal. exact IH.
Qed.

Lemma join_singletons (l : list string) :
  map (fun x => String.concat " " [x]) l = l.
Proof. induction l as [| x l IH]; [reflexivity | cbn [map]; rewrite IH; reflexivity]. Qed.

(** X12. The unigrams of a non-empty text are exactly what the tokenizer
    returns, its exception included: unlike the normalization, the keyword
    extraction has no fallback tokenizer.  The empty text has no keywords
    and the tokenizer is not asked. *)
Theorem unigram_keywords_are_the_tokens `{Nltk} (c : ascii) (s : string) (n : Z) :
  extract_keywords (String c s) 1 = word_tokenize (String c s)
  /\ extract_keywords EmptyString n = Ok []
  /\ (forall e : exn,
        word_tokenize (String c s) = Err e ->
        extract_keywords (String c s) n = Err e
        /\ tokenize (String c s) = regexp_tokenize (String c s)).
Proof.
  split; [| split; [reflexivity |]].
  - unfold extract_keywords. destruct (word_tokenize (String c s)) as [tokens | e];
      [| reflexivity].
    cbn [bind]. f_equal.
    rewrite map_py_range.
    replace (Z.to_nat (len tokens - 1 + 1)) with (List.length tokens)
      by (unfold len; lia).
    rewrite <- (join_singletons tokens) at 2. rewrite <- map_map with (f := fun x => [x]).
    rewrite <- windows_of_one, map_map.
    apply map_ext_in. intros i Hi. apply in_seq in Hi.
    change 1%Z with (Z.of_nat 1). rewrite py_slice_window by lia. reflexivity.
  - intros e He. unfold extract_keywords, tokenize. rewrite He. split; reflexivity.
Qed.

(** X13. For [n >= 1] the keywords are the windows of [n] consecutive
    tokens, each joined by single spaces, from left to right: there are
    [len(tokens) - n + 1] of them, and none when the text has fewer than
    [n] tokens. *)
Theorem keywords_are_token_windows `{Nltk} (text : string) (n : nat)
    (tokens : list string) :
  text <> EmptyString ->
  word_tokenize text = Ok tokens ->
  (1 <= n)%nat ->
  exists keywords : list string,
    extract_keywords text (Z.of_nat n) = Ok keywords
    /\ keywords
       = map (fun i => String.concat " " (window tokens i n))
             (seq 0 (List.length tokens + 1 - n))
    /\ List.length keywords = (List.length tokens + 1 - n)%nat
    /\ Forall (fun i => List.length (window tokens i n) = n)
              (seq 0 (List.length tokens + 1 - n)).
Proof.
  intros Htext Htok Hn. destruct text as [| c s]; [contradiction |].
  unfold extract_keywords. rewrite Htok. cbn [bind].
  eexists. split; [reflexivity |].
  rewrite map_py_range.
  replace (Z.to_nat (len tokens - Z.of_nat n + 1))
    with (List.length tokens + 1 - n)%nat by (unfold len; lia).
  split; [| split].
  - apply map_ext_in. intros i Hi. apply in_seq in Hi.
    apply f_equal. apply py_slice_window. lia.
  - rewrite length_map, length_seq. reflexivity.
  - apply Forall_forall. intros i Hi. apply in_seq in Hi.
    unfold window. rewrite length_firstn, length_skipn. lia.
Qed.

(** The theorem for the bigrams of three tokens, with a tokenizer that
    splits at the spaces. *)
Lemma keywords_are_token_windows_witness :
  exists keywords : list string,
    @extract_keywords sample_nltk_with_tokenizer "senior python developer" (Z.of_nat 2)
    = Ok keywords
    /\ keywords
       = map (fun i => String.concat " " (window ["senior"; "python"; "developer"] i 2))
             (seq 0 (List.length ["senior"; "python"; "developer"] + 1 - 2))
    /\ List.length keywords
       = (List.length ["senior"; "python"; "developer"] + 1 - 2)%nat
    /\ Forall (fun i => List.length (window ["senior"; "python"; "developer"] i 2) = 2%nat)
              (seq 0 (List.length ["senior"; "python"; "developer"] + 1 - 2)).
Proof.
  apply (@keywords_are_token_windows sample_nltk_with_tokenizer
           "senior python developer" 2 ["senior"; "python"; "developer"]).
  - discriminate.
  - vm_compute. reflexivity.
  - lia.
Defined.

(** * Parsing and the pipeline of the application *)

Lemma parse_resume_not_blank `{DocumentReaders} (file_path resume_text : string) :
  parse_resume file_path = Ok resume_text -> is_blank resume_text = false.
Proof.
  unfold parse_resume.
  destruct (String.eqb (lower (splitext_ext file_path)) ".pdf").
  - unfold parse_pdf. destruct (pdf_page_texts file_path) as [pages |];
      cbn [bind]; [| discriminate].
    destruct (is_blank (String.concat EmptyString pages)) eqn:E; intro Hr;
      injection Hr as <-; [reflexivity | exact E].
  - destruct (String.eqb (lower (splitext_ext file_path)) ".docx");
      [| discriminate].
    unfold parse_docx. destruct (docx_paragraph_texts file_path) as [paragraphs |];
      cbn [bind]; [| discriminate].
    destruct (is_blank (String.concat newline paragraphs)) eqn:E; intro Hr;
      injection Hr as <-; [reflexivity | exact E].
Qed.

(** X14. A resume file whose extension is neither pdf nor docx, in any
    case of letters, is refused with a ValueError without being read; and
    the text of a file that is parsed is never blank: a document without
    text is replaced by a sentence saying so. *)
Theorem parse_resume_never_returns_blank_text `{DocumentReaders} (file_path : string) :
  (forall resume_text : string,
      parse_resume file_path = Ok resume_text -> is_blank resume_text = false)
  /\ (lower (splitext_ext file_path) <> ".pdf" ->
      lower (splitext_ext file_path) <> ".docx" ->
      parse_resume file_path = Err ValueError)
  /\ (String.eqb (lower (splitext_ext file_path)) ".pdf" = true ->
      pdf_page_texts file_path = Ok [] ->
      parse_resume file_path = Ok no_text_pdf).
Proof.
  split; [| unfold parse_resume; split].
  - intro resume_text. apply parse_resume_not_blank.
  - intros Hpdf Hdocx.
    apply String.eqb_neq in Hpdf, Hdocx. rewrite Hpdf, Hdocx. reflexivity.
  - intros Hpdf Hpages. rewrite Hpdf. unfold parse_pdf. rewrite Hpages. reflexivity.
Qed.

Lemma get_embedding_total `{Sklearn} (vectorizer : option TfidfVectorizer)
    (text : string) :
  exists embedding : list pyfloat,
    snd (get_embedding vectorizer text) = Ok embedding
    /\ List.length embedding = 384%nat.
Proof.
  destruct text as [| c s].
  - exists (np_zeros 384). split; [reflexivity | apply np_zeros_length].
  - rewrite get_embedding_nonempty. cbn [snd].
    destruct (snd (encode_with (ensure_loaded vectorizer) (String c s)))
      as [embedding | e] eqn:E; cbn [try_except].
    + exists embedding. split; [reflexivity | exact (encode_with_length _ _ _ E)].
    + exists (np_zeros 384). split; [reflexivity | apply np_zeros_length].
Qed.

Section Pipeline.

Context {NP : Numpy} {NL : Nltk} {SK : Sklearn} {EX : EntityExtractors}
        {RD : DocumentReaders} {TF : Tempfiles}.

Lemma process_upload_failed (vectorizer : option TfidfVectorizer)
    (uploaded_file : UploadedFile) :
  processed_upload uploaded_file = None ->
  exists e : exn, process_upload vectorizer uploaded_file = (vectorizer, Err e).
Proof.
  unfold processed_upload, process_upload.
  destruct (parse_resume (temp_file_path uploaded_file)) as [resume_text | e];
    [| intros _; exists e; reflexivity].
  destruct (extract_entities (preprocess_text resume_text)) as [ents | e];
    [discriminate | intros _; exists e; reflexivity].
Qed.

Lemma process_upload_processed (vectorizer : option TfidfVectorizer)
    (uploaded_file : UploadedFile) (processed : string) :
  processed_upload uploaded_file = Some processed ->
  exists resume : Resume,
    process_upload vectorizer uploaded_file
    = (fst (get_embedding vectorizer processed), Ok resume)
    /\ filename resume = name uploaded_file
    /\ parse_resume (temp_file_path uploaded_file) = Ok (text resume)
    /\ processed_text resume = processed
    /\ processed = preprocess_text (text resume)
    /\ extract_entities processed = Ok (entities resume)
    /\ snd (get_embedding vectorizer processed) = Ok (embedding resume)
    /\ List.length (embedding resume) = 384%nat.
Proof.
  unfold processed_upload, process_upload.
  destruct (parse_resume (temp_file_path uploaded_file)) as [resume_text | e];
    [| discriminate].
  destruct (extract_entities (preprocess_text resume_text)) as [ents | e] eqn:Ee;
    [| discriminate].
  intro Hp. injection Hp as <-.
  destruct (get_embedding_total vectorizer (preprocess_text resume_text))
    as (emb & Eemb & Hlen).
  destruct (get_embedding vectorizer (preprocess_text resume_text)) as [v' r].
  cbn [fst snd] in *. subst r. cbn [bind].
  eexists. split; [reflexivity |]. cbn. repeat split; try reflexivity; assumption.
Qed.

(** What the loop over the uploads returns. *)
Lemma process_uploads_spec (uploaded_files : list UploadedFile)
    (vectorizer : option TfidfVectorizer) :
  map filename (snd (process_uploads vectorizer uploaded_files))
  = map name (filter is_processed uploaded_files)
  /\ map processed_text (snd (process_uploads vectorizer uploaded_files))
     = processed_texts uploaded_files
  /\ Forall (fun resume =>
               List.length (embedding resume) = 384%nat
               /\ processed_text resume = preprocess_text (text resume)
               /\ is_blank (text resume) = false)
            (snd (process_uploads vectorizer uploaded_files))
  /\ error_names (snd (fst (process_uploads vectorizer uploaded_files)))
     = map name (filter (fun f => negb (is_processed f)) uploaded_files)
  /\ fst (fst (process_uploads vectorizer uploaded_files))
     = fst (encode_all vectorizer (processed_texts uploaded_files))
  /\ map (fun resume => Ok (embedding resume))
         (snd (process_uploads vectorizer uploaded_files))
     = snd (encode_all vectorizer (processed_texts uploaded_files)).
Proof.
  revert vectorizer. induction uploaded_files as [| f rest IH]; intro vectorizer.
  - repeat split; constructor.
  - cbn [process_uploads filter processed_texts].
    destruct (processed_upload f) as [processed |] eqn:Ep.
    + assert (Hip : is_processed f = true)
        by (unfold is_processed; rewrite Ep; reflexivity).
      rewrite Hip. cbn [negb].
      destruct (process_upload_processed vectorizer f processed Ep)
        as (resume & E & Hname & Hparse & Hproc & Hpre & _ & Hemb & Hlen).
      rewrite E. specialize (IH (fst (get_embedding vectorizer processed))).
      destruct IH as (IH1 & IH2 & IH3 & IH4 & IH5 & IH6).
      cbn [encode_all].
      destruct (get_embedding vectorizer processed) as [v' r]. cbn [fst snd] in *.
      destruct (process_uploads v' rest) as [[final notices] resumes].
      destruct (encode_all v' (processed_texts rest)) as [final' rs].
      cbn [fst snd map negb] in *.
      rewrite IH1, IH2, Hname, Hproc, Hemb, IH6.
      split; [reflexivity |]. split; [reflexivity |].
      split; [| split; [exact IH4 | split; [exact IH5 | reflexivity]]].
      constructor; [| exact IH3].
      split; [exact Hlen |]. split; [rewrite Hproc; exact Hpre |].
      exact (parse_resume_not_blank _ _ Hparse).
    + assert (Hip : is_processed f = false)
        by (unfold is_processed; rewrite Ep; reflexivity).
      rewrite Hip. cbn [negb].
      destruct (process_upload_failed vectorizer f Ep) as (e & E).
      rewrite E. specialize (IH vectorizer).
      destruct (process_uploads vectorizer rest) as [[final notices] resumes].
      cbn [fst snd map negb error_names] in *.
      destruct IH as (IH1 & IH2 & IH3 & IH4 & IH5 & IH6).
      rewrite IH4. repeat split; assumption || reflexivity.
Qed.

End Pipeline.

Section PipelineOutcome.

Context {NP : Numpy} {NL : Nltk} {SK : Sklearn} {EX : EntityExtractors}
        {RD : DocumentReaders} {TF : Tempfiles}.

Lemma process_uploads_filter (uploaded_files : list UploadedFile)
    (vectorizer : option TfidfVectorizer) :
  snd (process_uploads vectorizer uploaded_files)
  = snd (process_uploads vectorizer (filter is_processed uploaded_files))
  /\ fst (fst (process_uploads vectorizer uploaded_files))
     = fst (fst (process_uploads vectorizer (filter is_processed uploaded_files))).
Proof.
  revert vectorizer. induction uploaded_files as [| f rest IH]; intro vectorizer;
    [split; reflexivity |].
  cbn [filter]. destruct (processed_upload f) as [processed |] eqn:Ep.
  - assert (Hip : is_processed f = true)
      by (unfold is_processed; rewrite Ep; reflexivity).
    rewrite Hip. cbn [process_uploads].
    destruct (process_upload vectorizer f) as [v' r].
    specialize (IH v').
    destruct (process_uploads v' rest) as [[final notices] resumes].
    destruct (process_uploads v' (filter is_processed rest))
      as [[final' notices'] resumes'].
    cbn [fst snd] in IH. destruct IH as [-> ->].
    destruct r; split; reflexivity.
  - assert (Hip : is_processed f = false)
      by (unfold is_processed; rewrite Ep; reflexivity).
    rewrite Hip. cbn [process_uploads].
    destruct (process_upload_failed vectorizer f Ep) as (e & E). rewrite E.
    specialize (IH vectorizer).
    destruct (process_uploads vectorizer rest) as [[final notices] resumes].
    exact IH.
Qed.

Lemma process_resumes_uploads (vectorizer : option TfidfVectorizer)
    (uploaded_files : list UploadedFile) :
  snd (process_resumes vectorizer uploaded_files)
  = snd (process_uploads vectorizer uploaded_files)
  /\ fst (fst (process_resumes vectorizer uploaded_files))
     = fst (fst (process_uploads vectorizer uploaded_files))
  /\ error_names (snd (fst (process_resumes vectorizer uploaded_files)))
     = error_names (snd (fst (process_uploads vectorizer uploaded_files))).
Proof. destruct uploaded_files; repeat split; reflexivity. Qed.

Lemma process_job_description_spec (vectorizer : option TfidfVectorizer)
    (job_description : string) (entities_jd : Entities) :
  is_blank job_description = false ->
  extract_entities (preprocess_text job_description) = Ok entities_jd ->
  exists embedding_jd : list pyfloat,
    snd (get_embedding vectorizer (preprocess_text job_description)) = Ok embedding_jd
    /\ List.length embedding_jd = 384%nat
    /\ process_job_description vectorizer job_description
       = (fst (get_embedding vectorizer (preprocess_text job_description)), [],
          Ok (Some {| jd_text := job_description;
                      jd_processed_text := preprocess_text job_description;
                      jd_entities := entities_jd;
                      jd_embedding := embedding_jd |})).
Proof.
  intros Hb He. unfold process_job_description. rewrite Hb, He.
  destruct (get_embedding_total vectorizer (preprocess_text job_description))
    as (emb & Eemb & Hlen).
  exists emb. destruct (get_embedding vectorizer (preprocess_text job_description))
    as [v' r]. cbn [fst snd] in *. subst r. cbn [bind].
  repeat split; [exact Hlen].
Qed.

End PipelineOutcome.

(** X15. Processing the uploads keeps, in upload order, exactly the files
    that can be parsed and whose entities can be extracted, and reports
    every other file by name; every resume it returns has a non-blank text,
    the normalization of that text as its processed text, and an embedding
    of 384 dimensions. *)
Theorem process_resumes_keeps_what_it_can_process
    {NL : Nltk} {SK : Sklearn} {EX : EntityExtractors} {RD : DocumentReaders}
    {TF : Tempfiles} (vectorizer : option TfidfVectorizer)
    (uploaded_files : list UploadedFile) :
  let '(_, notices, parsed_resumes) := process_resumes vectorizer uploaded_files in
  map filename parsed_resumes = map name (filter is_processed uploaded_files)
  /\ error_names notices
     = map name (filter (fun f => negb (is_processed f)) uploaded_files)
  /\ (List.length parsed_resumes + List.length (error_names notices)
      = List.length uploaded_files)%nat
  /\ Forall (fun resume =>
               List.length (embedding resume) = 384%nat
               /\ processed_text resume = preprocess_text (text resume)
               /\ is_blank (text resume) = false)
            parsed_resumes.
Proof.
  destruct (process_resumes_uploads vectorizer uploaded_files) as (Er & _ & En).
  destruct (process_uploads_spec uploaded_files vectorizer)
    as (H1 & _ & H3 & H4 & _ & _).
  destruct (process_resumes vectorizer uploaded_files) as [[final notices] resumes].
  cbn [fst snd] in Er, En. subst resumes. rewrite En.
  split; [exact H1 |]. split; [exact H4 |]. split; [| exact H3].
  rewrite H4, length_map. rewrite <- (length_map filename), H1, length_map.
  apply filter_complement_length.
Qed.

(** X16. A file that cannot be processed leaves no trace: the resumes
    returned and the state of the vectorizer after the batch are those of
    the batch without the files that fail. *)
Theorem failed_uploads_leave_no_trace
    {NL : Nltk} {SK : Sklearn} {EX : EntityExtractors} {RD : DocumentReaders}
    {TF : Tempfiles} (vectorizer : option TfidfVectorizer)
    (uploaded_files : list UploadedFile) :
  snd (process_resumes vectorizer uploaded_files)
  = snd (process_resumes vectorizer (filter is_processed uploaded_files))
  /\ fst (fst (process_resumes vectorizer uploaded_files))
     = fst (fst (process_resumes vectorizer (filter is_processed uploaded_files))).
Proof.
  destruct (process_resumes_uploads vectorizer uploaded_files) as (Er & Ev & _).
  destruct (process_resumes_uploads vectorizer (filter is_processed uploaded_files))
    as (Er' & Ev' & _).
  destruct (process_uploads_filter uploaded_files vectorizer) as (Hr & Hv).
  rewrite Er, Ev, Er', Ev'. split; assumption.
Qed.

Lemma map_eq_nil_inv {A B : Type} (f : A -> B) (l : list A) : map f l = [] -> l = [].
Proof. destruct l; [reflexivity | discriminate]. Qed.

(** X17. From the inputs to the ranking, where the temporary files and
    the lemmatizer do not fail and the numbers in the extracted experience
    phrases have at most 4300 digits, the length up to which [int]
    converts, the only exception that gets out is one of the entity
    extraction on the job description.  Nothing is ranked when the job
    description is blank or no upload can be processed.  Otherwise the
    ranking has one entry for every upload that can be processed, in
    descending order of overall scores between 0 and 100: the vectors of
    the pipeline all have 384 dimensions, so that the similarity never
    fails on their shapes. *)
Theorem process_and_rank_outcome
    {NP : Numpy} {NL : Nltk} {SK : Sklearn} {EX : EntityExtractors}
    {RD : DocumentReaders} {TF : Tempfiles} (vectorizer : option TfidfVectorizer)
    (job_description : string) (uploaded_files : list UploadedFile) :
  short_numbers_in (preprocess_text job_description) = true ->
  forallb short_numbers_in (processed_texts uploaded_files) = true ->
  match snd (process_and_rank vectorizer job_description uploaded_files) with
  | Err e =>
      is_blank job_description = false
      /\ extract_entities (preprocess_text job_description) = Err e
  | Ok None =>
      is_blank job_description = true \/ filter is_processed uploaded_files = []
  | Ok (Some ranked) =>
      is_blank job_description = false
      /\ Permutation (map ranked_filename ranked)
                     (map name (filter is_processed uploaded_files))
      /\ List.length ranked = List.length (filter is_processed uploaded_files)
      /\ StronglySorted ranks_before ranked
      /\ Forall (fun entry =>
                   pf_between 0 100 (match_score entry)
                   /\ List.length (ranked_embedding entry) = 384%nat)
                ranked
  end.
Proof.
  intros _ _.
  unfold process_and_rank.
  destruct (is_blank job_description) eqn:Hb.
  { unfold process_job_description. rewrite Hb. cbn. left. reflexivity. }
  destruct (extract_entities (preprocess_text job_description)) as [ents | e] eqn:He.
  2:{ unfold process_job_description. rewrite Hb, He. cbn. split; reflexivity. }
  destruct (process_job_description_spec vectorizer job_description ents Hb He)
    as (emb & _ & Hlen & ->).
  set (v1 := fst (get_embedding vectorizer (preprocess_text job_description))).
  set (jd := {| jd_text := job_description;
                jd_processed_text := preprocess_text job_description;
                jd_entities := ents; jd_embedding := emb |}).
  destruct (process_resumes_uploads v1 uploaded_files) as (Er & _ & _).
  destruct (process_uploads_spec uploaded_files v1) as (H1 & _ & H3 & _).
  rewrite <- Er in H1, H3.
  destruct (process_resumes v1 uploaded_files) as [[v2 notices2] parsed].
  cbn [fst snd] in H1, H3.
  destruct parsed as [| r rs] eqn:Eparsed.
  { cbn [snd]. right. symmetry in H1. apply map_eq_nil_inv in H1. exact H1. }
  rewrite <- Eparsed in *. clear Eparsed.
  assert (Hshape : well_shaped jd parsed).
  { unfold well_shaped. apply Forall_impl with (2 := H3).
    intros x (Hx & _). right. cbn [jd_embedding jd]. rewrite Hlen, Hx. reflexivity. }
  destruct (rank_loop_scored jd parsed Hshape) as (entries & E & Hs & Hbnd).
  rewrite (rank_resumes_sorts jd parsed entries E). cbn [snd bind].
  pose proof (list_sort_perm match_score true entries) as Hperm.
  pose proof (scored_in_order_sources _ _ _ Hs) as Hsrc.
  split; [reflexivity |]. split.
  { rewrite <- H1, <- Hsrc, map_map. cbn [ranked_source filename].
    apply Permutation_map. exact Hperm. }
  split.
  { rewrite (Permutation_length Hperm), <- (length_map ranked_source), Hsrc.
    rewrite <- (length_map filename), H1, length_map. reflexivity. }
  split.
  { apply list_sort_descending. apply Forall_impl with (2 := Hbnd).
    intros x Hx. exact (between_finite _ _ _ Hx). }
  apply (Permutation_Forall (Permutation_sym Hperm)).
  rewrite Forall_forall in Hbnd, H3 |- *. intros x Hx. split; [apply Hbnd; exact Hx |].
  assert (Hin : In (ranked_source x) parsed).
  { rewrite <- Hsrc. apply in_map. exact Hx. }
  destruct (H3 _ Hin) as (Hl & _). exact Hl.
Qed.

(** The theorem in the sample installation, at the sample uploads. *)
Lemma process_and_rank_outcome_witness :
  match snd (@process_and_rank sample_numpy sample_nltk sample_sklearn
               sample_extractors sample_readers sample_tempfiles None
               "Python developer with SQL, 10+ years" sample_uploads) with
  | Err e =>
      is_blank "Python developer with SQL, 10+ years" = false
      /\ @extract_entities sample_extractors
           (@preprocess_text sample_nltk "Python developer with SQL, 10+ years")
         = Err e
  | Ok None =>
      is_blank "Python developer with SQL, 10+ years" = true
      \/ filter (@is_processed sample_nltk sample_extractors sample_readers
                   sample_tempfiles) sample_uploads = []
  | Ok (Some ranked) =>
      is_blank "Python developer with SQL, 10+ years" = false
      /\ Permutation (map ranked_filename ranked)
                     (map name (filter (@is_processed sample_nltk sample_extractors
                                          sample_readers sample_tempfiles)
                                       sample_uploads))
      /\ List.length ranked
         = List.length (filter (@is_processed sample_nltk sample_extractors
                                  sample_readers sample_tempfiles) sample_uploads)
      /\ StronglySorted ranks_before ranked
      /\ Forall (fun entry =>
                   pf_between 0 100 (match_score entry)
                   /\ List.length (ranked_embedding entry) = 384%nat)
                ranked
  end.
Proof.
  apply (@process_and_rank_outcome sample_numpy sample_nltk sample_sklearn
           sample_extractors sample_readers sample_tempfiles None
           "Python developer with SQL, 10+ years" sample_uploads);
    vm_compute; reflexivity.
Defined.

(** X18. In a fresh session the application encodes the job description
    first and then the processed uploads in their order, so that the
    vocabulary is fitted from the normalized job description when that is
    not empty and can be fitted, and otherwise from the first processed
    upload of which this is true. *)
Theorem app_vocabulary_comes_from_first_fitting_text
    {NP : Numpy} {NL : Nltk} {SK : Sklearn} {EX : EntityExtractors}
    {RD : DocumentReaders} {TF : Tempfiles}
    (job_description : string) (uploaded_files : list UploadedFile)
    (entities_jd : Entities) :
  is_blank job_description = false ->
  extract_entities (preprocess_text job_description) = Ok entities_jd ->
  fitted_vocabulary (fst (fst (process_and_rank None job_description uploaded_files)))
  = first_fit (preprocess_text job_description :: processed_texts uploaded_files).
Proof.
  intros Hb He. unfold process_and_rank.
  destruct (process_job_description_spec None job_description entities_jd Hb He)
    as (emb & _ & _ & ->).
  set (v1 := fst (get_embedding None (preprocess_text job_description))).
  destruct (process_resumes_uploads v1 uploaded_files) as (_ & Ev & _).
  destruct (process_uploads_spec uploaded_files v1) as (_ & _ & _ & _ & H5 & _).
  rewrite <- Ev in H5.
  destruct (process_resumes v1 uploaded_files) as [[v2 notices2] parsed].
  cbn [fst snd] in H5.
  assert (Hfinal : fitted_vocabulary v2
                   = first_fit (preprocess_text job_description
                                :: processed_texts uploaded_files)).
  { rewrite H5, encode_all_vocabulary. unfold v1. rewrite fitted_vocabulary_step.
    cbn [fitted_vocabulary first_fit].
    destruct (try_fit (preprocess_text job_description)); reflexivity. }
  destruct parsed; exact Hfinal.
Qed.

(** The theorem with the sample libraries: the job description fits the
    vocabulary. *)
Lemma app_vocabulary_comes_from_first_fitting_text_witness :
  @fitted_vocabulary sample_sklearn
    (fst (fst (@process_and_rank sample_numpy sample_nltk sample_sklearn
                 sample_extractors sample_readers sample_tempfiles None
                 "Python developer with SQL, 10+ years" sample_uploads)))
  = @first_fit sample_sklearn
      (@preprocess_text sample_nltk "Python developer with SQL, 10+ years"
       :: @processed_texts sample_nltk sample_extractors sample_readers
            sample_tempfiles sample_uploads).
Proof.
  eapply (@app_vocabulary_comes_from_first_fitting_text sample_numpy sample_nltk
            sample_sklearn sample_extractors sample_readers sample_tempfiles
            "Python developer with SQL, 10+ years" sample_uploads).
  - vm_compute. reflexivity.
  - vm_compute. reflexivity.
Defined.

(** The sample run: a.pdf and b.DOCX are ranked, notes.txt is reported. *)
Example sample_run :
  let '(_, notices, outcome) :=
    @process_and_rank sample_numpy sample_nltk sample_sklearn sample_extractors
      sample_readers sample_tempfiles None
      "Python developer with SQL, 10+ years" sample_uploads in
  notices = [ErrorProcessing "notes.txt" ValueError]
  /\ match outcome with
     | Ok (Some ranked) => map ranked_filename ranked = ["a.pdf"; "b.DOCX"]
     | _ => False
     end.
Proof. vm_compute. split; reflexivity. Qed.

(** * Further properties of the scores *)

(** X19. Each of the four scores of a ranked entry, the overall score and
    the skills, education and experience scores, lies between 0 and 100:
    the values drawn by the radar chart stay within its axis. *)
Theorem reported_scores_are_percentages `{Numpy}
    (job_description : JobDescription) (resume : Resume) :
  comparable (jd_embedding job_description) (embedding resume) ->
  exists entry : RankedResume,
    rank_one job_description resume = Ok entry
    /\ Forall (pf_between 0 100) (radar_values entry).
Proof.
  intro Hshape.
  destruct (rank_one_spec job_description resume Hshape)
    as (sim & sk & ed & ex & entry & _ & _ & _ & _ & B & E & Em & Es & Ee & Ex & _).
  exists entry. split; [exact E |]. unfold radar_values.
  rewrite Em, Es, Ee, Ex.
  apply Forall_cons; [apply weighted_percentage_between; tauto |].
  repeat (apply Forall_cons; [apply percent_between; tauto |]). apply Forall_nil.
Qed.

(** The theorem with the sample norm, at the sample job and resume a. *)
Lemma reported_scores_are_percentages_witness :
  exists entry : RankedResume,
    @rank_one sample_numpy sample_job sample_resume_a = Ok entry
    /\ Forall (pf_between 0 100) (radar_values entry).
Proof.
  apply (@reported_scores_are_percentages sample_numpy sample_job sample_resume_a).
  right. reflexivity.
Defined.

(** ** The similarity does not depend on the order of its arguments *)

Lemma pf_eq_refl (x : pyfloat) : pf_eq x x.
Proof. destruct x; cbn; reflexivity || exact I. Qed.

Lemma Qeq_bool_proper (a a' b b' : Q) :
  a == a' -> b == b' -> Qeq_bool a b = Qeq_bool a' b'.
Proof.
  intros Ha Hb. destruct (Qeq_bool a b) eqn:E1, (Qeq_bool a' b') eqn:E2;
    try reflexivity.
  - apply Qeq_bool_iff in E1. apply Qeq_bool_neq in E2. exfalso. apply E2.
    rewrite <- Ha, <- Hb. exact E1.
  - apply Qeq_bool_iff in E2. apply Qeq_bool_neq in E1. exfalso. apply E1.
    rewrite Ha, Hb. exact E2.
Qed.

Lemma Qltb_proper (a a' b b' : Q) : a == a' -> b == b' -> Qltb a b = Qltb a' b'.
Proof.
  intros Ha Hb. destruct (Qltb a b) eqn:E1, (Qltb a' b') eqn:E2; try reflexivity.
  - apply Qltb_lt in E1. apply Qltb_ge in E2. lra.
  - apply Qltb_lt in E2. apply Qltb_ge in E1. lra.
Qed.

Lemma round64_comp (a b : Q) : a == b -> round64 a = round64 b.
Proof. intro H. unfold round64. rewrite (double_comp a b H). reflexivity. Qed.

Lemma pf_add_proper (x x' y y' : pyfloat) :
  pf_eq x x' -> pf_eq y y' -> pf_eq (pf_add x y) (pf_add x' y').
Proof.
  destruct x as [a | n |], x' as [a' | n' |], y as [b | m |], y' as [b' | m' |];
    cbn [pf_add pf_eq]; try tauto; intros Hx Hy; subst;
    try reflexivity; try exact I.
  - rewrite (double_comp a a' Hx), (double_comp b b' Hy). apply pf_eq_refl.
  - destruct (Bool.eqb _ _); cbn; reflexivity || exact I.
Qed.

Lemma pf_mul_proper (x x' y y' : pyfloat) :
  pf_eq x x' -> pf_eq y y' -> pf_eq (pf_mul x y) (pf_mul x' y').
Proof.
  destruct x as [a | n |], x' as [a' | n' |], y as [b | m |], y' as [b' | m' |];
    cbn [pf_mul pf_eq]; try tauto; intros Hx Hy; subst; try reflexivity;
    try exact I.
  - rewrite (double_comp a a' Hx), (double_comp b b' Hy). apply pf_eq_refl.
  - rewrite (Qeq_bool_proper a a' 0 0 Hx (Qeq_refl 0)).
    unfold Qsign_neg. rewrite (Qltb_proper a a' 0 0 Hx (Qeq_refl 0)).
    destruct (Qeq_bool a' 0); cbn; reflexivity || exact I.
  - rewrite (Qeq_bool_proper b b' 0 0 Hy (Qeq_refl 0)).
    unfold Qsign_neg. rewrite (Qltb_proper b b' 0 0 Hy (Qeq_refl 0)).
    destruct (Qeq_bool b' 0); cbn; reflexivity || exact I.
Qed.

Lemma pf_mul_comm (x y : pyfloat) : pf_eq (pf_mul x y) (pf_mul y x).
Proof.
  destruct x as [a | n |], y as [b | m |]; cbn [pf_mul pf_eq]; try exact I.
  - rewrite (round64_comp _ _ (Qmult_comm (double a) (double b))). apply pf_eq_refl.
  - destruct (Qeq_bool a 0); cbn; reflexivity || exact I.
  - destruct (Qeq_bool b 0); cbn; reflexivity || exact I.
  - apply xorb_comm.
Qed.

Lemma np_div_proper (x x' y y' : pyfloat) :
  pf_eq x x' -> pf_eq y y' -> pf_eq (np_div x y) (np_div x' y').
Proof.
  destruct x as [a | n |], x' as [a' | n' |], y as [b | m |], y' as [b' | m' |];
    cbn [np_div pf_eq]; try tauto; intros Hx Hy; subst; try reflexivity;
    try exact I.
  - rewrite (Qeq_bool_proper b b' 0 0 Hy (Qeq_refl 0)).
    rewrite (Qeq_bool_proper a a' 0 0 Hx (Qeq_refl 0)).
    unfold Qsign_neg. rewrite (Qltb_proper a a' 0 0 Hx (Qeq_refl 0)).
    destruct (Qeq_bool b' 0) eqn:Eb.
    + destruct (Qeq_bool a' 0); cbn; reflexivity || exact I.
    + rewrite (double_comp a a' Hx), (double_comp b b' Hy). apply pf_eq_refl.
  - unfold Qsign_neg. rewrite (Qltb_proper b b' 0 0 Hy (Qeq_refl 0)). reflexivity.
Qed.

Lemma pf_ltb_proper (x x' y y' : pyfloat) :
  pf_eq x x' -> pf_eq y y' -> pf_ltb x y = pf_ltb x' y'.
Proof.
  destruct x, x', y, y'; cbn; try tauto; intros Hx Hy; subst; try reflexivity.
  apply Qltb_proper; assumption.
Qed.

Lemma py_min_proper (a x x' : pyfloat) :
  pf_eq x x' -> pf_eq (py_min a x) (py_min a x').
Proof.
  intro Hx. unfold py_min. rewrite (pf_ltb_proper x x' a a Hx (pf_eq_refl a)).
  destruct (pf_ltb x' a); [exact Hx | apply pf_eq_refl].
Qed.

Lemma py_max_proper (a x x' : pyfloat) :
  pf_eq x x' -> pf_eq (py_max a x) (py_max a x').
Proof.
  intro Hx. unfold py_max. rewrite (pf_ltb_proper a a x x' (pf_eq_refl a) Hx).
  destruct (pf_ltb a x'); [exact Hx | apply pf_eq_refl].
Qed.

Lemma dot_from_sym (a b : list pyfloat) (acc acc' : pyfloat) :
  pf_eq acc acc' -> pf_eq (dot_from a b acc) (dot_from b a acc').
Proof.
  revert b acc acc'. induction a as [| x a IH]; intros b acc acc' Hacc.
  - destruct b; exact Hacc.
  - destruct b as [| y b]; [exact Hacc |]. cbn [dot_from]. apply IH.
    apply pf_add_proper; [exact Hacc | apply pf_mul_comm].
Qed.

(** X20. The similarity is symmetric: with the two vectors exchanged the
    outcome is the same, the same value or the same ValueError. *)
Theorem similarity_is_symmetric `{Numpy} (embedding1 embedding2 : list pyfloat) :
  same_outcome (calculate_similarity embedding1 embedding2)
               (calculate_similarity embedding2 embedding1).
Proof.
  unfold calculate_similarity.
  rewrite (orb_comm (np_all_zero embedding2)).
  destruct (np_all_zero embedding1 || np_all_zero embedding2); [cbn; reflexivity |].
  unfold np_dot. rewrite (Nat.eqb_sym (List.length embedding2)).
  destruct (List.length embedding1 =? List.length embedding2)%nat;
    [| cbn; reflexivity].
  cbn [bind same_outcome].
  apply py_max_proper, py_min_proper, np_div_proper.
  - apply dot_from_sym. apply pf_eq_refl.
  - apply pf_mul_comm.
Qed.

(** * The embeddings of sections *)

Lemma dict_get_set {V : Type} (d : dict V) (k k' : string) (v : V) :
  dict_get (dict_set d k v) k' = if String.eqb k' k then Some v else dict_get d k'.
Proof.
  induction d as [| [k0 v0] d IH]; cbn [dict_set dict_get].
  - reflexivity.
  - destruct (String.eqb_spec k k0) as [-> | Hne]; cbn [dict_get].
    + destruct (String.eqb k' k0); reflexivity.
    + rewrite IH. destruct (String.eqb_spec k' k0) as [-> | Hne'];
        [| reflexivity].
      destruct (String.eqb_spec k0 k) as [-> | _]; [contradiction | reflexivity].
Qed.

Lemma section_loop_spec `{Sklearn} `{SectionPattern} (text : string)
    (sections : list string) (vectorizer : option TfidfVectorizer)
    (d0 : dict (list pyfloat)) :
  (forall s e, dict_get d0 s = Some e ->
               List.length e = 384%nat
               /\ (not_found s text -> e = np_zeros 384)) ->
  match snd (section_loop vectorizer text sections d0) with
  | Ok d =>
      (forall s, (In s sections \/ dict_get d0 s <> None) <-> dict_get d s <> None)
      /\ (forall s e, dict_get d s = Some e ->
                      List.length e = 384%nat
                      /\ (not_found s text -> e = np_zeros 384))
      /\ Forall (fun s => searchable s text) sections
  | Err e =>
      exists s, In s sections
                /\ (findall_section s text = Err e
                    \/ (e = TypeError
                        /\ exists tuples, tuples <> []
                                          /\ findall_section s text = Ok (Tuples tuples)))
  end.
Proof.
  revert vectorizer d0. induction sections as [| section rest IH];
    intros vectorizer d0 Hd0.
  - cbn. split; [| split; [exact Hd0 | constructor]].
    intro s. split; [intros [[] | Hs]; exact Hs | tauto].
  - cbn [section_loop].
    destruct (findall_section section text) as [matches | e] eqn:Ef.
    2:{ cbn. exists section. split; [left; reflexivity | left; exact Ef]. }
    assert (Hstep : forall (v : option TfidfVectorizer) (emb : list pyfloat),
               List.length emb = 384%nat ->
               (no_match matches = true -> emb = np_zeros 384) ->
               (forall tuples, matches = Tuples tuples -> tuples = []) ->
               match snd (section_loop v text rest (dict_set d0 section emb)) with
               | Ok d =>
                   (forall s, (In s (section :: rest) \/ dict_get d0 s <> None)
                              <-> dict_get d s <> None)
                   /\ (forall s e, dict_get d s = Some e ->
                                   List.length e = 384%nat
                                   /\ (not_found s text -> e = np_zeros 384))
                   /\ Forall (fun s => searchable s text) (section :: rest)
               | Err e =>
                   exists s, In s (section :: rest)
                             /\ (findall_section s text = Err e
                                 \/ (e = TypeError
                                     /\ exists tuples,
                                          tuples <> []
                                          /\ findall_section s text = Ok (Tuples tuples)))
               end).
    { intros v emb Hemb Hzero Htuples.
      assert (Hd1 : forall s e, dict_get (dict_set d0 section emb) s = Some e ->
                                List.length e = 384%nat
                                /\ (not_found s text -> e = np_zeros 384)).
      { intros s e. rewrite dict_get_set.
        destruct (String.eqb_spec s section) as [-> | Hne]; [| apply Hd0].
        intro Hs. injection Hs as <-. split; [exact Hemb |].
        intros (m & Em & Hm). rewrite Ef in Em. injection Em as <-.
        apply Hzero. exact Hm. }
      specialize (IH v (dict_set d0 section emb) Hd1).
      destruct (snd (section_loop v text rest (dict_set d0 section emb))) as [d | e].
      - destruct IH as (Hk & Hv & Hs). split; [| split; [exact Hv |]].
        + intro s. rewrite <- Hk, dict_get_set. cbn [In].
          destruct (String.eqb_spec s section) as [-> | Hne].
          * split; [intros _; right; discriminate | intros _; left; left; reflexivity].
          * split; [intros [[Heq | Hin] | Hd]; [congruence | tauto | tauto] | tauto].
        + constructor; [| exact Hs]. exists matches. split; [exact Ef | exact Htuples].
      - destruct IH as (s & Hin & Hs). exists s. split; [right; exact Hin | exact Hs]. }
    destruct (no_match matches) eqn:Enone.
    { apply Hstep; [apply np_zeros_length | reflexivity |].
      intros tuples ->. destruct tuples; [reflexivity | discriminate]. }
    destruct matches as [texts | [| tuple tuples]]; cbn [join_matches];
      [| discriminate |].
    + destruct (get_embedding_total vectorizer (String.concat " " texts))
        as (emb & Eemb & Hlen).
      destruct (get_embedding vectorizer (String.concat " " texts)) as [v' r].
      cbn [snd] in Eemb. subst r.
      apply Hstep; [exact Hlen | discriminate | discriminate].
    + cbn [snd]. exists section. split; [left; reflexivity |]. right.
      split; [reflexivity |]. exists (tuple :: tuples). split; [discriminate | exact Ef].
Qed.

(** X21. When every section name is a regular expression without groups
    of its own, the dictionary of section embeddings has an entry for
    exactly the sections asked for, every entry is a vector of 384
    dimensions, and the entry of a section that is not found is the zero
    vector.  Only then is a dictionary returned: the exception of a section
    name that is no regular expression gets out, and a name with a group
    that is found in the text raises a TypeError, since the matches are
    then tuples that cannot be joined. *)
Theorem section_embeddings_cover_the_sections `{Sklearn} `{SectionPattern}
    (vectorizer : option TfidfVectorizer) (text : string) (sections : list string) :
  match snd (get_section_embeddings vectorizer text sections) with
  | Ok section_embeddings =>
      (forall section : string,
          In section sections <-> dict_get section_embeddings section <> None)
      /\ (forall (section : string) (embedding : list pyfloat),
             dict_get section_embeddings section = Some embedding ->
             List.length embedding = 384%nat)
      /\ (forall section : string,
             In section sections -> not_found section text ->
             dict_get section_embeddings section = Some (np_zeros 384))
      /\ Forall (fun section => searchable section text) sections
  | Err e =>
      exists section : string,
        In section sections
        /\ (findall_section section text = Err e
            \/ (e = TypeError
                /\ exists tuples : list (list string),
                     tuples <> []
                     /\ findall_section section text = Ok (Tuples tuples)))
  end.
Proof.
  unfold get_section_embeddings.
  pose proof (section_loop_spec text sections vectorizer []) as Hspec.
  destruct (snd (section_loop vectorizer text sections [])) as [d | e].
  - destruct Hspec as (Hk & Hv & Hs); [discriminate |].
    assert (Hkeys : forall section : string,
               In section sections <-> dict_get d section <> None).
    { intro s. rewrite <- Hk. cbn [dict_get]. tauto. }
    split; [exact Hkeys |]. split; [intros s e Hs'; exact (proj1 (Hv s e Hs')) |].
    split; [| exact Hs].
    intros s Hin Hnf. apply Hkeys in Hin.
    destruct (dict_get d s) as [e |] eqn:Ed; [| contradiction].
    f_equal. exact (proj2 (Hv s e Ed) Hnf).
  - apply Hspec. discriminate.
Qed.

(** ** The extractors of [entity_extractor.py] *)

Lemma existsb_eqb_in (x : string) (l : list string) :
  existsb (String.eqb x) l = true <-> In x l.
Proof.
  rewrite existsb_exists. split.
  - intros (y & Hy & E). apply String.eqb_eq in E. subst y. exact Hy.
  - intro Hx. exists x. split; [exact Hx | apply String.eqb_refl].
Qed.

Lemma set_add_in (s : list string) (x y : string) :
  In y (set_add s x) <-> In y s \/ y = x.
Proof.
  unfold set_add. destruct (existsb (String.eqb x) s) eqn:E.
  - apply existsb_eqb_in in E. split; [tauto |]. intros [Hy | ->]; assumption.
  - rewrite in_app_iff. cbn [In]. split.
    + intros [Hy | [-> | []]]; [left; exact Hy | right; reflexivity].
    + intros [Hy | ->]; [left; exact Hy | right; left; reflexivity].
Qed.

Lemma set_add_NoDup (s : list string) (x : string) :
  NoDup s -> NoDup (set_add s x).
Proof.
  intro Hs. unfold set_add. destruct (existsb (String.eqb x) s) eqn:E; [exact Hs |].
  apply (Permutation_NoDup (Permutation_cons_append s x)).
  constructor; [| exact Hs].
  intro Hx. apply existsb_eqb_in in Hx. congruence.
Qed.

Lemma list_of_set_in `{SetOrder} (l : list string) (x : string) :
  In x (list_of_set l) <-> In x l.
Proof.
  split; apply Permutation_in;
    [apply list_of_set_perm | apply Permutation_sym, list_of_set_perm].
Qed.

Lemma list_of_set_NoDup `{SetOrder} (l : list string) :
  NoDup l -> NoDup (list_of_set l).
Proof. apply Permutation_NoDup, Permutation_sym, list_of_set_perm. Qed.

Lemma add_entity_skills_in (entities : list Span) (skills : list string) (s : string) :
  In s (EntityExtractor.add_entity_skills entities skills) <->
  In s skills
  \/ exists ent : Span,
       In ent entities /\ In (label_ ent) ["PRODUCT"; "ORG"; "GPE"]
       /\ (1 < String.length (span_text ent))%nat /\ s = lower (span_text ent).
Proof.
  revert skills. induction entities as [| ent rest IH]; intro skills;
    cbn [EntityExtractor.add_entity_skills].
  - split; [tauto |]. intros [Hs | (e & [] & _)]. exact Hs.
  - rewrite IH. clear IH.
    destruct (existsb (String.eqb (label_ ent)) ["PRODUCT"; "ORG"; "GPE"]) eqn:El;
      destruct (1 <? String.length (span_text ent))%nat eqn:En; cbn [andb];
      try rewrite set_add_in.
    + apply existsb_eqb_in in El. apply Nat.ltb_lt in En. split.
      * intros [[Hs | ->] | (e & He & Hrest)];
          [left; exact Hs | right; exists ent; cbn [In]; tauto
          | right; exists e; cbn [In]; tauto].
      * intros [Hs | (e & [<- | He] & Hrest)];
          [tauto | left; right; tauto | right; exists e; tauto].
    + apply Nat.ltb_ge in En. split.
      * intros [Hs | (e & He & Hrest)]; [tauto | right; exists e; cbn [In]; tauto].
      * intros [Hs | (e & [<- | He] & Hl & Hn & Hrest)];
          [tauto | lia | right; exists e; tauto].
    + assert (Hl' : ~ In (label_ ent) ["PRODUCT"; "ORG"; "GPE"]).
      { intro Hl. apply existsb_eqb_in in Hl. congruence. }
      split.
      * intros [Hs | (e & He & Hrest)]; [tauto | right; exists e; cbn [In]; tauto].
      * intros [Hs | (e & [<- | He] & Hl & Hrest)];
          [tauto | contradiction | right; exists e; tauto].
    + assert (Hl' : ~ In (label_ ent) ["PRODUCT"; "ORG"; "GPE"]).
      { intro Hl. apply existsb_eqb_in in Hl. congruence. }
      split.
      * intros [Hs | (e & He & Hrest)]; [tauto | right; exists e; cbn [In]; tauto].
      * intros [Hs | (e & [<- | He] & Hl & Hrest)];
          [tauto | contradiction | right; exists e; tauto].
Qed.

Lemma add_lexicon_skills_in (lexicon : list string) (text_lower : string)
    (skills : list string) (s : string) :
  In s (EntityExtractor.add_lexicon_skills lexicon text_lower skills) <->
  In s skills
  \/ exists skill : string,
       In skill lexicon /\ search_word skill text_lower = true /\ s = lower skill.
Proof.
  revert skills. induction lexicon as [| skill rest IH]; intro skills;
    cbn [EntityExtractor.add_lexicon_skills].
  - split; [tauto |]. intros [Hs | (e & [] & _)]. exact Hs.
  - rewrite IH. clear IH. destruct (search_word skill text_lower) eqn:E;
      try rewrite set_add_in.
    + split.
      * intros [[Hs | ->] | (e & He & Hrest)];
          [left; exact Hs | right; exists skill; cbn [In]; tauto
          | right; exists e; cbn [In]; tauto].
      * intros [Hs | (e & [<- | He] & Hrest)];
          [tauto | left; right; tauto | right; exists e; tauto].
    + split.
      * intros [Hs | (e & He & Hrest)]; [tauto | right; exists e; cbn [In]; tauto].
      * intros [Hs | (e & [<- | He] & Hf & Hrest)];
          [tauto | congruence | right; exists e; tauto].
Qed.

Lemma add_token_skills_in (tokens : list Token) (skills : list string) (s : string) :
  In s (EntityExtractor.add_token_skills tokens skills) <->
  In s skills
  \/ exists token : Token,
       In token tokens /\ is_alpha token = true
       /\ (1 < String.length (token_text token))%nat
       /\ s = lower (token_text token) /\ In s COMMON_SKILLS.
Proof.
  revert skills. induction tokens as [| token rest IH]; intro skills;
    cbn [EntityExtractor.add_token_skills].
  - split; [tauto |]. intros [Hs | (e & [] & _)]. exact Hs.
  - rewrite IH. clear IH.
    set (word := lower (token_text token)).
    assert (Hstep :
      In s (if is_alpha token && (1 <? String.length (token_text token))%nat
               && negb (existsb (String.eqb word) skills)
            then if existsb (String.eqb word) COMMON_SKILLS
                 then set_add skills word else skills
            else skills) <->
      In s skills
      \/ (is_alpha token = true /\ (1 < String.length (token_text token))%nat
          /\ s = word /\ In s COMMON_SKILLS)).
    { split.
      - destruct (is_alpha token && (1 <? String.length (token_text token))%nat
                  && negb (existsb (String.eqb word) skills)) eqn:E1; [| tauto].
        destruct (existsb (String.eqb word) COMMON_SKILLS) eqn:Ec; [| tauto].
        rewrite set_add_in. intros [Hs | ->]; [tauto |]. right.
        apply andb_prop in E1. destruct E1 as [E1 _].
        apply andb_prop in E1. destruct E1 as [Ea En].
        apply Nat.ltb_lt in En. apply existsb_eqb_in in Ec. tauto.
      - intros [Hs | (Ha & Hn & -> & Hc)].
        + destruct (is_alpha token && (1 <? String.length (token_text token))%nat
                    && negb (existsb (String.eqb word) skills)); [| exact Hs].
          destruct (existsb (String.eqb word) COMMON_SKILLS); [| exact Hs].
          apply set_add_in. left. exact Hs.
        + destruct (existsb (String.eqb word) skills) eqn:Ei.
          * apply existsb_eqb_in in Ei. rewrite andb_false_r. exact Ei.
          * apply Nat.ltb_lt in Hn. rewrite Ha, Hn. cbn [andb negb].
            apply existsb_eqb_in in Hc. rewrite Hc.
            apply set_add_in. right. reflexivity. }
    rewrite Hstep. split.
    + intros [[Hs | Hs] | (e & He & Hrest)];
        [tauto | right; exists token; cbn [In]; tauto
        | right; exists e; cbn [In]; tauto].
    + intros [Hs | (e & [<- | He] & Hrest)];
        [tauto | left; right; exact Hrest | right; exists e; tauto].
Qed.

Lemma add_entity_skills_NoDup (entities : list Span) (skills : list string) :
  NoDup skills -> NoDup (EntityExtractor.add_entity_skills entities skills).
Proof.
  revert skills. induction entities as [| ent rest IH]; intros skills Hs; [exact Hs |].
  cbn [EntityExtractor.add_entity_skills]. apply IH.
  destruct (_ && _); [apply set_add_NoDup |]; exact Hs.
Qed.

Lemma add_lexicon_skills_NoDup (lexicon : list string) (text_lower : string)
    (skills : list string) :
  NoDup skills -> NoDup (EntityExtractor.add_lexicon_skills lexicon text_lower skills).
Proof.
  revert skills. induction lexicon as [| skill rest IH]; intros skills Hs; [exact Hs |].
  cbn [EntityExtractor.add_lexicon_skills]. apply IH.
  destruct (search_word skill text_lower); [apply set_add_NoDup |]; exact Hs.
Qed.

Lemma add_token_skills_NoDup (tokens : list Token) (skills : list string) :
  NoDup skills -> NoDup (EntityExtractor.add_token_skills tokens skills).
Proof.
  revert skills. induction tokens as [| token rest IH]; intros skills Hs; [exact Hs |].
  cbn [EntityExtractor.add_token_skills]. apply IH.
  destruct (_ && _); [| exact Hs].
  destruct (existsb _ COMMON_SKILLS); [apply set_add_NoDup |]; exact Hs.
Qed.

Lemma common_skills_lower (skill : string) :
  In skill COMMON_SKILLS -> lower skill = skill.
Proof.
  unfold COMMON_SKILLS. cbn [In]. intro Hs.
  repeat (destruct Hs as [<- | Hs]; [reflexivity |]). contradiction.
Qed.

(** X22. When the spaCy pipeline returns a document, [extract_skills]
    returns a list without repetitions that holds exactly: the lower-cased
    texts, longer than one character, of the entities labelled PRODUCT, ORG
    or GPE; the lexicon entries found between word boundaries in the
    lower-cased text; and, when the text has one of the code words, the
    lower-cased alphabetic tokens, longer than one character, that are
    lexicon entries.  When the pipeline raises, so does [extract_skills]. *)
Theorem extracted_skills_are_entities_or_lexicon_entries `{Spacy} `{SetOrder}
    (text : string) :
  match nlp text with
  | Ok doc =>
      exists found : list string,
        EntityExtractor.extract_skills text = Ok found
        /\ NoDup found
        /\ forall s : string,
             In s found <->
             (exists ent : Span,
                 In ent (ents doc) /\ In (label_ ent) ["PRODUCT"; "ORG"; "GPE"]
                 /\ (1 < String.length (span_text ent))%nat
                 /\ s = lower (span_text ent))
             \/ (In s COMMON_SKILLS /\ search_word s (lower text) = true)
             \/ (search_bounded true code_words text <> None
                 /\ exists token : Token,
                      In token (doc_tokens doc) /\ is_alpha token = true
                      /\ (1 < String.length (token_text token))%nat
                      /\ s = lower (token_text token) /\ In s COMMON_SKILLS)
  | Err e => EntityExtractor.extract_skills text = Err e
  end.
Proof.
  unfold EntityExtractor.extract_skills.
  destruct (nlp text) as [doc | e]; cbn [bind]; [| reflexivity].
  eexists. split; [reflexivity |]. split.
  - apply list_of_set_NoDup. unfold EntityExtractor.skills_set.
    destruct (search_bounded true code_words text);
      [apply add_token_skills_NoDup |];
      apply add_lexicon_skills_NoDup, add_entity_skills_NoDup; constructor.
  - intro s. rewrite list_of_set_in.
    assert (Hlex :
      In s (EntityExtractor.add_lexicon_skills COMMON_SKILLS (lower text)
              (EntityExtractor.add_entity_skills (ents doc) [])) <->
      (exists ent : Span,
          In ent (ents doc) /\ In (label_ ent) ["PRODUCT"; "ORG"; "GPE"]
          /\ (1 < String.length (span_text ent))%nat
          /\ s = lower (span_text ent))
      \/ (In s COMMON_SKILLS /\ search_word s (lower text) = true)).
    { rewrite add_lexicon_skills_in, add_entity_skills_in. split.
      - intros [[[] | He] | (skill & Hin & Hf & ->)]; [left; exact He | right].
        rewrite (common_skills_lower _ Hin). tauto.
      - intros [He | [Hin Hf]]; [tauto |]. right. exists s.
        rewrite (common_skills_lower _ Hin). tauto. }
    unfold EntityExtractor.skills_set.
    destruct (search_bounded true code_words text) as [word |].
    + rewrite add_token_skills_in, Hlex. split.
      * intros [[He | Hl] | Ht]; [tauto | tauto |].
        right; right. split; [discriminate | exact Ht].
      * intros [He | [Hl | [_ Ht]]]; tauto.
    + rewrite Hlex. split; [tauto |].
      intros [He | [Hl | [Hn _]]]; [tauto | tauto | congruence].
Qed.

Lemma last_char_nonempty (prev prev' : option ascii) (s : string) :
  s <> EmptyString -> last_char prev s = last_char prev' s.
Proof. destruct s; [congruence | reflexivity]. Qed.

Lemma last_char_app (prev : option ascii) (a b : string) :
  last_char prev (a ++ b) = last_char (last_char prev a) b.
Proof.
  revert prev. induction a as [| c a IH]; intro prev; [reflexivity |].
  cbn [String.append last_char]. apply IH.
Qed.

Lemma drop_app (a b : string) : drop (String.length a) (a ++ b) = b.
Proof. induction a as [| c a IH]; [reflexivity | exact IH]. Qed.

Lemma match_bounded_alternatives_found (ignorecase : bool) (alts : list string)
    (prev : option ascii) (s found : string) :
  match_bounded_alternatives ignorecase alts prev s = Some found ->
  exists alt : string,
    In alt alts /\ match_bounded ignorecase alt prev s = true
    /\ found = substring 0 (String.length alt) s.
Proof.
  induction alts as [| alt rest IH]; cbn [match_bounded_alternatives]; [discriminate |].
  destruct (match_bounded ignorecase alt prev s) eqn:E.
  - intros [= <-]. exists alt. cbn [In]. tauto.
  - intro Hf. destruct (IH Hf) as (a & Ha & Hrest). exists a. cbn [In]. tauto.
Qed.

(** A match of [search_bounded_from] is a match of one of the alternatives
    at some position of the text. *)
Lemma search_bounded_from_found (ignorecase : bool) (alts : list string)
    (s : string) (prev : option ascii) (found : string) :
  search_bounded_from ignorecase alts prev s = Some found ->
  exists (pre rest alt : string),
    s = pre ++ rest /\ In alt alts
    /\ match_bounded ignorecase alt (last_char prev pre) rest = true
    /\ found = substring 0 (String.length alt) rest.
Proof.
  revert prev. induction s as [| c s IH]; intro prev; cbn [search_bounded_from];
    destruct (match_bounded_alternatives ignorecase alts prev _) as [x |] eqn:E;
    try discriminate.
  - intros [= <-]. destruct (match_bounded_alternatives_found _ _ _ _ _ E)
      as (alt & Ha & Hm & Hx).
    exists EmptyString, EmptyString, alt. cbn [last_char]. tauto.
  - intros [= <-]. destruct (match_bounded_alternatives_found _ _ _ _ _ E)
      as (alt & Ha & Hm & Hx).
    exists EmptyString, (String c s), alt. cbn [last_char]. tauto.
  - intro Hf. destruct (IH _ Hf) as (pre & rest & alt & -> & Ha & Hm & Hx).
    exists (String c pre), rest, alt. cbn [last_char]. tauto.
Qed.

(** A lexicon entry that the search finds stands in the text, with a word
    boundary on each side. *)
Lemma search_word_found (literal s : string) :
  search_word literal s = true ->
  exists pre post : string,
    s = pre ++ literal ++ post
    /\ word_boundary (last_char None pre) (head_char (literal ++ post)) = true
    /\ word_boundary (last_char (last_char None pre) literal) (head_char post) = true.
Proof.
  unfold search_word, search_bounded.
  destruct (search_bounded_from false [literal] None s) as [found |] eqn:E;
    [intros _ | discriminate].
  destruct (search_bounded_from_found _ _ _ _ _ E)
    as (pre & rest & alt & -> & [<- | []] & Hm & _).
  unfold match_bounded in Hm. cbn [fold_case] in Hm.
  apply andb_prop in Hm. destruct Hm as [Hm Hafter].
  apply andb_prop in Hm. destruct Hm as [Hp Hbefore].
  destruct (prefix_split _ _ Hp) as [post ->].
  rewrite drop_app in Hafter. exists pre, post. tauto.
Qed.

(** X23. A lexicon entry that ends in a character that is no word
    character, as c++ and c# do, is found only where a word character
    follows it at once: the word boundary asked for after the entry is not
    met at a space, at punctuation or at the end of the text. *)
Theorem skill_ending_in_symbol_needs_word_after (skill text : string) (c : ascii) :
  last_char None skill = Some c -> is_word c = false ->
  search_word skill text = true ->
  exists (pre : string) (w : ascii) (post : string),
    text = pre ++ skill ++ String w post /\ is_word w = true.
Proof.
  intros Hlast Hc Hfound.
  destruct (search_word_found _ _ Hfound) as (pre & post & -> & _ & Hafter).
  assert (Hne : skill <> EmptyString) by (intros ->; discriminate).
  rewrite (last_char_nonempty _ None _ Hne), Hlast in Hafter.
  unfold word_boundary in Hafter. cbn [is_word_opt] in Hafter. rewrite Hc in Hafter.
  destruct post as [| w post]; cbn [head_char is_word_opt xorb] in Hafter;
    [discriminate |].
  exists pre, w, post. split; [reflexivity | exact Hafter].
Qed.

Lemma skill_ending_in_symbol_needs_word_after_witness :
  exists (pre : string) (w : ascii) (post : string),
    "c++11" = pre ++ "c++" ++ String w post /\ is_word w = true.
Proof.
  apply (skill_ending_in_symbol_needs_word_after "c++" "c++11" "+");
    reflexivity.
Defined.

Lemma lower_char_word_or_space (c : ascii) :
  word_or_space (lower_char c) = word_or_space c.
Proof. destruct c as [[] [] [] [] [] [] [] []]; reflexivity. Qed.

Lemma lower_word_or_space (s : string) :
  all_chars word_or_space (lower s) = all_chars word_or_space s.
Proof.
  induction s as [| c s IH]; [reflexivity |].
  cbn [lower all_chars]. rewrite lower_char_word_or_space, IH. reflexivity.
Qed.

(** X24. In a text of word characters and whitespace, as the cleaning of
    the normalization leaves it, the lexicon search finds no entry that
    holds another character: the six entries of the lexicon that hold one
    are not added by the loop over the lexicon. *)
Theorem normalized_text_has_no_skill_with_symbols (text skill : string) :
  all_chars word_or_space text = true ->
  (all_chars word_or_space skill = false -> search_word skill (lower text) = false)
  /\ (In skill ["c++"; "c#"; "node.js"; "asp.net"; "scikit-learn"; "ci/cd"] ->
      ~ In skill (EntityExtractor.add_lexicon_skills COMMON_SKILLS (lower text) [])).
Proof.
  intro Htext.
  assert (Hgen : forall k : string,
             all_chars word_or_space k = false ->
             search_word k (lower text) = false).
  { intros k Hk. destruct (search_word k (lower text)) eqn:E; [| reflexivity].
    destruct (search_word_found _ _ E) as (pre & post & Heq & _).
    rewrite <- lower_word_or_space, Heq, !all_chars_app, Hk in Htext.
    rewrite andb_false_r in Htext. discriminate. }
  split; [apply Hgen |].
  intros Hsix Hin.
  pose proof (proj1 (add_lexicon_skills_in COMMON_SKILLS (lower text) [] skill) Hin)
    as [[] | (entry & Hentry & Hfound & ->)].
  rewrite (common_skills_lower _ Hentry) in Hsix.
  assert (Hsym : all_chars word_or_space entry = false).
  { cbn [In] in Hsix.
    repeat (destruct Hsix as [<- | Hsix]; [reflexivity |]). contradiction. }
  rewrite (Hgen entry Hsym) in Hfound. discriminate.
Qed.

Lemma normalized_text_has_no_skill_with_symbols_witness :
  (all_chars word_or_space "c++" = false ->
   search_word "c++" (lower "c developer with node js") = false)
  /\ (In "c++" ["c++"; "c#"; "node.js"; "asp.net"; "scikit-learn"; "ci/cd"] ->
      ~ In "c++" (EntityExtractor.add_lexicon_skills COMMON_SKILLS
                    (lower "c developer with node js") [])).
Proof.
  apply (normalized_text_has_no_skill_with_symbols "c developer with node js" "c++").
  reflexivity.
Defined.

(** *** The years of experience, from the extractor to the scorer *)

Lemma match_alternatives_found (alts : list string) (s alt : string) :
  match_alternatives alts s = Some alt -> In alt alts /\ prefix alt s = true.
Proof.
  induction alts as [| a rest IH]; cbn [match_alternatives]; [discriminate |].
  destruct (prefix a s) eqn:E.
  - intros [= <-]. cbn [In]. tauto.
  - intro Hf. cbn [In]. tauto.
Qed.

Lemma lower_app (a b : string) : lower (a ++ b) = lower a ++ lower b.
Proof.
  induction a as [| c a IH]; [reflexivity |].
  cbn [String.append lower]. rewrite IH. reflexivity.
Qed.

Lemma lower_fixed (s : string) : all_chars not_upper s = true -> lower s = s.
Proof.
  induction s as [| c s IH]; [reflexivity |]. cbn [all_chars lower]. intro Hs.
  apply andb_prop in Hs. destruct Hs as [Hc Hs]. rewrite (IH Hs).
  unfold lower_char. unfold not_upper in Hc. apply negb_true_iff in Hc.
  rewrite Hc. reflexivity.
Qed.

Lemma digit_not_upper (c : ascii) : is_digit c = true -> not_upper c = true.
Proof. destruct c as [[] [] [] [] [] [] [] []]; try reflexivity; discriminate. Qed.

Lemma all_chars_impl (p q : ascii -> bool) (s : string) :
  (forall c, p c = true -> q c = true) ->
  all_chars p s = true -> all_chars q s = true.
Proof.
  intro Hpq. induction s as [| c s IH]; [reflexivity |]. cbn [all_chars]. intro Hs.
  apply andb_prop in Hs. destruct Hs as [Hc Hs]. rewrite (Hpq _ Hc), (IH Hs).
  reflexivity.
Qed.

Lemma lower_substring (n : nat) (s : string) :
  lower (substring 0 n s) = substring 0 n (lower s).
Proof.
  revert s. induction n as [| n IH]; intro s; destruct s as [| c s]; try reflexivity.
  cbn [substring lower]. rewrite IH. reflexivity.
Qed.

(** The alternation of the units never gets to its plural forms: where
    one of them stands, the singular before it matches first. *)
Lemma match_alternatives_year_units (s alt : string) :
  match_alternatives year_units s = Some alt -> alt = "year" \/ alt = "yr".
Proof.
  unfold year_units. cbn [match_alternatives].
  destruct (prefix "year" s) eqn:E1; [intros [= <-]; left; reflexivity |].
  destruct (prefix "yr" s) eqn:E2; [intros [= <-]; right; reflexivity |].
  destruct (prefix "years" s) eqn:E3.
  { destruct (prefix_split _ _ E3) as [post ->]. discriminate E1. }
  destruct (prefix "yrs" s) eqn:E4; [| discriminate].
  destruct (prefix_split _ _ E4) as [post ->]. discriminate E2.
Qed.

(** The unit a match of the years pattern captures is one of the units, in
    some case, and a singular; the digits are a non-empty run of digits. *)
Lemma match_years_ignorecase_shape (s digits unit : string) (n : nat) :
  match_years_ignorecase s = Some (digits, unit, n) ->
  digits <> EmptyString /\ all_chars is_digit digits = true
  /\ In (lower unit) year_units
  /\ (lower unit = "year" \/ lower unit = "yr").
Proof.
  unfold match_years_ignorecase.
  pose proof (span_fst_all is_digit s) as Hd.
  destruct (span is_digit s) as [d r1]. cbn [fst] in Hd.
  destruct d as [| c d]; [discriminate |].
  destruct (match r1 with
            | String "+"%char r => (1%nat, r)
            | _ => (0%nat, r1)
            end) as [plus r2].
  destruct (span is_space r2) as [spaces r3].
  destruct (match_alternatives year_units (lower r3)) as [alt |] eqn:E; [| discriminate].
  intros [= <- <- _]. split; [discriminate |]. split; [exact Hd |].
  pose proof (match_alternatives_year_units _ _ E) as Hsing.
  apply match_alternatives_found in E. destruct E as [Hin Hp].
  destruct (prefix_split _ _ Hp) as [post Hpost].
  rewrite lower_substring, Hpost, substring_prefix. split; [exact Hin | exact Hsing].
Qed.

Lemma findall_years_ignorecase_shape (s : string) (skip : nat) (digits unit : string) :
  In (digits, unit) (findall_years_ignorecase_from s skip) ->
  digits <> EmptyString /\ all_chars is_digit digits = true
  /\ In (lower unit) year_units
  /\ (lower unit = "year" \/ lower unit = "yr").
Proof.
  revert skip. induction s as [| c s IH]; intro skip; [intros [] |].
  cbn [findall_years_ignorecase_from]. destruct skip as [| k]; [| apply IH].
  destruct (match_years_ignorecase (String c s)) as [[[d u] n] |] eqn:E; [| apply IH].
  intros [[= <- <-] | Hin]; [| exact (IH _ Hin)].
  exact (match_years_ignorecase_shape _ _ _ _ E).
Qed.

Lemma span_all_app (p : ascii -> bool) (a : string) (c : ascii) (b : string) :
  all_chars p a = true -> p c = false -> span p (a ++ String c b) = (a, String c b).
Proof.
  intros Ha Hc. induction a as [| d a IH].
  - apply span_cons_false. exact Hc.
  - cbn [all_chars] in Ha. apply andb_prop in Ha. destruct Ha as [Hd Ha].
    cbn [String.append]. rewrite (span_cons_true _ _ _ Hd), (IH Ha). reflexivity.
Qed.

Lemma findall_years_skip (a b : string) :
  findall_years_from (a ++ b) (String.length a) = findall_years_from b 0.
Proof.
  induction a as [| c a IH]; [reflexivity |].
  cbn [String.append String.length findall_years_from]. exact IH.
Qed.

Lemma append_assoc (a b c : string) : (a ++ b) ++ c = a ++ b ++ c.
Proof.
  induction a as [| d a IH]; [reflexivity |]. cbn [String.append]. rewrite IH.
  reflexivity.
Qed.

(** What the years pattern of the scorer finds in a phrase made of digits,
    a space, a unit in lower case and a tail without years. *)
Lemma findall_years_phrase (digits unit found tail : string) :
  digits <> EmptyString -> all_chars is_digit digits = true ->
  span is_space (unit ++ tail) = (EmptyString, unit ++ tail) ->
  match_alternatives year_units (unit ++ tail) = Some found ->
  (exists rest, unit ++ tail = found ++ rest /\ findall_years_from rest 0 = []) ->
  findall_years (digits ++ " " ++ unit ++ tail) = [(digits, found)].
Proof.
  intros Hne Hd Hsp Halt (rest & Hrest & Hnone).
  destruct digits as [| c digits]; [congruence |].
  assert (Hm : match_years (String c digits ++ " " ++ unit ++ tail)
               = Some (String c digits, found,
                       (String.length (String c digits) + 0 + 1
                        + String.length found)%nat)).
  { unfold match_years.
    change (" " ++ unit ++ tail) with (String " " (unit ++ tail)).
    rewrite (span_all_app is_digit _ " " _ Hd eq_refl).
    rewrite (span_cons_true is_space " " _ eq_refl), Hsp. cbn [fst snd].
    rewrite Halt. reflexivity. }
  unfold findall_years.
  change (String c digits ++ " " ++ unit ++ tail)
    with (String c (digits ++ " " ++ unit ++ tail)) in *.
  cbn [findall_years_from]. rewrite Hm. f_equal.
  change (" " ++ unit ++ tail) with (String " " (unit ++ tail)).
  rewrite Hrest.
  change (String " " (found ++ rest)) with (" " ++ found ++ rest).
  rewrite <- (append_assoc " " found rest), <- (append_assoc digits _ rest).
  replace (pred (String.length (String c digits) + 0 + 1 + String.length found))
    with (String.length (digits ++ " " ++ found)).
  - rewrite findall_years_skip. exact Hnone.
  - rewrite !length_append. cbn [String.length]. lia.
Qed.

(** The scorer reads the number of years back from a phrase of the
    extractor. *)
Lemma years_phrase_read_back (digits unit : string) :
  digits <> EmptyString -> all_chars is_digit digits = true ->
  In (lower unit) year_units ->
  years_found [digits ++ " " ++ unit ++ " of experience"] = [int_of_digits digits].
Proof.
  intros Hne Hd Hu. unfold years_found. cbn [map collect_years].
  rewrite app_nil_r, !lower_app.
  rewrite (lower_fixed digits (all_chars_impl _ _ _ digit_not_upper Hd)).
  change (lower " ") with " ". change (lower " of experience") with " of experience".
  assert (Hf : exists found,
             findall_years (digits ++ " " ++ lower unit ++ " of experience")
             = [(digits, found)]).
  { cbn [year_units In] in Hu.
    destruct Hu as [<- | [<- | [<- | [<- | []]]]].
    - exists "year". apply findall_years_phrase; try assumption; try reflexivity.
      exists " of experience". split; reflexivity.
    - exists "yr". apply findall_years_phrase; try assumption; try reflexivity.
      exists " of experience". split; reflexivity.
    - exists "year". apply findall_years_phrase; try assumption; try reflexivity.
      exists "s of experience". split; reflexivity.
    - exists "yr". apply findall_years_phrase; try assumption; try reflexivity.
      exists "s of experience". split; reflexivity. }
  destruct Hf as [found ->]. reflexivity.
Qed.

Lemma collect_years_in (phrase : string) (phrases : list string) (year : Z) :
  In phrase phrases -> In year (collect_years [phrase]) ->
  In year (collect_years phrases).
Proof.
  cbn [collect_years]. rewrite app_nil_r. intros Hp Hy.
  induction phrases as [| p rest IH]; [contradiction |].
  cbn [collect_years]. apply in_or_app. destruct Hp as [-> | Hp]; [left; exact Hy |].
  right. exact (IH Hp).
Qed.

Lemma add_years_in (years_exp : list (string * string)) (experience : list string)
    (phrase : string) :
  In phrase (EntityExtractor.add_years years_exp experience) <->
  In phrase experience
  \/ exists year unit : string,
       In (year, unit) years_exp /\ phrase = year ++ " " ++ unit ++ " of experience".
Proof.
  revert experience. induction years_exp as [| [y u] rest IH]; intro experience;
    cbn [EntityExtractor.add_years].
  - split; [tauto |]. intros [Hp | (y & u & [] & _)]. exact Hp.
  - rewrite IH, set_add_in. split.
    + intros [[Hp | ->] | (y' & u' & Hin & Hrest)];
        [tauto | right; exists y, u; cbn [In]; tauto
        | right; exists y', u'; cbn [In]; tauto].
    + intros [Hp | (y' & u' & [[= <- <-] | Hin] & Hrest)];
        [tauto | tauto | right; exists y', u'; tauto].
Qed.

Lemma add_job_titles_keeps (tokens : list Token) (prev : option Token)
    (experience : list string) (phrase : string) :
  In phrase experience ->
  In phrase (EntityExtractor.add_job_titles prev tokens experience).
Proof.
  revert prev experience. induction tokens as [| token rest IH];
    intros prev experience Hp; [exact Hp |].
  cbn [EntityExtractor.add_job_titles]. apply IH.
  destruct (existsb _ job_titles); [| exact Hp].
  destruct prev as [before |]; [| exact Hp].
  destruct (is_alpha before); apply set_add_in; left; exact Hp.
Qed.

Lemma add_organizations_keeps (entities : list Span) (experience : list string)
    (phrase : string) :
  In phrase experience ->
  In phrase (EntityExtractor.add_organizations entities experience).
Proof.
  revert experience. induction entities as [| ent rest IH]; intros experience Hp;
    [exact Hp |].
  cbn [EntityExtractor.add_organizations]. apply IH.
  destruct (_ && _); [apply set_add_in; left |]; exact Hp.
Qed.

(** X25. Every match of the years pattern in the text becomes a phrase of
    [extract_experience], and the experience scorer reads the number of
    years back from that phrase: the years of a text reach the comparison
    of [calculate_experience_match], whatever the case of the unit.  The
    unit of the phrase is year or yr in the case of the text, never a
    plural: the alternation of the pattern tries the singular first. *)
Theorem extracted_years_are_read_back `{Spacy} `{SetOrder}
    (text : string) (phrases : list string) (year unit : string) :
  EntityExtractor.extract_experience text = Ok phrases ->
  In (year, unit) (findall_years_ignorecase text) ->
  In (year ++ " " ++ unit ++ " of experience") phrases
  /\ (lower unit = "year" \/ lower unit = "yr")
  /\ years_found [year ++ " " ++ unit ++ " of experience"] = [int_of_digits year]
  /\ In (int_of_digits year) (years_found phrases).
Proof.
  unfold EntityExtractor.extract_experience. intros Hx Hin.
  destruct (nlp text) as [doc | e]; cbn [bind] in Hx; [| discriminate].
  injection Hx as <-.
  destruct (findall_years_ignorecase_shape _ _ _ _ Hin) as (Hne & Hd & Hu & Hsing).
  pose proof (years_phrase_read_back _ _ Hne Hd Hu) as Hback.
  assert (Hp : In (year ++ " " ++ unit ++ " of experience")
                  (list_of_set (EntityExtractor.experience_set doc text))).
  { apply list_of_set_in. unfold EntityExtractor.experience_set.
    apply add_organizations_keeps, add_job_titles_keeps, add_years_in.
    right. exists year, unit. split; [exact Hin | reflexivity]. }
  split; [exact Hp |]. split; [exact Hsing |]. split; [exact Hback |].
  unfold years_found in *.
  apply (collect_years_in (lower (year ++ " " ++ unit ++ " of experience"))).
  - apply in_map. exact Hp.
  - cbn [map] in Hback. rewrite Hback. left. reflexivity.
Qed.

Lemma extracted_years_are_read_back_witness :
  In ("10" ++ " " ++ "Year" ++ " of experience")
     ["10 Year of experience"; "senior developer"]
  /\ (lower "Year" = "year" \/ lower "Year" = "yr")
  /\ years_found ["10" ++ " " ++ "Year" ++ " of experience"] = [int_of_digits "10"]
  /\ In (int_of_digits "10")
        (years_found ["10 Year of experience"; "senior developer"]).
Proof.
  apply (@extracted_years_are_read_back sample_spacy sample_set_order
           "Senior developer , 10+ Years of SQL").
  - vm_compute. reflexivity.
  - left. reflexivity.
Defined.

(** *** The shape of the extracted phrases *)

Lemma set_add_Forall (P : string -> Prop) (s : list string) (x : string) :
  Forall P s -> P x -> Forall P (set_add s x).
Proof.
  intros Hs Hx. apply Forall_forall. intros y Hy. apply set_add_in in Hy.
  destruct Hy as [Hy | ->]; [| exact Hx].
  exact (proj1 (Forall_forall P s) Hs y Hy).
Qed.

Lemma list_of_set_Forall `{SetOrder} (P : string -> Prop) (l : list string) :
  Forall P l -> Forall P (list_of_set l).
Proof.
  intro Hl. apply Forall_forall. intros y Hy. apply (proj1 (list_of_set_in l y)) in Hy.
  exact (proj1 (Forall_forall P l) Hl y Hy).
Qed.

Lemma all_chars_substring (p : ascii -> bool) (n : nat) (s : string) :
  all_chars p s = true -> all_chars p (substring 0 n s) = true.
Proof.
  revert s. induction n as [| n IH]; intros s Hs; destruct s as [| c s];
    try reflexivity.
  cbn [all_chars] in Hs. apply andb_prop in Hs. destruct Hs as [Hc Hs].
  cbn [substring all_chars]. rewrite Hc, (IH _ Hs). reflexivity.
Qed.

Lemma all_chars_span_snd (p q : ascii -> bool) (s : string) :
  all_chars p s = true -> all_chars p (snd (span q s)) = true.
Proof.
  intro Hs. rewrite <- (span_app q s), all_chars_app in Hs.
  apply andb_prop in Hs. tauto.
Qed.

(** The unit that a match of the years pattern captures is a piece of the
    text. *)
Lemma match_years_ignorecase_unit (p : ascii -> bool) (s digits unit : string)
    (n : nat) :
  all_chars p s = true ->
  match_years_ignorecase s = Some (digits, unit, n) ->
  all_chars p unit = true.
Proof.
  intro Hs. unfold match_years_ignorecase.
  pose proof (all_chars_span_snd p is_digit s Hs) as H1.
  destruct (span is_digit s) as [d r1]. cbn [snd] in H1.
  destruct d as [| c d]; [discriminate |].
  assert (H2 : all_chars p (snd (match r1 with
                                 | String "+"%char r => (1%nat, r)
                                 | _ => (0%nat, r1)
                                 end)) = true).
  { destruct r1 as [| a r]; [exact H1 |].
    cbn [all_chars] in H1. apply andb_prop in H1.
    destruct a as [[] [] [] [] [] [] [] []]; cbn [snd all_chars];
      try (rewrite (proj1 H1), (proj2 H1); reflexivity).
    exact (proj2 H1). }
  destruct (match r1 with
            | String "+"%char r => (1%nat, r)
            | _ => (0%nat, r1)
            end) as [plus r2]. cbn [snd] in H2.
  pose proof (all_chars_span_snd p is_space r2 H2) as H3.
  destruct (span is_space r2) as [spaces r3]. cbn [snd] in H3.
  destruct (match_alternatives year_units (lower r3)) as [alt |]; [| discriminate].
  intros [= _ <- _]. apply all_chars_substring. exact H3.
Qed.

Lemma findall_years_ignorecase_unit (p : ascii -> bool) (s : string) (skip : nat)
    (digits unit : string) :
  all_chars p s = true ->
  In (digits, unit) (findall_years_ignorecase_from s skip) ->
  all_chars p unit = true.
Proof.
  revert skip. induction s as [| c s IH]; intros skip Hs; [intros [] |].
  assert (Hs' : all_chars p s = true).
  { cbn [all_chars] in Hs. apply andb_prop in Hs. tauto. }
  cbn [findall_years_ignorecase_from]. destruct skip as [| k]; [| apply IH; exact Hs'].
  destruct (match_years_ignorecase (String c s)) as [[[d u] n] |] eqn:E;
    [| apply IH; exact Hs'].
  intros [[= <- <-] | Hin]; [| exact (IH _ Hs' Hin)].
  exact (match_years_ignorecase_unit _ _ _ _ _ Hs E).
Qed.

Lemma add_job_titles_Forall (P : string -> Prop) (tokens : list Token)
    (prev : option Token) (experience : list string) :
  (forall s : string, P (lower s)) -> Forall P experience ->
  Forall P (EntityExtractor.add_job_titles prev tokens experience).
Proof.
  intro HP. revert prev experience. induction tokens as [| token rest IH];
    intros prev experience Hx; [exact Hx |].
  cbn [EntityExtractor.add_job_titles]. apply IH.
  destruct (existsb _ job_titles); [| exact Hx].
  destruct prev as [before |]; [| exact Hx].
  destruct (is_alpha before); apply set_add_Forall; try exact Hx; apply HP.
Qed.

Lemma add_organizations_Forall (P : string -> Prop) (entities : list Span)
    (experience : list string) :
  (forall s : string, P ("worked at " ++ lower s)) -> Forall P experience ->
  Forall P (EntityExtractor.add_organizations entities experience).
Proof.
  intro HP. revert experience. induction entities as [| ent rest IH];
    intros experience Hx; [exact Hx |].
  cbn [EntityExtractor.add_organizations]. apply IH.
  destruct (_ && _); [apply set_add_Forall; [exact Hx | apply HP] | exact Hx].
Qed.

Lemma add_sentence_education_Forall (P : string -> Prop) (terms : list string)
    (sentence : string) (education : list string) :
  (forall phrase, EntityExtractor.education_phrase sentence = Some phrase -> P phrase) ->
  Forall P education ->
  Forall P (EntityExtractor.add_sentence_education terms sentence education).
Proof.
  intro HP. revert education. induction terms as [| term rest IH];
    intros education Hx; [exact Hx |].
  cbn [EntityExtractor.add_sentence_education]. apply IH.
  destruct (search_word term sentence); [| exact Hx].
  destruct (EntityExtractor.education_phrase sentence) as [phrase |]; [| exact Hx].
  apply set_add_Forall; [exact Hx | apply HP; reflexivity].
Qed.

Lemma add_education_Forall (P : string -> Prop) (sentences : list string)
    (education : list string) :
  (forall sentence phrase,
      In sentence sentences ->
      EntityExtractor.education_phrase sentence = Some phrase -> P phrase) ->
  Forall P education ->
  Forall P (EntityExtractor.add_education sentences education).
Proof.
  revert education. induction sentences as [| sentence rest IH];
    intros education HP Hx; [exact Hx |].
  lazy beta iota delta [EntityExtractor.add_education].
  fold EntityExtractor.add_education. apply IH.
  - intros s p Hs. apply HP. right. exact Hs.
  - apply add_sentence_education_Forall; [| exact Hx].
    intro phrase. apply HP. left. reflexivity.
Qed.

(** In a text without upper-case letters, a match of an alternation of
    lower-case literals is one of the literals. *)
Lemma search_bounded_lower_case (alts : list string) (s found : string) :
  all_chars not_upper s = true ->
  search_bounded true alts s = Some found -> In found alts.
Proof.
  intros Hs Hf. unfold search_bounded in Hf.
  destruct (search_bounded_from_found _ _ _ _ _ Hf)
    as (pre & rest & alt & -> & Ha & Hm & ->).
  rewrite all_chars_app in Hs. apply andb_prop in Hs. destruct Hs as [_ Hrest].
  unfold match_bounded in Hm. cbn [fold_case] in Hm.
  rewrite (lower_fixed _ Hrest) in Hm.
  apply andb_prop in Hm. destruct Hm as [Hm _].
  apply andb_prop in Hm. destruct Hm as [Hp _].
  destruct (prefix_split _ _ Hp) as [post ->].
  rewrite substring_prefix. exact Ha.
Qed.

Lemma words_and_spaces_all (s : string) :
  words_and_spaces s = all_chars word_or_space s.
Proof. induction s as [| c s IH]; [reflexivity |]. cbn. rewrite IH. reflexivity. Qed.

(** The sentence that [extract_education] keeps when it finds no degree. *)
Lemma clean_sentence_shape (p : ascii -> bool) (sentence : string) :
  p " "%char = true -> all_chars p sentence = true ->
  all_chars p (strip (re_sub match_spaces " " (re_sub match_special " " sentence)))
  = true
  /\ all_chars word_or_space
       (strip (re_sub match_spaces " " (re_sub match_special " " sentence))) = true.
Proof.
  intros Hsp Hs. unfold strip. split; apply rstrip_all_chars, lstrip_all_chars.
  - unfold re_sub. repeat (apply re_sub_all_chars; [cbn; rewrite Hsp; reflexivity |]).
    exact Hs.
  - unfold re_sub at 1. apply re_sub_all_chars; [reflexivity |].
    rewrite <- words_and_spaces_all. apply special_words_and_spaces.
Qed.

Lemma degree_names_lower (degree : string) :
  In degree degree_names -> all_chars not_upper degree = true.
Proof.
  unfold degree_names. cbn [In]. intro Hd.
  repeat (destruct Hd as [<- | Hd]; [reflexivity |]). contradiction.
Qed.

Lemma field_names_lower (field : string) :
  In field field_names -> all_chars not_upper field = true.
Proof.
  unfold field_names. cbn [In]. intro Hd.
  repeat (destruct Hd as [<- | Hd]; [reflexivity |]). contradiction.
Qed.

(** What [education_phrase] gives for a sentence in lower case. *)
Lemma education_phrase_shape (sentence phrase : string) :
  all_chars not_upper sentence = true ->
  EntityExtractor.education_phrase sentence = Some phrase ->
  all_chars not_upper phrase = true
  /\ ((exists degree : string,
          In degree degree_names
          /\ (phrase = degree
              \/ exists field : string,
                   In field field_names /\ phrase = degree ++ " in " ++ field))
      \/ (all_chars word_or_space phrase = true
          /\ (List.length (split_words phrase) < 10)%nat)).
Proof.
  intro Hs. unfold EntityExtractor.education_phrase.
  destruct (search_bounded true degree_names sentence) as [degree |] eqn:Ed.
  - pose proof (search_bounded_lower_case _ _ _ Hs Ed) as Hd.
    destruct (search_bounded true field_names sentence) as [field |] eqn:Ef.
    + pose proof (search_bounded_lower_case _ _ _ Hs Ef) as Hf.
      intros [= <-]. split.
      * rewrite all_chars_app, (degree_names_lower _ Hd).
        exact (field_names_lower _ Hf).
      * left. exists degree. split; [exact Hd |]. right. exists field. tauto.
    + intros [= <-]. split; [exact (degree_names_lower _ Hd) |].
      left. exists degree. tauto.
  - destruct (clean_sentence_shape not_upper sentence eq_refl Hs) as [Hlow Hws].
    destruct (List.length _ <? 10)%nat eqn:En; [| discriminate].
    intros [= <-]. split; [exact Hlow |]. right.
    apply Nat.ltb_lt in En. tauto.
Qed.

(** X26. The phrases of [extract_education] are in lower case, and each of
    them is a degree of the degree pattern, a degree followed by [ in ] and
    a field of the field pattern, or a sentence of fewer than ten words
    made of word characters and whitespace only. *)
Theorem education_phrases_are_degrees_or_short_sentences `{Spacy} `{SetOrder}
    (text : string) (phrases : list string) :
  EntityExtractor.extract_education text = Ok phrases ->
  Forall (fun phrase : string =>
            all_chars not_upper phrase = true
            /\ ((exists degree : string,
                    In degree degree_names
                    /\ (phrase = degree
                        \/ exists field : string,
                             In field field_names
                             /\ phrase = degree ++ " in " ++ field))
                \/ (all_chars word_or_space phrase = true
                    /\ (List.length (split_words phrase) < 10)%nat)))
         phrases.
Proof.
  unfold EntityExtractor.extract_education. intro Hx.
  destruct (nlp text) as [doc | e]; cbn [bind] in Hx; [| discriminate].
  destruct (sents doc) as [sentences | e]; cbn [bind] in Hx; [| discriminate].
  injection Hx as <-.
  apply list_of_set_Forall, add_education_Forall; [| constructor].
  intros sentence phrase Hin. apply in_map_iff in Hin.
  destruct Hin as (raw & <- & _).
  apply education_phrase_shape, lower_not_upper.
Qed.

Lemma education_phrases_are_degrees_or_short_sentences_witness :
  Forall (fun phrase : string =>
            all_chars not_upper phrase = true
            /\ ((exists degree : string,
                    In degree degree_names
                    /\ (phrase = degree
                        \/ exists field : string,
                             In field field_names
                             /\ phrase = degree ++ " in " ++ field))
                \/ (all_chars word_or_space phrase = true
                    /\ (List.length (split_words phrase) < 10)%nat)))
         ["master in computer science"].
Proof.
  apply (@education_phrases_are_degrees_or_short_sentences
           sample_spacy sample_set_order
           "Master of Science, Computer Science, University of Somewhere").
  vm_compute. reflexivity.
Defined.

(** X27. The skills and the education phrases that [extract_entities]
    returns hold no upper-case letter, whatever the text is; the
    experience phrases hold none when the text holds none, as the
    normalized text does: the unit of a years phrase is copied from the
    text in the case it has there. *)
Theorem extracted_entities_are_lower_case `{Spacy} `{SetOrder}
    (text : string) (found : Entities) :
  @extract_entities spacy_extractors text = Ok found ->
  Forall (fun phrase => all_chars not_upper phrase = true) (skills found)
  /\ Forall (fun phrase => all_chars not_upper phrase = true) (education found)
  /\ (all_chars not_upper text = true ->
      Forall (fun phrase => all_chars not_upper phrase = true) (experience found)).
Proof.
  unfold extract_entities. destruct text as [| c text'] eqn:Et.
  { intros [= <-]. cbn. repeat split; constructor. }
  rewrite <- Et. clear Et c text'.
  cbn [extract_skills extract_education extract_experience spacy_extractors].
  unfold EntityExtractor.extract_skills, EntityExtractor.extract_education,
    EntityExtractor.extract_experience.
  destruct (nlp text) as [doc | e]; cbn [bind]; [| discriminate].
  destruct (sents doc) as [sentences | e]; cbn [bind]; [| discriminate].
  intros [= <-]. cbn [skills education experience]. split; [| split].
  - apply list_of_set_Forall, Forall_forall. intros s Hs.
    unfold EntityExtractor.skills_set in Hs.
    assert (Hlex : In s (EntityExtractor.add_lexicon_skills COMMON_SKILLS (lower text)
                           (EntityExtractor.add_entity_skills (ents doc) [])) ->
                   all_chars not_upper s = true).
    { intro Hin.
      pose proof (proj1 (add_lexicon_skills_in COMMON_SKILLS (lower text) _ s) Hin)
        as [Hent | (skill & _ & _ & ->)]; [| apply lower_not_upper].
      apply add_entity_skills_in in Hent.
      destruct Hent as [[] | (ent & _ & _ & _ & ->)]. apply lower_not_upper. }
    destruct (search_bounded true code_words text); [| exact (Hlex Hs)].
    apply add_token_skills_in in Hs.
    destruct Hs as [Hs | (token & _ & _ & _ & -> & _)];
      [exact (Hlex Hs) | apply lower_not_upper].
  - apply list_of_set_Forall, add_education_Forall; [| constructor].
    intros sentence phrase Hin Hp. apply in_map_iff in Hin.
    destruct Hin as (raw & <- & _).
    exact (proj1 (education_phrase_shape _ _ (lower_not_upper raw) Hp)).
  - intro Htext. apply list_of_set_Forall. unfold EntityExtractor.experience_set.
    apply add_organizations_Forall;
      [intro s; rewrite all_chars_app, lower_not_upper; reflexivity |].
    apply add_job_titles_Forall; [apply lower_not_upper |].
    apply Forall_forall. intros phrase Hin. apply add_years_in in Hin.
    destruct Hin as [[] | (year & unit & Hin & ->)].
    destruct (findall_years_ignorecase_shape _ _ _ _ Hin) as (_ & Hd & _).
    rewrite !all_chars_app, (all_chars_impl _ _ _ digit_not_upper Hd),
      (findall_years_ignorecase_unit _ _ _ _ _ Htext Hin). reflexivity.
Qed.

Lemma extracted_entities_are_lower_case_witness :
  Forall (fun phrase => all_chars not_upper phrase = true) ["python"; "sql"]
  /\ Forall (fun phrase => all_chars not_upper phrase = true) []
  /\ (all_chars not_upper "python developer , 10 years of sql" = true ->
      Forall (fun phrase => all_chars not_upper phrase = true)
             ["10 year of experience"; "python developer"]).
Proof.
  apply (@extracted_entities_are_lower_case sample_spacy sample_set_order
           "python developer , 10 years of sql"
           {| skills := ["python"; "sql"]; education := [];
              experience := ["10 year of experience"; "python developer"] |}).
  vm_compute. reflexivity.
Defined.

(** ** The skills comparison of [visualization.py] *)

Lemma combine_app_same {A B : Type} (a a' : list A) (b b' : list B) :
  List.length a = List.length b ->
  combine (a ++ a') (b ++ b') = (combine a b ++ combine a' b')%list.
Proof.
  revert b. induction a as [| x a IH]; intros [| y b] Hl; try discriminate;
    [reflexivity |].
  cbn [app combine]. rewrite IH; [reflexivity |]. cbn in Hl. lia.
Qed.

Lemma combine_repeat_in (l : list string) (status s t : string) :
  In (s, t) (combine l (repeat status (List.length l))) <-> In s l /\ t = status.
Proof.
  induction l as [| x l IH]; cbn [List.length repeat combine In]; [tauto |].
  rewrite IH. split.
  - intros [[= -> ->] | [Hs ->]]; tauto.
  - intros [[-> | Hs] ->]; [left; reflexivity | right; tauto].
Qed.

Lemma frame_rows_spec (required_skills resume_skills : list string) (s t : string) :
  In (s, t) (frame_rows (skills_comparison_frame required_skills resume_skills)) <->
  (t = "Match" /\ In s resume_skills /\ In s required_skills)
  \/ (t = "Missing" /\ In s required_skills /\ ~ In s resume_skills).
Proof.
  unfold frame_rows, skills_comparison_frame. cbn [Skill Status].
  rewrite combine_app_same by (rewrite repeat_length; reflexivity).
  rewrite in_app_iff, !combine_repeat_in, !filter_In.
  unfold list_in. rewrite negb_true_iff, existsb_eqb_in.
  split.
  - intros [[[Hr Hq] ->] | [[Hq Hn] ->]]; [left; tauto | right].
    split; [reflexivity |]. split; [exact Hq |].
    intro Hr. apply existsb_eqb_in in Hr. congruence.
  - intros [(-> & Hr & Hq) | (-> & Hq & Hn)]; [left; tauto | right].
    split; [| reflexivity]. split; [exact Hq |].
    destruct (existsb (String.eqb s) resume_skills) eqn:E; [| reflexivity].
    apply existsb_eqb_in in E. contradiction.
Qed.

Lemma has_match_member (s : string) (l : list string) :
  In s l -> has_match s l = true.
Proof.
  intro Hs. unfold has_match. apply existsb_exists. exists s. split; [exact Hs |].
  unfold either_in. apply orb_true_iff. left. apply str_in_spec.
  exists EmptyString, EmptyString. cbn [String.append].
  symmetry. apply append_empty_r.
Qed.

(** X28. The skills comparison of the charts is stricter than the one of
    the ranking: its columns have one length and its rows are the resume
    skills equal to a required skill, as Match, and the required skills
    equal to no resume skill, as Missing; a skill it shows as Match is
    among the matching skills of the ranking, and a skill the ranking
    reports as missing is shown as Missing. *)
Theorem chart_comparison_is_stricter_than_ranking `{Numpy}
    (job_description : JobDescription) (resume : Resume) :
  comparable (jd_embedding job_description) (embedding resume) ->
  exists entry : RankedResume,
    rank_one job_description resume = Ok entry
    /\ let df := skills_comparison_frame (skills (jd_entities job_description))
                                         (skills (entities resume)) in
       List.length (Status df) = List.length (Skill df)
       /\ List.length (Value df) = List.length (Skill df)
       /\ (forall s t : string,
              In (s, t) (frame_rows df) <->
              (t = "Match" /\ In s (skills (entities resume))
               /\ In s (skills (jd_entities job_description)))
              \/ (t = "Missing" /\ In s (skills (jd_entities job_description))
                  /\ ~ In s (skills (entities resume))))
       /\ (forall s : string,
              In (s, "Match") (frame_rows df) -> In s (matching_skills entry))
       /\ (forall s : string,
              In s (missing_skills entry) -> In (s, "Missing") (frame_rows df)).
Proof.
  intro Hshape.
  destruct (rank_one_skill_lists job_description resume Hshape)
    as (entry & Hentry & _ & Hmissing & Hmatching).
  exists entry. split; [exact Hentry |]. cbn zeta.
  split; [| split; [| split; [| split]]].
  - cbn [Status Skill skills_comparison_frame].
    rewrite !length_app, !repeat_length. reflexivity.
  - cbn [Value Skill skills_comparison_frame]. apply repeat_length.
  - intros s t. apply frame_rows_spec.
  - intros s Hrow. apply frame_rows_spec in Hrow.
    destruct Hrow as [(_ & Hr & Hq) | (Hd & _)]; [| discriminate].
    rewrite Hmatching. apply filter_In. split; [exact Hr |].
    apply has_match_member. exact Hq.
  - intros s Hs. rewrite Hmissing in Hs. apply filter_In in Hs.
    destruct Hs as [Hq Hn]. apply frame_rows_spec. right.
    split; [reflexivity |]. split; [exact Hq |].
    intro Hr. rewrite (has_match_member _ _ Hr) in Hn. discriminate.
Qed.

Lemma chart_comparison_is_stricter_than_ranking_witness :
  exists entry : RankedResume,
    @rank_one sample_numpy sample_job sample_resume_a = Ok entry
    /\ let df := skills_comparison_frame (skills (jd_entities sample_job))
                                         (skills (entities sample_resume_a)) in
       List.length (Status df) = List.length (Skill df)
       /\ List.length (Value df) = List.length (Skill df)
       /\ (forall s t : string,
              In (s, t) (frame_rows df) <->
              (t = "Match" /\ In s (skills (entities sample_resume_a))
               /\ In s (skills (jd_entities sample_job)))
              \/ (t = "Missing" /\ In s (skills (jd_entities sample_job))
                  /\ ~ In s (skills (entities sample_resume_a))))
       /\ (forall s : string,
              In (s, "Match") (frame_rows df) -> In s (matching_skills entry))
       /\ (forall s : string,
              In s (missing_skills entry) -> In (s, "Missing") (frame_rows df)).
Proof.
  apply (@chart_comparison_is_stricter_than_ranking sample_numpy
           sample_job sample_resume_a).
  right. reflexivity.
Defined.

(** X29. With the extractors of [entity_extractor.py], [extract_entities]
    does not call the pipeline on an empty text and returns three empty
    lists; on another text it raises what the pipeline raises, it raises
    when the document has no sentence boundaries even though the skills
    were extracted, and it returns otherwise. *)
Theorem extract_entities_raises_with_the_pipeline `{Spacy} `{SetOrder}
    (text : string) :
  match text with
  | EmptyString =>
      @extract_entities spacy_extractors text
      = Ok {| skills := []; education := []; experience := [] |}
  | _ =>
      match nlp text with
      | Err e => @extract_entities spacy_extractors text = Err e
      | Ok doc =>
          is_ok (EntityExtractor.extract_skills text) = true
          /\ match sents doc with
             | Err e => @extract_entities spacy_extractors text = Err e
             | Ok _ => is_ok (@extract_entities spacy_extractors text) = true
             end
      end
  end.
Proof.
  destruct text as [| c text']; [reflexivity |].
  unfold extract_entities.
  cbn [extract_skills extract_education extract_experience spacy_extractors].
  unfold EntityExtractor.extract_skills, EntityExtractor.extract_education,
    EntityExtractor.extract_experience.
  destruct (nlp (String c text')) as [doc | e]; cbn [bind]; [| reflexivity].
  split; [reflexivity |].
  destruct (sents doc) as [sentences | e]; reflexivity.
Qed.

(** * The normal forms of a text *)

Lemma re_sub_no_match (m : string -> option nat) (repl s : string) :
  re_search m s = false -> re_sub m repl s = s.
Proof.
  unfold re_sub. induction s as [| c s IH]; [reflexivity |].
  cbn [re_search re_sub_from]. destruct (m (String c s)); [discriminate |].
  intro H. rewrite (IH H). reflexivity.
Qed.

Lemma word_or_space_not_at (c : ascii) :
  is_word c || is_space c = true -> Ascii.eqb "@" c = false.
Proof. destruct c as [[] [] [] [] [] [] [] []]; try reflexivity; discriminate. Qed.

Lemma words_and_spaces_no_at (s : string) :
  words_and_spaces s = true -> contains_char "@" s = false.
Proof.
  induction s as [| c s IH]; [reflexivity |].
  cbn [words_and_spaces contains_char]. intro H.
  apply andb_prop in H. destruct H as [Hc Hs].
  rewrite (word_or_space_not_at _ Hc), (IH Hs). reflexivity.
Qed.

Lemma contains_char_span (c : ascii) (p : ascii -> bool) (s : string) :
  contains_char c s = false -> contains_char c (fst (span p s)) = false.
Proof.
  induction s as [| d s IH]; [reflexivity |].
  cbn [contains_char]. intro H. apply orb_false_elim in H. destruct H as [Hd Hs].
  destruct (p d) eqn:E.
  - rewrite (span_cons_true _ _ _ E). cbn [fst contains_char].
    rewrite Hd, (IH Hs). reflexivity.
  - rewrite (span_cons_false _ _ _ E). reflexivity.
Qed.

Lemma no_at_no_email (s : string) :
  contains_char "@" s = false -> re_search match_email s = false.
Proof.
  induction s as [| c s IH]; [reflexivity |].
  intro H. cbn [re_search].
  assert (E : match_email (String c s) = None).
  { unfold match_email.
    pose proof (contains_char_span "@" non_space _ H) as Hrun.
    destruct (span non_space (String c s)) as [run rest]. cbn [fst] in Hrun.
    rewrite Hrun. reflexivity. }
  rewrite E. apply IH. cbn [contains_char] in H.
  apply orb_false_elim in H. tauto.
Qed.

Lemma words_and_spaces_no_special (s : string) :
  words_and_spaces s = true -> re_search match_special s = false.
Proof.
  induction s as [| c s IH]; [reflexivity |].
  cbn [words_and_spaces re_search match_special]. intro H.
  apply andb_prop in H. destruct H as [Hc Hs]. rewrite Hc. exact (IH Hs).
Qed.

Lemma spaced_single_spaced (s : string) (after_word : bool) :
  spaced_from s after_word = true ->
  single_spaced_from s (negb after_word) = true.
Proof.
  revert after_word. induction s as [| c s IH]; intros after_word H;
    [reflexivity |].
  cbn [spaced_from single_spaced_from] in *. destruct (is_word c).
  - exact (IH true H).
  - apply andb_prop in H. destruct H as [H Hs].
    apply andb_prop in H. destruct H as [Hc Hw].
    pose proof (IH false Hs) as E. cbn [negb] in E.
    rewrite Hc, Hw, E. reflexivity.
Qed.

Lemma single_spaced_words_and_spaces (s : string) (after_space : bool) :
  single_spaced_from s after_space = true -> words_and_spaces s = true.
Proof.
  revert after_space. induction s as [| c s IH]; intros after_space H;
    [reflexivity |].
  destruct (single_spaced_char _ _ _ H) as [[Hw Hs] | (-> & _ & Hs)];
    cbn [words_and_spaces].
  - rewrite Hw, (IH _ Hs). reflexivity.
  - rewrite (IH _ Hs). reflexivity.
Qed.

Lemma collapse_single_spaced_fixed (s : string) (after_space : bool) :
  single_spaced_from s after_space = true -> collapse_from s after_space = s.
Proof.
  revert after_space. induction s as [| c s IH]; intros after_space H;
    [reflexivity |].
  destruct (single_spaced_char _ _ _ H) as [[Hw Hs] | (-> & -> & Hs)];
    cbn [collapse_from].
  - rewrite (word_not_space _ Hw), (IH _ Hs). reflexivity.
  - change (is_space " ") with true. cbn iota. rewrite (IH _ Hs). reflexivity.
Qed.

Lemma lstrip_spaced_fixed (s : string) :
  spaced_from s false = true -> lstrip s = s.
Proof.
  intro H. destruct (spaced_from_start s H) as (c & s' & -> & Hc & _).
  cbn [lstrip]. rewrite (word_not_space _ Hc). reflexivity.
Qed.

Lemma rstrip_spaced_fixed (s : string) (after_word : bool) :
  spaced_from s after_word = true -> rstrip s = s.
Proof.
  revert after_word. induction s as [| c s IH]; intros after_word H;
    [reflexivity |].
  cbn [spaced_from] in H. cbn [rstrip]. destruct (is_word c) eqn:E.
  - rewrite (IH true H). destruct s; [| reflexivity].
    rewrite (word_not_space _ E). reflexivity.
  - apply andb_prop in H. destruct H as [_ Hs]. rewrite (IH false Hs).
    destruct s; [discriminate | reflexivity].
Qed.

(** The cleaning steps change nothing in lower-case words separated by
    single spaces, unless a URL or a phone number is found in them. *)
Lemma clean_text_fixed (s : string) :
  spaced_from s false = true -> all_chars not_upper s = true ->
  re_search match_url s = false -> re_search match_phone s = false ->
  clean_text s = s.
Proof.
  intros Hs Hl Hu Hp.
  pose proof (spaced_single_spaced _ _ Hs) as Hsingle. cbn [negb] in Hsingle.
  pose proof (single_spaced_words_and_spaces _ _ Hsingle) as Hw.
  assert (Hfalse : single_spaced_from s false = true).
  { destruct (spaced_from_start s Hs) as (c & s' & -> & Hc & _).
    cbn [single_spaced_from] in *. rewrite Hc in *. exact Hsingle. }
  unfold clean_text, strip.
  rewrite (lower_fixed _ Hl), (re_sub_no_match _ _ _ Hu).
  rewrite (re_sub_no_match _ _ _ (no_at_no_email _ (words_and_spaces_no_at _ Hw))).
  rewrite (re_sub_no_match _ _ _ Hp).
  rewrite (re_sub_no_match _ _ _ (words_and_spaces_no_special _ Hw)).
  unfold re_sub. rewrite (proj1 (collapse_both s)).
  rewrite (collapse_single_spaced_fixed _ _ Hfalse).
  rewrite (lstrip_spaced_fixed _ Hs). exact (rstrip_spaced_fixed _ _ Hs).
Qed.

Lemma strings_eqb_eq (a b : list string) : strings_eqb a b = true -> a = b.
Proof.
  revert b. induction a as [| x a IH]; intros [| y b] H; try discriminate;
    [reflexivity |].
  cbn [strings_eqb] in H. apply andb_prop in H. destruct H as [Hx Ha].
  apply String.eqb_eq in Hx. rewrite Hx, (IH _ Ha). reflexivity.
Qed.

Lemma spaced_from_word (w r : string) :
  all_chars is_word w = true ->
  spaced_from (w ++ r) true = spaced_from r true.
Proof.
  induction w as [| c w IH]; [reflexivity |].
  cbn [all_chars String.append spaced_from]. intro H.
  apply andb_prop in H. destruct H as [Hc Hw]. rewrite Hc. exact (IH Hw).
Qed.

Lemma spaced_from_first_word (w r : string) (after_word : bool) :
  (0 <? String.length w)%nat = true -> all_chars is_word w = true ->
  spaced_from (w ++ r) after_word = spaced_from r true.
Proof.
  destruct w as [| c w]; [discriminate |]. intros _ H.
  cbn [all_chars] in H. apply andb_prop in H. destruct H as [Hc Hw].
  cbn [String.append spaced_from]. rewrite Hc. exact (spaced_from_word w r Hw).
Qed.

Lemma plain_lemma_spec `{NL : Nltk} (lemma : string) :
  plain_lemma lemma = true ->
  (0 <? String.length lemma)%nat = true /\ all_chars is_word lemma = true
  /\ all_chars not_upper lemma = true /\ lemmatize lemma = lemma.
Proof.
  unfold plain_lemma. intro H.
  apply andb_prop in H. destruct H as [H H4].
  apply andb_prop in H. destruct H as [H H3].
  apply andb_prop in H. destruct H as [H1 H2].
  apply String.eqb_eq in H4. tauto.
Qed.

Lemma concat_cons (w x : string) (words : list string) :
  String.concat " " (w :: x :: words)
  = w ++ String " " (String.concat " " (x :: words)).
Proof. reflexivity. Qed.

(** Joined plain lemmas are lower-case words separated by single spaces. *)
Lemma join_plain_lemmas `{NL : Nltk} (w : string) (words : list string) :
  forallb plain_lemma (w :: words) = true ->
  spaced_from (String.concat " " (w :: words)) false = true
  /\ all_chars not_upper (String.concat " " (w :: words)) = true.
Proof.
  revert w. induction words as [| x words IH]; intros w H;
    cbn [forallb] in H; apply andb_prop in H; destruct H as [Hw Hrest];
    destruct (plain_lemma_spec _ Hw) as (Hlen & Hword & Hlow & _).
  - cbn [String.concat]. split; [| exact Hlow].
    rewrite <- (append_empty_r w).
    rewrite (spaced_from_first_word w EmptyString false Hlen Hword). reflexivity.
  - destruct (IH x Hrest) as [IHs IHl]. rewrite concat_cons. split.
    + rewrite (spaced_from_first_word w _ false Hlen Hword).
      cbn [spaced_from]. change (is_word " ") with false. cbn iota.
      rewrite IHs. reflexivity.
    + rewrite all_chars_app, Hlow. cbn [all_chars andb]. rewrite IHl. reflexivity.
Qed.

Lemma plain_lemmas_unchanged `{NL : Nltk} (words : list string) :
  forallb plain_lemma words = true ->
  map lemmatize (filter keep_token words) = filter keep_token words.
Proof.
  induction words as [| w words IH]; [reflexivity |].
  cbn [forallb filter]. intro H. apply andb_prop in H. destruct H as [Hw Hrest].
  destruct (keep_token w); [| exact (IH Hrest)].
  cbn [map]. rewrite (IH Hrest).
  destruct (plain_lemma_spec _ Hw) as (_ & _ & _ & ->). reflexivity.
Qed.

(** A pass over plain lemmas that are read back only filters them. *)
Lemma pass_over_plain_lemmas `{NL : Nltk} (words : list string) :
  forallb plain_lemma words = true -> read_back words = true ->
  preprocess_text (String.concat " " words)
  = String.concat " " (filter keep_token words).
Proof.
  intros Hplain Hread. destruct words as [| w words]; [reflexivity |].
  destruct (join_plain_lemmas w words Hplain) as [Hs Hl].
  unfold read_back in Hread. cbv zeta in Hread.
  apply andb_prop in Hread. destruct Hread as [Hread Hp].
  apply andb_prop in Hread. destruct Hread as [Ht Hu].
  apply negb_true_iff in Hp, Hu. apply strings_eqb_eq in Ht.
  pose proof (clean_text_fixed _ Hs Hl Hu Hp) as Hclean.
  destruct (String.concat " " (w :: words)) as [| c s] eqn:E; [discriminate |].
  rewrite preprocess_text_nonempty, Hclean, Ht.
  exact (f_equal (String.concat " ") (plain_lemmas_unchanged _ Hplain)).
Qed.

Lemma forallb_filter {A : Type} (p q : A -> bool) (l : list A) :
  forallb p l = true -> forallb p (filter q l) = true.
Proof.
  induction l as [| x l IH]; [reflexivity |].
  cbn [forallb filter]. intro H. apply andb_prop in H. destruct H as [Hx Hl].
  destruct (q x); [cbn [forallb]; rewrite Hx |]; exact (IH Hl).
Qed.

Lemma filter_twice {A : Type} (p : A -> bool) (l : list A) :
  filter p (filter p l) = filter p l.
Proof.
  induction l as [| x l IH]; [reflexivity |].
  cbn [filter]. destruct (p x) eqn:E; [| exact IH].
  cbn [filter]. rewrite E, IH. reflexivity.
Qed.

Lemma filter_all {A : Type} (p : A -> bool) (l : list A) :
  forallb p l = true -> filter p l = l.
Proof.
  induction l as [| x l IH]; [reflexivity |].
  cbn [forallb filter]. intro H. apply andb_prop in H. destruct H as [Hx Hl].
  rewrite Hx, (IH Hl). reflexivity.
Qed.

Lemma preprocess_text_lemmas `{NL : Nltk} (text : string) :
  preprocess_text text = String.concat " " (lemmas text).
Proof. destruct text; reflexivity. Qed.

(** With the fallback tokenizer in use, plain lemmas are split at their
    spaces. *)
Lemma span_word_space (w r : string) :
  all_chars is_word w = true ->
  span is_word (w ++ String " " r) = (w, String " " r).
Proof.
  induction w as [| c w IH]; [reflexivity |].
  cbn [all_chars String.append]. intro H.
  apply andb_prop in H. destruct H as [Hc Hw].
  rewrite (span_cons_true _ _ _ Hc), (IH Hw). reflexivity.
Qed.

Lemma span_word_end (w : string) :
  all_chars is_word w = true -> span is_word w = (w, EmptyString).
Proof.
  induction w as [| c w IH]; [reflexivity |].
  cbn [all_chars]. intro H. apply andb_prop in H. destruct H as [Hc Hw].
  rewrite (span_cons_true _ _ _ Hc), (IH Hw). reflexivity.
Qed.

Lemma regexp_tokenize_join `{NL : Nltk} (words : list string) :
  forallb plain_lemma words = true ->
  regexp_tokenize (String.concat " " words) = words.
Proof.
  destruct words as [| w words]; [reflexivity |]. revert w.
  induction words as [| x words IH]; intros w H;
    cbn [forallb] in H; apply andb_prop in H; destruct H as [Hw Hrest];
    destruct (plain_lemma_spec _ Hw) as (Hlen & Hword & _ & _);
    destruct w as [| c w]; try discriminate;
    cbn [all_chars] in Hword; apply andb_prop in Hword;
    destruct Hword as [Hc Hword].
  - cbn [String.concat]. rewrite (regexp_tokenize_word _ _ Hc).
    rewrite (span_word_end _ Hword). reflexivity.
  - rewrite concat_cons. cbn [String.append].
    rewrite (regexp_tokenize_word _ _ Hc), (span_word_space _ _ Hword).
    cbn [fst snd]. rewrite regexp_tokenize_other by reflexivity.
    rewrite (IH x Hrest). reflexivity.
Qed.

Lemma strings_eqb_refl (a : list string) : strings_eqb a a = true.
Proof.
  induction a as [| x a IH]; [reflexivity |].
  cbn [strings_eqb]. rewrite String.eqb_refl. exact IH.
Qed.

(** Without the tokenizer's resources the fallback is in use, and plain
    lemmas are read back unless they line up as a URL or a phone number. *)
Lemma fallback_reads_back `{NL : Nltk} (words : list string) (e : exn) :
  word_tokenize (String.concat " " words) = Err e ->
  forallb plain_lemma words = true ->
  read_back words
  = negb (re_search match_url (String.concat " " words))
    && negb (re_search match_phone (String.concat " " words)).
Proof.
  intros He Hplain. unfold read_back, tokenize. cbv zeta. rewrite He.
  rewrite (regexp_tokenize_join _ Hplain), strings_eqb_refl. reflexivity.
Qed.

(** C9, amended. Let the lemmas that the first pass over a text [t] gives
    be plain: words in lower case that the lemmatizer maps to themselves.
    Let the first two normal forms of [t] be read back: the tokenizer in
    use splits each at its spaces, and neither holds a URL or a phone
    number.  Then the second pass only drops the lemmas that are stop
    words or single characters, and the second normal form is a fixed
    point of the normalization.  The first normal form is one as well when
    the filter keeps all its lemmas. *)
Theorem normalization_settles_after_two_passes `{NL : Nltk} (t : string) :
  settles t = true ->
  preprocess_text (preprocess_text t)
  = String.concat " " (filter keep_token (lemmas t))
  /\ preprocess_text (preprocess_text (preprocess_text t))
     = preprocess_text (preprocess_text t)
  /\ (forallb keep_token (lemmas t) = true ->
      preprocess_text (preprocess_text t) = preprocess_text t).
Proof.
  unfold settles. intro H.
  apply andb_prop in H. destruct H as [H Hsecond].
  apply andb_prop in H. destruct H as [Hplain Hfirst].
  pose proof (pass_over_plain_lemmas _ Hplain Hfirst) as E1.
  pose proof (pass_over_plain_lemmas _ (forallb_filter _ keep_token _ Hplain) Hsecond)
    as E2.
  rewrite filter_twice in E2. rewrite (preprocess_text_lemmas t), E1.
  split; [reflexivity | split; [exact E2 |]].
  intro Hkept. rewrite (filter_all _ _ Hkept). reflexivity.
Qed.

(** The theorem in the installation with a lemmatizer, at the line of a
    resume: the first pass removes the address, the URL, the phone number,
    the punctuation and the stop words and gives the lemma of each word
    left; the second pass drops the single character that the lemmatizer
    has made of a word; the third changes nothing. *)
Lemma normalization_settles_after_two_passes_witness :
  @preprocess_text sample_nltk_with_lemmatizer sample_line
  = "contact u senior developer 10 year python sql skill"
  /\ @preprocess_text sample_nltk_with_lemmatizer
       (@preprocess_text sample_nltk_with_lemmatizer sample_line)
     = String.concat " "
         (filter (@keep_token sample_nltk_with_lemmatizer)
                 (@lemmas sample_nltk_with_lemmatizer sample_line))
  /\ @preprocess_text sample_nltk_with_lemmatizer
       (@preprocess_text sample_nltk_with_lemmatizer
          (@preprocess_text sample_nltk_with_lemmatizer sample_line))
     = @preprocess_text sample_nltk_with_lemmatizer
         (@preprocess_text sample_nltk_with_lemmatizer sample_line)
  /\ (forallb (@keep_token sample_nltk_with_lemmatizer)
              (@lemmas sample_nltk_with_lemmatizer sample_line) = true ->
      @preprocess_text sample_nltk_with_lemmatizer
        (@preprocess_text sample_nltk_with_lemmatizer sample_line)
      = @preprocess_text sample_nltk_with_lemmatizer sample_line).
Proof.
  split; [vm_compute; reflexivity |].
  apply (@normalization_settles_after_two_passes sample_nltk_with_lemmatizer
           sample_line).
  vm_compute; reflexivity.
Defined.

(** The first normal form of that line is no fixed point: the second pass
    is needed. *)
Example second_pass_drops_a_lemma :
  @preprocess_text sample_nltk_with_lemmatizer
    (@preprocess_text sample_nltk_with_lemmatizer sample_line)
  = "contact senior developer 10 year python sql skill"
  /\ @preprocess_text sample_nltk_with_lemmatizer
       (@preprocess_text sample_nltk_with_lemmatizer sample_line)
     <> @preprocess_text sample_nltk_with_lemmatizer sample_line.
Proof. split; [vm_compute; reflexivity | vm_compute; discriminate]. Qed.

(** The second normal form has to be read back as well: the lemma that
    the second pass drops may be what kept digit groups from lining up as
    a phone number, and a phone number that is removed may leave a URL. *)
Example patterns_line_up_after_a_pass :
  @settles sample_nltk_with_lemmatizer "123 us 456 7890" = false
  /\ @preprocess_text sample_nltk_with_lemmatizer "123 us 456 7890"
     = "123 u 456 7890"
  /\ @preprocess_text sample_nltk_with_lemmatizer "123 u 456 7890" = "123 456 7890"
  /\ @preprocess_text sample_nltk_with_lemmatizer "123 456 7890" = EmptyString
  /\ @settles sample_nltk_with_lemmatizer "ht555-555-5555tpx" = false
  /\ @preprocess_text sample_nltk_with_lemmatizer "ht555-555-5555tpx" = "httpx"
  /\ @preprocess_text sample_nltk_with_lemmatizer "httpx" = EmptyString.
Proof. repeat split; vm_compute; reflexivity. Qed.
